(** * setup_stack.py: the generator of the Modular CPU AI Stack layout

    A shallow embedding of [setup_stack.py] and of the library calls it
    relies on ([textwrap.dedent], [str.lstrip], [pathlib], [os.walk],
    [zipfile]), followed by the properties of the generator.

    Conventions of the model:
    - a Python [str] is a list of characters ([list ascii]); every
      character of the script and of its templates is ASCII;
    - a [Path] is the list of its components, innermost first, so that
      [Path.parent] is the tail of the list and [p / name] is [name :: p];
    - the file system is a finite map from paths to nodes, POSIX
      semantics (no newline translation, no symbolic links);
    - effects are threaded through a state-and-exception monad. *)

From Stdlib Require Import ZArith Ascii String List.
From stdpp Require Import gmap strings list fin_maps.

Local Open Scope Z_scope.
Local Open Scope list_scope.

(** ** Text *)

Module Text.

Definition str : Type := list ascii.

(** A string literal of the script. *)
Definition lit (s : string) : str := list_ascii_of_string s.

Definition LF : ascii := "010"%char.
Definition TAB : ascii := "009"%char.
Definition SPACE : ascii := " "%char.

Definition is_nl (c : ascii) : bool := bool_decide (c = LF).

(** The character class [[ \t]] of the regular expressions of textwrap. *)
Definition is_blank (c : ascii) : bool :=
  bool_decide (c = SPACE) || bool_decide (c = TAB).

(** [text.split("\n")]. *)
Fixpoint split_nl (s : str) : list str :=
  match s with
  | [] => [[]]
  | c :: s' =>
      if is_nl c then [] :: split_nl s'
      else match split_nl s' with
           | l :: ls => (c :: l) :: ls
           | [] => [[c]]
           end
  end.

(** ["\n".join(lines)]. *)
Fixpoint join_nl (ls : list str) : str :=
  match ls with
  | [] => []
  | l :: ls' =>
      match ls' with
      | [] => l
      | _ :: _ => l ++ LF :: join_nl ls'
      end
  end.

(** [s.startswith(p)]. *)
Fixpoint startswith (s p : str) {struct p} : bool :=
  match p, s with
  | [], _ => true
  | x :: p', y :: s' => bool_decide (x = y) && startswith s' p'
  | _ :: _, [] => false
  end.

(** [s.lstrip("\n")]. *)
Fixpoint lstrip_nl (s : str) : str :=
  match s with
  | c :: s' => if is_nl c then lstrip_nl s' else s
  | [] => []
  end.

(** *** textwrap.dedent (CPython, the implementation on regular
    expressions of Python 3.13 and earlier)

    Every regular expression of [dedent] is compiled with [re.MULTILINE],
    is anchored at [^] and cannot match across a newline, so each call is
    modelled by what it does to every line of the text. *)

(** A line matched by [_whitespace_only_re = '^[ \t]+$']. *)
Definition whitespace_only (l : str) : bool :=
  match l with
  | [] => false
  | _ :: _ => forallb is_blank l
  end.

(** [_whitespace_only_re.sub('', text)]. *)
Definition sub_whitespace_only (text : str) : str :=
  join_nl (map (λ l, if whitespace_only l then [] else l) (split_nl text)).

(** The longest run of [[ \t]] a line starts with. *)
Fixpoint leading_blanks (l : str) : str :=
  match l with
  | c :: l' => if is_blank c then c :: leading_blanks l' else []
  | [] => []
  end.

(** The group captured by [_leading_whitespace_re] on one line. The
    pattern is a group of any number of [[ \t]] anchored at the start of
    the line, followed by one character that is neither a blank nor a
    newline: the line must hold a character outside [[ \t]], and the
    group is then all of its leading blanks. *)
Definition line_indent (l : str) : option str :=
  if forallb is_blank l then None else Some (leading_blanks l).

(** [_leading_whitespace_re.findall(text)]. *)
Definition findall_leading_whitespace (text : str) : list str :=
  omap line_indent (split_nl text).

(** The innermost loop of [dedent]:
    [for i, (x, y) in enumerate(zip(margin, indent)):
       if x != y: margin = margin[:i]; break]. *)
Fixpoint cut_at_mismatch (margin indent : str) : str :=
  match margin, indent with
  | x :: m', y :: i' =>
      if decide (x = y) then x :: cut_at_mismatch m' i' else []
  | _, _ => margin
  end.

(** One iteration of [for indent in indents]. *)
Definition update_margin (margin : option str) (indent : str) : option str :=
  match margin with
  | None => Some indent
  | Some m =>
      if startswith indent m then Some m
      else if startswith m indent then Some indent
      else Some (cut_at_mismatch m indent)
  end.

Definition find_margin (indents : list str) : option str :=
  fold_left update_margin indents None.

(** [re.sub(r'(?m)^' + margin, '', text)]. *)
Definition sub_margin (margin text : str) : str :=
  join_nl (map (λ l, if startswith l margin then drop (length margin) l else l)
               (split_nl text)).

Definition dedent (text : str) : str :=
  let text1 := sub_whitespace_only text in
  match find_margin (findall_leading_whitespace text1) with
  | Some (c :: m) => sub_margin (c :: m) text1
  | Some [] | None => text1
  end.

(** The text [safe_write] hands to [write_text]:
    [textwrap.dedent(content).lstrip("\n")]. *)
Definition normalize (content : str) : str := lstrip_nl (dedent content).

End Text.

Import Text.

(** ** Paths (pathlib.PurePosixPath) *)

(** Components, innermost first: [/srv/gen/out] is [["out"; "gen"; "srv"]]
    and the root directory is [[]]. *)
Abbreviation path := (list string).

(** [p / name]. *)
Definition joinpath (p : path) (n : string) : path := n :: p.
Infix "/#" := joinpath (at level 40, left associativity).

(** [p.parent]; the root is its own parent. *)
Definition parent (p : path) : path := tail p.

(** [p.name]. *)
Definition name (p : path) : string := hd EmptyString p.

(** [p.relative_to(base)]: the components of [p] below [base], or [None]
    where Python raises ValueError. *)
Definition relative_to (p base : path) : option path :=
  if decide (base `suffix_of` p) then Some (take (length p - length base)%nat p)
  else None.

(** [str(p)] for an absolute path. *)
Definition path_str (p : path) : str :=
  match p with
  | [] => lit "/"
  | _ :: _ => flat_map (λ n, "/"%char :: lit n) (rev p)
  end.

(** [name.endswith(suffix)], which is what the pattern ["*.sh"] of
    [Path.glob] asks of a name. *)
Definition endswith (s suffix : str) : bool := startswith (rev s) (rev suffix).

(** ** The world the script runs in *)

(** Exceptions. [OSFault] stands for every refusal of the operating
    system that pathlib does not give a class of its own a meaning to
    (EACCES, EROFS, ENOSPC, ...). *)
Inductive exn : Type :=
| FileNotFoundError (p : path)
| FileExistsError (p : path)
| NotADirectoryError (p : path)
| IsADirectoryError (p : path)
| OSFault (errno : Z) (p : path)
| ValueError (p : path).

Inductive syscall : Type :=
| SysMkdir (p : path)
| SysOpenWrite (p : path)
| SysOpenAppend (p : path)
| SysOpenRead (p : path)
| SysStat (p : path)
| SysChmod (p : path).

(** A node of the file system: permission bits (the low twelve bits of
    [st_mode]) and, for a regular file, its content. *)
Inductive node : Type :=
| Dir (perm : Z)
| File (perm : Z) (data : str).

(** [datetime.datetime], the fields [strftime] reads. *)
Record datetime : Type := Datetime {
  year : Z; month : Z; day : Z; hour : Z; minute : Z; second : Z
}.

(** The thirteen templates written by [create_stack_files]. *)
Inductive template_id : Type :=
| CommonSh | InstallLlmSh | InstallImageGenSh | InstallTtsSh
| DownloadOllamaModelsSh | HealthCheckSh | CleanStackSh | SetupOauthSh
| InstallSh | DockerComposeYml | ReadmeMd | ChangelogMd | SessionRestartMd.

(** What the script takes from its surroundings. The bodies of the
    templates are literal text of the script (about 700 lines) that is
    passed to [safe_write] as it is; no property below depends on what
    they say, so they are a parameter. The ZIP container and its deflate
    compression are not modelled: [zip_image entries] is the content of
    an archive holding [entries] (archive name, content). *)
Record env : Type := Env {
  ROOT_DIR : path;                       (* Path(__file__).resolve().parent *)
  clock : nat → datetime;                (* the n-th reading of the UTC clock *)
  fault : syscall → option exn;          (* system calls the OS refuses *)
  umask : Z;
  exc_text : exn → str;                  (* str(exc) *)
  format_exc : exn → str;                (* traceback.format_exc() *)
  zip_image : list (path * str) → str;
  template : template_id → str
}.

Record world : Type := World {
  fs : gmap path node;
  stdout : str;
  stderr : str;
  ticks : nat                            (* readings of the clock so far *)
}.

Definition set_fs (f : gmap path node → gmap path node) (w : world) : world :=
  World (f (fs w)) (stdout w) (stderr w) (ticks w).

(** The root directory always exists. *)
Definition node_at (m : gmap path node) (p : path) : option node :=
  match p with
  | [] => Some (Dir 493)
  | _ :: _ => m !! p
  end.

Definition is_dir (m : gmap path node) (p : path) : bool :=
  match node_at m p with Some (Dir _) => true | _ => false end.

Definition is_file (m : gmap path node) (p : path) : bool :=
  match node_at m p with Some (File _ _) => true | _ => false end.

(** Content of a regular file. *)
Definition data_at (m : gmap path node) (p : path) : option str :=
  match node_at m p with Some (File _ d) => Some d | _ => None end.

(** ** The monad of the script: state and exceptions *)

Inductive result (A : Type) : Type :=
| Ok (a : A)
| Raise (e : exn).
Arguments Ok {A} a.
Arguments Raise {A} e.

Definition M (A : Type) : Type := world → result A * world.

Definition ret {A} (a : A) : M A := λ w, (Ok a, w).
Definition raise {A} (e : exn) : M A := λ w, (Raise e, w).
Definition bind {A B} (c : M A) (k : A → M B) : M B :=
  λ w, match c w with
       | (Ok a, w') => k a w'
       | (Raise e, w') => (Raise e, w')
       end.

(** [try: body  except Exception as exc: handler exc]. *)
Definition try_except {A} (body : M A) (handler : exn → M A) : M A :=
  λ w, match body w with
       | (Ok a, w') => (Ok a, w')
       | (Raise e, w') => handler e w'
       end.

Notation "'let*' x ':=' c 'in' k" := (bind c (λ x, k))
  (at level 10, x name, c at level 100, k at level 200).
Notation "c >> k" := (bind c (λ _, k))
  (at level 90, right associativity).

(** [for x in xs: f x]. *)
Fixpoint for_each {A} (xs : list A) (f : A → M unit) : M unit :=
  match xs with
  | [] => ret tt
  | x :: xs' => f x >> for_each xs' f
  end.

Definition S_IFDIR : Z := 16384.   (* 0o040000 *)
Definition S_IFREG : Z := 32768.   (* 0o100000 *)
Definition S_IXUSR : Z := 64.      (* 0o100 *)
Definition S_IXGRP : Z := 8.       (* 0o010 *)
Definition S_IXOTH : Z := 1.       (* 0o001 *)

Section Script.

Variable E : env.

(** *** System calls *)

Definition new_dir_perm : Z := Z.ldiff 511 (umask E).    (* 0o777 & ~umask *)
Definition new_file_perm : Z := Z.ldiff 438 (umask E).   (* 0o666 & ~umask *)

(** [os.mkdir(p)]. *)
Definition os_mkdir (p : path) : M unit := λ w,
  match fault E (SysMkdir p) with
  | Some e => (Raise e, w)
  | None =>
      match node_at (fs w) p with
      | Some _ => (Raise (FileExistsError p), w)
      | None =>
          match node_at (fs w) (parent p) with
          | None => (Raise (FileNotFoundError p), w)
          | Some (File _ _) => (Raise (NotADirectoryError p), w)
          | Some (Dir _) => (Ok tt, set_fs (insert p (Dir new_dir_perm)) w)
          end
      end
  end.

(** The [except OSError] clause of [Path.mkdir] with [exist_ok=True]:
    [if not self.is_dir(): raise]. *)
Definition unless_is_dir (p : path) (e : exn) : M unit := λ w,
  if is_dir (fs w) p then (Ok tt, w) else (Raise e, w).

(** [p.mkdir(parents=True, exist_ok=True)], as pathlib writes it: try
    [os.mkdir]; on FileNotFoundError make the parent the same way and
    try once more; on any other OSError give up unless the directory is
    there. *)
Fixpoint mkdir_p (p : path) : M unit :=
  try_except (os_mkdir p) (λ e,
    match e with
    | FileNotFoundError _ =>
        match p with
        | [] => raise e
        | _ :: q =>
            mkdir_p q >>
            try_except (os_mkdir p) (λ e',
              match e' with
              | FileNotFoundError _ => raise e'
              | _ => unless_is_dir p e'
              end)
        end
    | _ => unless_is_dir p e
    end).

(** Opening [p] for writing: the node the file will be, or the error. *)
Definition open_for_write (sc : syscall) (p : path) (w : world) : exn + Z :=
  match fault E sc with
  | Some e => inl e
  | None =>
      match node_at (fs w) p with
      | Some (Dir _) => inl (IsADirectoryError p)
      | Some (File perm _) => inr perm
      | None =>
          match node_at (fs w) (parent p) with
          | None => inl (FileNotFoundError p)
          | Some (File _ _) => inl (NotADirectoryError p)
          | Some (Dir _) => inr new_file_perm
          end
      end
  end.

(** [p.write_text(text, encoding="utf-8")]: the file is created or
    truncated and holds [text] afterwards. *)
Definition write_text (p : path) (text : str) : M unit := λ w,
  match open_for_write (SysOpenWrite p) p w with
  | inl e => (Raise e, w)
  | inr perm => (Ok tt, set_fs (insert p (File perm text)) w)
  end.

(** [with p.open("a", encoding="utf-8") as f: f.write(line)]. *)
Definition append_text (p : path) (line : str) : M unit := λ w,
  match open_for_write (SysOpenAppend p) p w with
  | inl e => (Raise e, w)
  | inr perm =>
      (Ok tt, set_fs (insert p (File perm (default [] (data_at (fs w) p) ++ line))) w)
  end.

(** [p.stat().st_mode]. *)
Definition stat_mode (p : path) : M Z := λ w,
  match fault E (SysStat p) with
  | Some e => (Raise e, w)
  | None =>
      match node_at (fs w) p with
      | None => (Raise (FileNotFoundError p), w)
      | Some (Dir perm) => (Ok (Z.lor S_IFDIR perm), w)
      | Some (File perm _) => (Ok (Z.lor S_IFREG perm), w)
      end
  end.

(** [p.chmod(mode)]: the kernel keeps the twelve permission bits. *)
Definition chmod (p : path) (mode : Z) : M unit := λ w,
  match fault E (SysChmod p) with
  | Some e => (Raise e, w)
  | None =>
      match node_at (fs w) p with
      | None => (Raise (FileNotFoundError p), w)
      | Some (Dir _) => (Ok tt, set_fs (insert p (Dir (Z.land mode 4095))) w)
      | Some (File _ d) => (Ok tt, set_fs (insert p (File (Z.land mode 4095) d)) w)
      end
  end.

(** [p.exists()]. *)
Definition exists_ (p : path) : M bool := λ w,
  (Ok (bool_decide (is_Some (node_at (fs w) p))), w).

(** [d.glob("*.sh")]: the entries of the directory [d] whose name ends
    in [.sh], in the order the directory lists them. *)
Definition glob_sh (d : path) : M (list path) := λ w,
  (Ok (if is_dir (fs w) d
       then filter (λ p, p ≠ [] ∧ parent p = d ∧ endswith (lit (name p)) (lit ".sh") = true)
                   (map fst (map_to_list (fs w)))
       else []), w).

(** [p] is met by [os.walk(top)]: its directory is [top] or a directory
    that [os.walk] descends into. *)
Fixpoint walked (m : gmap path node) (top p : path) : bool :=
  match p with
  | [] => false
  | _ :: q => is_dir m q && (bool_decide (q = top) || walked m top q)
  end.

(** The [Path(folder) / name] of the loops over [os.walk(top)]. *)
Definition walk_files (m : gmap path node) (top : path) : list path :=
  filter (λ p, is_file m p = true ∧ walked m top p = true) (map fst (map_to_list m)).

(** [print(text, end="")] and [print(text, end="", file=sys.stderr)]. *)
Definition print (text : str) : M unit := λ w,
  (Ok tt, World (fs w) (stdout w ++ text) (stderr w) (ticks w)).
Definition eprint (text : str) : M unit := λ w,
  (Ok tt, World (fs w) (stdout w) (stderr w ++ text) (ticks w)).

(** *** setup_stack.py *)

Definition VERSION : str := lit "0.1.6".
Definition STACK_DIR_NAME : string := "modular_cpu_ai_stack_v0_1_6".

Definition ACTIONS_LOG : path := ROOT_DIR E /# "create_stack_actions.log".
Definition ERRORS_LOG : path := ROOT_DIR E /# "create_stack_errors.log".

Definition digit (n : Z) : ascii := ascii_of_nat (48 + Z.to_nat (n mod 10)).
Definition pad2 (n : Z) : str := [digit (n / 10); digit n].
Definition pad4 (n : Z) : str := [digit (n / 1000); digit (n / 100); digit (n / 10); digit n].

(** [dt.strftime("%Y-%m-%dT%H:%M:%SZ")], for a year of four digits. *)
Definition strftime (dt : datetime) : str :=
  pad4 (year dt) ++ lit "-" ++ pad2 (month dt) ++ lit "-" ++ pad2 (day dt)
  ++ lit "T" ++ pad2 (hour dt) ++ lit ":" ++ pad2 (minute dt) ++ lit ":"
  ++ pad2 (second dt) ++ lit "Z".

Definition timestamp_utc : M str := λ w,
  (Ok (strftime (clock E (ticks w))),
   World (fs w) (stdout w) (stderr w) (S (ticks w))).

Definition _append_log (p : path) (line : str) : M unit :=
  mkdir_p (parent p) >>
  append_text p line.

Definition info_line (ts message : str) : str :=
  ts ++ lit " [INFO] [setup_stack.py]: " ++ message ++ [LF].

Definition error_line (ts message : str) : str :=
  ts ++ lit " [ERROR] [setup_stack.py]: " ++ message ++ lit " "
  ++ lit "(see " ++ path_str ERRORS_LOG ++ lit " for details)" ++ [LF].

Definition log_info (message : str) : M unit :=
  let* ts := timestamp_utc in
  let line := info_line ts message in
  _append_log ACTIONS_LOG line >>
  print line.

Definition log_error (message : str) : M unit :=
  let* ts := timestamp_utc in
  let line := error_line ts message in
  _append_log ERRORS_LOG line >>
  eprint line.

Definition safe_write (p : path) (content : str) : M unit :=
  try_except
    (mkdir_p (parent p) >>
     let text := lstrip_nl (dedent content) in
     write_text p text >>
     log_info (lit "Wrote file: " ++ path_str p))
    (λ exc,
       log_error (lit "Failed to write " ++ path_str p ++ lit ": " ++ exc_text E exc) >>
       raise exc).

Definition make_executable (p : path) : M unit :=
  try_except
    (let* mode := stat_mode p in
     chmod p (Z.lor (Z.lor (Z.lor mode S_IXUSR) S_IXGRP) S_IXOTH) >>
     log_info (lit "Marked executable: " ++ path_str p))
    (λ exc,
       log_error (lit "Failed to chmod +x " ++ path_str p ++ lit ": " ++ exc_text E exc) >>
       raise exc).

(** The targets of [create_stack_files], below the stack root, in the
    order of the calls. *)
Definition target (t : template_id) : path :=
  match t with
  | CommonSh => ["common.sh"; "scripts"]
  | InstallLlmSh => ["install_llm.sh"; "scripts"]
  | InstallImageGenSh => ["install_image_gen.sh"; "scripts"]
  | InstallTtsSh => ["install_tts.sh"; "scripts"]
  | DownloadOllamaModelsSh => ["download_ollama_models.sh"; "scripts"]
  | HealthCheckSh => ["health_check.sh"; "scripts"]
  | CleanStackSh => ["clean_stack.sh"; "scripts"]
  | SetupOauthSh => ["setup_oauth.sh"; "scripts"]
  | InstallSh => ["install.sh"]
  | DockerComposeYml => ["docker-compose.yml"]
  | ReadmeMd => ["README.md"]
  | ChangelogMd => ["CHANGELOG.md"]
  | SessionRestartMd => ["session_restart_prompt_v0_1_6.md"]
  end.

Definition catalog : list template_id :=
  [CommonSh; InstallLlmSh; InstallImageGenSh; InstallTtsSh;
   DownloadOllamaModelsSh; HealthCheckSh; CleanStackSh; SetupOauthSh;
   InstallSh; DockerComposeYml; ReadmeMd; ChangelogMd; SessionRestartMd].

Definition create_stack_files (stack_root : path) : M unit :=
  for_each catalog (λ t, safe_write (target t ++ stack_root) (template E t)).

(** [zf.write(full, arcname=full.relative_to(ROOT_DIR))]: the entry. *)
Definition zip_entry (m : gmap path node) (full : path) : exn + (path * str) :=
  match relative_to full (ROOT_DIR E) with
  | None => inl (ValueError full)
  | Some rel =>
      match fault E (SysOpenRead full) with
      | Some e => inl e
      | None =>
          match data_at m full with
          | Some d => inr (rel, d)
          | None => inl (FileNotFoundError full)
          end
      end
  end.

(** The two loops of [create_zip]: the entries written before the first
    failure, and the failure if there is one. *)
Fixpoint zip_entries (m : gmap path node) (files : list path)
    : list (path * str) * option exn :=
  match files with
  | [] => ([], None)
  | full :: rest =>
      match zip_entry m full with
      | inl e => ([], Some e)
      | inr en => let '(ens, r) := zip_entries m rest in (en :: ens, r)
      end
  end.

(** What the loops over [os.walk(stack_root)] put into the archive, in
    a file system [m]. *)
Definition archive_entries (m : gmap path node) (stack_root : path)
    : list (path * str) * option exn :=
  zip_entries m (walk_files m stack_root).

(** [with zipfile.ZipFile(zip_path, "w", ZIP_DEFLATED) as zf: ...]: the
    archive is opened for writing (created or truncated), the tree is
    walked, and the archive is closed with what was written to it, also
    when the loop raises. *)
Definition zip_tree (zip_path stack_root : path) : M unit := λ w,
  match open_for_write (SysOpenWrite zip_path) zip_path w with
  | inl e => (Raise e, w)
  | inr perm =>
      let m := <[zip_path := File perm []]> (fs w) in
      let '(ens, r) := archive_entries m stack_root in
      let w' := set_fs (λ _, <[zip_path := File perm (zip_image E ens)]> m) w in
      match r with
      | None => (Ok tt, w')
      | Some e => (Raise e, w')
      end
  end.

Definition create_zip (stack_root : path) : M path :=
  let zip_path := ROOT_DIR E /# (name stack_root +:+ ".zip") in
  try_except
    (zip_tree zip_path stack_root >>
     log_info (lit "Created ZIP archive: " ++ path_str zip_path) >>
     ret zip_path)
    (λ exc,
       log_error (lit "Failed to create zip " ++ path_str zip_path ++ lit ": "
                  ++ exc_text E exc) >>
       raise exc).

(** The statements of [main] before its [try]. *)
Definition main_prelude (stack_root : path) : M unit :=
  log_info (lit "Generating stack version " ++ VERSION ++ lit " in "
            ++ path_str (ROOT_DIR E)) >>
  let* b := exists_ stack_root in
  if b : bool then
    log_info (lit "Target directory already exists: " ++ path_str stack_root
              ++ lit " (will overwrite files).")
  else
    mkdir_p stack_root >>
    log_info (lit "Created stack root directory: " ++ path_str stack_root).

(** The body of the [try] of [main]. *)
Definition main_body (stack_root : path) : M unit :=
  create_stack_files stack_root >>
  let scripts_dir := stack_root /# "scripts" in
  let* shs := glob_sh scripts_dir in
  for_each shs make_executable >>
  make_executable (stack_root /# "install.sh") >>
  mkdir_p (stack_root /# "logs") >>
  let* zip_path := create_zip stack_root in
  log_info (lit "Stack files generation complete for " ++ VERSION ++ lit ".") >>
  log_info (lit "Root directory: " ++ path_str stack_root) >>
  log_info (lit "ZIP archive: " ++ path_str zip_path) >>
  print ([LF] ++ lit "Done." ++ [LF] ++ lit "Root: " ++ path_str stack_root ++ [LF]
         ++ lit "ZIP:  " ++ path_str zip_path ++ [LF] ++ [LF]).

(** The [except Exception] clause of [main]. *)
Definition main_handler (exc : exn) : M unit :=
  let tb := format_exc E exc in
  log_error (lit "Unhandled exception during stack generation:" ++ [LF] ++ tb) >>
  raise exc.

Definition main : M unit :=
  let stack_root := ROOT_DIR E /# STACK_DIR_NAME in
  main_prelude stack_root >>
  try_except (main_body stack_root) main_handler.

(** [if __name__ == "__main__": main()]: the exit status of the process;
    an exception that leaves [main] is reported on standard error by the
    interpreter. *)
Definition script (w : world) : Z * world :=
  match main w with
  | (Ok _, w') => (0, w')
  | (Raise e, w') =>
      (1, World (fs w') (stdout w') (stderr w' ++ format_exc E e) (ticks w'))
  end.

End Script.




(** * Notions used to state the properties *)

(** A blank line: empty, or made of spaces and tabs only. *)
Definition blank_line (l : str) : bool := forallb is_blank l.

(** The longest common prefix of two strings. *)
Fixpoint common_prefix (a b : str) : str :=
  match a, b with
  | x :: a', y :: b' => if decide (x = y) then x :: common_prefix a' b' else []
  | _, _ => []
  end.

(** [m] is the longest prefix of spaces and tabs common to all the lines
    of [lines] that are not blank. *)
Definition is_margin (m : str) (lines : list str) : Prop :=
  Forall (λ c, is_blank c = true) m
  ∧ (∀ l, l ∈ lines → blank_line l = false → m `prefix_of` l)
  ∧ (∀ m', Forall (λ c, is_blank c = true) m' →
           (∀ l, l ∈ lines → blank_line l = false → m' `prefix_of` l) →
           m' `prefix_of` m).

(** The margin [dedent] settles on: the empty string when no line has
    an indent to contribute. *)
Definition text_margin (text : str) : str :=
  default [] (find_margin (omap line_indent (split_nl text))).

(** What [dedent] does to a line, given the margin. *)
Definition dedent_line (m l : str) : str :=
  if blank_line l then [] else drop (length m) l.

(** The file system after a successful [mkdir(parents=True,
    exist_ok=True)] of [p]: nothing changes from the first ancestor that
    is there. *)
Fixpoint mkdirs (perm : Z) (p : path) (m : gmap path node) : gmap path node :=
  match p with
  | [] => m
  | _ :: q =>
      match m !! p with
      | Some _ => m
      | None => <[p := Dir perm]> (mkdirs perm q m)
      end
  end.

(** The permission bits a newly created or an existing file has after
    it was opened for writing. *)
Definition perm_for_write (E : env) (m : gmap path node) (p : path) : Z :=
  match node_at m p with
  | Some (File perm _) => perm
  | _ => new_file_perm E
  end.

(** The file system after a line was appended to the log at [L],
    missing parent directories included. *)
Definition appended (E : env) (L : path) (line : str) (m : gmap path node)
    : gmap path node :=
  <[L := File (perm_for_write E m L) (default [] (data_at m L) ++ line)]>
    (mkdirs (new_dir_perm E) (parent L) m).

(** No regular file stands where [mkdir(parents=True)] of [p] needs a
    directory. *)
Fixpoint clear_way (m : gmap path node) (p : path) : bool :=
  negb (is_file m p) && match p with [] => true | _ :: q => clear_way m q end.

(** The permission bits [make_executable] leaves on a file that had
    bits [perm]. *)
Definition chmod_x (perm : Z) : Z :=
  Z.land (Z.lor (Z.lor (Z.lor (Z.lor S_IFREG perm) S_IXUSR) S_IXGRP) S_IXOTH) 4095.

(** An environment and a world to run the script in: a generator kept
    in [/srv/gen], a system that refuses nothing, umask 022, an empty
    file system. *)
Definition sample_env : env := {|
  ROOT_DIR := ["gen"; "srv"];
  clock := λ n, Datetime 2025 11 3 12 0 (Z.of_nat n);
  fault := λ _, None;
  umask := 18;
  exc_text := λ _, lit "[Errno 13] Permission denied";
  format_exc := λ _, lit "Traceback (most recent call last):" ++ [LF]
                     ++ lit "PermissionError: [Errno 13] Permission denied" ++ [LF];
  zip_image := λ ens, flat_map (λ en, flat_map lit en.1 ++ [LF] ++ en.2) ens;
  template := λ _, [LF] ++ lit "        #!/usr/bin/env bash" ++ [LF]
                   ++ lit "        set -Eeuo pipefail" ++ [LF] ++ lit "        "
|}.

Definition empty_world : world := World ∅ [] [] 0.

(** The file system after [text] was written to [p], missing parent
    directories included. *)
Definition written (E : env) (p : path) (text : str) (m : gmap path node)
    : gmap path node :=
  <[p := File (perm_for_write E m p) text]> (mkdirs (new_dir_perm E) (parent p) m).

(** The text the specification describes, read to the letter: (2) the
    longest whitespace prefix common to all non-blank lines is stripped
    from each line that starts with it; (3) leading blank lines are
    dropped; everything else is kept as it is. *)
Definition spec_margin (lines : list str) : str :=
  match filter (λ l, blank_line l = false) lines with
  | [] => []
  | l :: ls => fold_left common_prefix (map leading_blanks ls) (leading_blanks l)
  end.

Definition spec_strip (m l : str) : str :=
  if startswith l m then drop (length m) l else l.

Fixpoint drop_blank_lines (ls : list str) : list str :=
  match ls with
  | l :: ls' => if blank_line l then drop_blank_lines ls' else ls
  | [] => []
  end.

Definition spec_text (content : str) : str :=
  let lines := split_nl content in
  join_nl (drop_blank_lines (map (spec_strip (spec_margin lines)) lines)).

(** A world in which the generator directory holds one script. *)
Definition script_path : path := ["run.sh"; "gen"; "srv"].
Definition one_script_world : world :=
  World (<[script_path := File 420 (lit "#!/bin/sh")]>
           (<[["gen"; "srv"] := Dir 493]> (<[["srv"] := Dir 493]> ∅)))
        [] [] 0.

(** How the contents of the files may differ between two states of the
    file system: outside of the paths [W] that were written, the content
    at a path is what it was, or, at a path of [A], what it was with
    text appended (a missing file counting as an empty one). *)
Definition frame (W A : list path) (m m' : gmap path node) : Prop :=
  ∀ k, k ∈ W
       ∨ data_at m' k = data_at m k
       ∨ (k ∈ A ∧ ∃ new, data_at m' k = Some (default [] (data_at m k) ++ new)).

(** A computation that keeps within [frame W A], however it ends. *)
Definition framed {X} (W A : list path) (c : M X) : Prop :=
  ∀ w r w', c w = (r, w') → frame W A (fs w) (fs w').

(** The steps of the body of [main], as the orchestrator runs them. *)
Definition step_permissions (E : env) (stack_root : path) : M unit :=
  let* shs := glob_sh (stack_root /# "scripts") in
  for_each shs (make_executable E) >>
  make_executable E (stack_root /# "install.sh").

Definition step_logs_dir (E : env) (stack_root : path) : M unit :=
  mkdir_p E (stack_root /# "logs").

Definition step_report (E : env) (stack_root zip_path : path) : M unit :=
  log_info E (lit "Stack files generation complete for " ++ VERSION ++ lit ".") >>
  log_info E (lit "Root directory: " ++ path_str stack_root) >>
  log_info E (lit "ZIP archive: " ++ path_str zip_path) >>
  print ([LF] ++ lit "Done." ++ [LF] ++ lit "Root: " ++ path_str stack_root ++ [LF]
         ++ lit "ZIP:  " ++ path_str zip_path ++ [LF] ++ [LF]).

Definition main_steps (E : env) (stack_root : path) : M unit :=
  create_stack_files E stack_root >>
  step_permissions E stack_root >>
  step_logs_dir E stack_root >>
  let* zip_path := create_zip E stack_root in
  step_report E stack_root zip_path.

(** The paths [main] writes files to, the logs apart. *)
Definition stack_root_of (E : env) : path := ROOT_DIR E /# STACK_DIR_NAME.
Definition zip_path_of (E : env) : path :=
  ROOT_DIR E /# (STACK_DIR_NAME +:+ ".zip").
Definition targets (E : env) : list path :=
  (λ t, target t ++ stack_root_of E) <$> catalog.
Definition logs (E : env) : list path := [ACTIONS_LOG E; ERRORS_LOG E].

(** The tree at and below the stack root, as a fresh run builds it: a
    map from paths relative to the stack root to what lies there. *)
Inductive tnode : Type :=
| TDir
| TFile (t : template_id) (exec : bool).

Definition interp (E : env) (n : tnode) : node :=
  match n with
  | TDir => Dir (new_dir_perm E)
  | TFile t false => File (new_file_perm E) (normalize (template E t))
  | TFile t true => File (chmod_x (new_file_perm E)) (normalize (template E t))
  end.

Definition tree_of (E : env) (T : gmap path tnode) (m : gmap path node) : Prop :=
  ∀ r, m !! (r ++ stack_root_of E) = interp E <$> T !! r.

(** What the generator needs around the stack root: its own directory,
    and no directory where the actions log and the archive go. *)
Definition run_ready (E : env) (m : gmap path node) : Prop :=
  is_dir m (ROOT_DIR E) = true
  ∧ is_dir m (ACTIONS_LOG E) = false
  ∧ is_dir m (zip_path_of E) = false.

Definition mark (n : tnode) : tnode :=
  match n with
  | TFile t _ => TFile t true
  | TDir => TDir
  end.

(** A relative path that [scripts_dir.glob("*.sh")] yields. *)
Definition is_sh_script (r : path) : bool :=
  match r with
  | [n; d] => bool_decide (d = "scripts"%string) && endswith (lit n) (lit ".sh")
  | _ => false
  end.

(** The tree after [mkdir(parents=True, exist_ok=True)] of [d], when
    [d] or its parent is a directory of the tree. *)
Definition mkdir_tree (T : gmap path tnode) (d : path) : option (gmap path tnode) :=
  match T !! d with
  | Some TDir => Some T
  | Some (TFile _ _) => None
  | None =>
      match d with
      | _ :: d' =>
          match T !! d' with
          | Some TDir => Some (<[d := TDir]> T)
          | _ => None
          end
      | [] => None
      end
  end.

(** The tree after the template [t] was written. *)
Definition write_tree (T : gmap path tnode) (t : template_id)
    : option (gmap path tnode) :=
  match target t with
  | n :: d =>
      match mkdir_tree T d with
      | Some T1 =>
          match T1 !! (n :: d) with
          | None => Some (<[n :: d := TFile t false]> T1)
          | Some _ => None
          end
      | None => None
      end
  | [] => None
  end.

Fixpoint write_trees (T : gmap path tnode) (ts : list template_id)
    : option (gmap path tnode) :=
  match ts with
  | [] => Some T
  | t :: ts' =>
      match write_tree T t with
      | Some T' => write_trees T' ts'
      | None => None
      end
  end.

(** The scripts of the layout and its other files. *)
Definition top_level_scripts : list path := [target InstallSh].
Definition subsystem_scripts : list path :=
  target <$> [CommonSh; InstallLlmSh; InstallImageGenSh; InstallTtsSh;
              DownloadOllamaModelsSh; HealthCheckSh; CleanStackSh; SetupOauthSh].
Definition manifest_files : list path := [target DockerComposeYml].
Definition documentation_files : list path :=
  target <$> [ReadmeMd; ChangelogMd; SessionRestartMd].

(** The tree once the templates are written, and once the scripts of
    [scripts] are marked executable. *)
Definition files_tree : gmap path tnode :=
  list_to_map ([([], TDir); (["scripts"], TDir)]
               ++ ((λ t, (target t, TFile t false)) <$> catalog)).

Definition marked_tree : gmap path tnode :=
  map_imap (λ r x, Some (if is_sh_script r then mark x else x)) files_tree.

(** Whether the run leaves the file of a template executable. *)
Definition exec_flag (t : template_id) : bool :=
  is_sh_script (target t) || bool_decide (target t = ["install.sh"]).

(** The tree of a fresh run: the stack root, its [scripts] and [logs]
    directories, and the thirteen files, the nine scripts executable. *)
Definition final_tree : gmap path tnode :=
  list_to_map
    ([([], TDir); (["scripts"], TDir); (["logs"], TDir)]
     ++ ((λ t, (target t, TFile t (exec_flag t))) <$> catalog)).

(** A world in which the directory of the generator exists and holds
    nothing yet. *)
Definition generator_world : world :=
  World (<[["gen"; "srv"] := Dir 493]> (<[["srv"] := Dir 493]> ∅)) [] [] 0.

(** A world with a stack directory [stack] that holds one file, in the
    directory of the generator, next to the generator script. *)
Definition archive_world : world :=
  World (<[["notes.txt"; "stack"; "gen"; "srv"] := File 420 (lit "hello")]>
           (<[["stack"; "gen"; "srv"] := Dir 493]> (fs one_script_world)))
        [] [] 0.

(** ** Failures *)

(** The operations of the orchestrator that log their own failure: a
    file write ([safe_write]), a permission change ([make_executable])
    and the archive step ([create_zip]). *)
Inductive component : Type :=
| FileWrite (p : path) (content : str)
| PermissionChange (p : path)
| Archive (stack_root : path).

(** The bodies of the [try] statements of the three operations. *)
Definition write_attempt (E : env) (p : path) (content : str) : M unit :=
  mkdir_p E (parent p) >>
  let text := lstrip_nl (dedent content) in
  write_text E p text >>
  log_info E (lit "Wrote file: " ++ path_str p).

Definition chmod_attempt (E : env) (p : path) : M unit :=
  let* mode := stat_mode E p in
  chmod E p (Z.lor (Z.lor (Z.lor mode S_IXUSR) S_IXGRP) S_IXOTH) >>
  log_info E (lit "Marked executable: " ++ path_str p).

Definition zip_attempt (E : env) (stack_root : path) : M path :=
  let zip_path := ROOT_DIR E /# (name stack_root +:+ ".zip") in
  zip_tree E zip_path stack_root >>
  log_info E (lit "Created ZIP archive: " ++ path_str zip_path) >>
  ret zip_path.

(** The call of the operation, as the orchestrator makes it. *)
Definition perform (E : env) (c : component) : M unit :=
  match c with
  | FileWrite p content => safe_write E p content
  | PermissionChange p => make_executable E p
  | Archive stack_root => let* _ := create_zip E stack_root in ret tt
  end.

(** The [try] body of the operation raises [exc] in [w] and leaves [w']. *)
Definition raises_in (E : env) (c : component) (w : world) (exc : exn) (w' : world)
    : Prop :=
  match c with
  | FileWrite p content => write_attempt E p content w = (Raise exc, w')
  | PermissionChange p => chmod_attempt E p w = (Raise exc, w')
  | Archive stack_root => zip_attempt E stack_root w = (Raise exc, w')
  end.

(** The path the operation works on, and the message its [except]
    clause logs. *)
Definition subject (E : env) (c : component) : path :=
  match c with
  | FileWrite p _ => p
  | PermissionChange p => p
  | Archive stack_root => ROOT_DIR E /# (name stack_root +:+ ".zip")
  end.

Definition failure_prefix (c : component) : str :=
  match c with
  | FileWrite _ _ => lit "Failed to write "
  | PermissionChange _ => lit "Failed to chmod +x "
  | Archive _ => lit "Failed to create zip "
  end.

Definition failure_message (E : env) (c : component) (exc : exn) : str :=
  failure_prefix c ++ path_str (subject E c) ++ lit ": " ++ exc_text E exc.

(** The message of the [except] clause of [main]. *)
Definition unhandled_message (E : env) (exc : exn) : str :=
  lit "Unhandled exception during stack generation:" ++ [LF] ++ format_exc E exc.

(** The world once one record for [message] is appended to the errors
    log and echoed on standard error. *)
Definition logged_error (E : env) (message : str) (w : world) : world :=
  let line := error_line E (strftime (clock E (ticks w))) message in
  World (appended E (ERRORS_LOG E) line (fs w)) (stdout w) (stderr w ++ line)
        (S (ticks w)).

(** [reaches E root w0 c w1]: the body of [main], started in [w0], comes
    to the call of the operation [c] in the world [w1], every step
    before it having returned. *)
Inductive reaches (E : env) (stack_root : path) (w0 : world)
    : component → world → Prop :=
| reaches_write pre t post w1 :
    catalog = pre ++ t :: post →
    for_each pre (λ t, safe_write E (target t ++ stack_root) (template E t)) w0
    = (Ok tt, w1) →
    reaches E stack_root w0
      (FileWrite (target t ++ stack_root) (template E t)) w1
| reaches_chmod_script w1 pre p post w2 w3 :
    create_stack_files E stack_root w0 = (Ok tt, w1) →
    glob_sh (stack_root /# "scripts") w1 = (Ok (pre ++ p :: post), w2) →
    for_each pre (make_executable E) w2 = (Ok tt, w3) →
    reaches E stack_root w0 (PermissionChange p) w3
| reaches_chmod_install w1 shs w2 w3 :
    create_stack_files E stack_root w0 = (Ok tt, w1) →
    glob_sh (stack_root /# "scripts") w1 = (Ok shs, w2) →
    for_each shs (make_executable E) w2 = (Ok tt, w3) →
    reaches E stack_root w0 (PermissionChange (stack_root /# "install.sh")) w3
| reaches_archive w1 w2 w3 :
    create_stack_files E stack_root w0 = (Ok tt, w1) →
    step_permissions E stack_root w1 = (Ok tt, w2) →
    step_logs_dir E stack_root w2 = (Ok tt, w3) →
    reaches E stack_root w0 (Archive stack_root) w3.

(** The sample environment with a system that refuses to open
    [install.sh] of the stack root for writing (EACCES). *)
Definition refused_path : path := ["install.sh"; STACK_DIR_NAME; "gen"; "srv"].

Definition failing_env : env := {|
  ROOT_DIR := ROOT_DIR sample_env;
  clock := clock sample_env;
  fault := λ sc, match sc with
                 | SysOpenWrite p =>
                     if bool_decide (p = refused_path) then Some (OSFault 13 p)
                     else None
                 | _ => None
                 end;
  umask := umask sample_env;
  exc_text := exc_text sample_env;
  format_exc := format_exc sample_env;
  zip_image := zip_image sample_env;
  template := template sample_env
|}.

(** ** Notions of the further properties *)

(** A computation that leaves standard error as it is, however it ends. *)
Definition keeps_stderr {X} (c : M X) : Prop :=
  ∀ w r w', c w = (r, w') → stderr w' = stderr w.

(** A computation that, when it returns, has written only to the paths
    of [W], appended only to the actions log, and left standard error
    as it was. *)
Definition returns_quietly {X} (E : env) (W : list path) (c : M X) : Prop :=
  ∀ w x w', c w = (Ok x, w') →
    frame W [ACTIONS_LOG E] (fs w) (fs w') ∧ stderr w' = stderr w.

(** The sample environment with a system that, beside [install.sh] of
    the stack root, refuses to open the errors log for appending. *)
Definition mute_env : env := {|
  ROOT_DIR := ROOT_DIR sample_env;
  clock := clock sample_env;
  fault := λ sc, match sc with
                 | SysOpenWrite p =>
                     if bool_decide (p = refused_path) then Some (OSFault 13 p)
                     else None
                 | SysOpenAppend p =>
                     if bool_decide (p = ERRORS_LOG sample_env)
                     then Some (OSFault 30 p) else None
                 | _ => None
                 end;
  umask := umask sample_env;
  exc_text := exc_text sample_env;
  format_exc := format_exc sample_env;
  zip_image := zip_image sample_env;
  template := template sample_env
|}.

(** A world in which a regular file stands where the stack root goes. *)
Definition blocked_world : world :=
  World (<[stack_root_of sample_env := File 420 (lit "keep")]> (fs generator_world))
        [] [] 0.

(** The two records [main] starts with. *)
Definition start_message (E : env) : str :=
  lit "Generating stack version " ++ VERSION ++ lit " in " ++ path_str (ROOT_DIR E).

Definition stack_root_message (E : env) (present : bool) : str :=
  if present
  then lit "Target directory already exists: " ++ path_str (stack_root_of E)
       ++ lit " (will overwrite files)."
  else lit "Created stack root directory: " ++ path_str (stack_root_of E).


(** What [main] prints last. *)
Definition done_text (E : env) : str :=
  [LF] ++ lit "Done." ++ [LF] ++ lit "Root: " ++ path_str (stack_root_of E) ++ [LF]
  ++ lit "ZIP:  " ++ path_str (zip_path_of E) ++ [LF] ++ [LF].

(** The three records a run ends its actions log with. *)
Definition completion_records (E : env) (ts1 ts2 ts3 : str) : str :=
  info_line ts1 (lit "Stack files generation complete for " ++ VERSION ++ lit ".")
  ++ info_line ts2 (lit "Root directory: " ++ path_str (stack_root_of E))
  ++ info_line ts3 (lit "ZIP archive: " ++ path_str (zip_path_of E)).

(** The readings of the clock that [strftime] prints on four and two
    digits. *)
Definition four_digit_year (dt : datetime) : Prop :=
  0 ≤ year dt < 10000 ∧ 0 ≤ month dt < 100 ∧ 0 ≤ day dt < 100
  ∧ 0 ≤ hour dt < 100 ∧ 0 ≤ minute dt < 100 ∧ 0 ≤ second dt < 100.


Definition is_digit (c : ascii) : bool :=
  (48 <=? nat_of_ascii c)%nat && (nat_of_ascii c <=? 57)%nat.

(** The shape [YYYY-MM-DDTHH:MM:SSZ]. *)
Definition iso8601_utc (ts : str) : bool :=
  match ts with
  | [y1; y2; y3; y4; d1; m1; m2; d2; a1; a2; t; h1; h2; c1; n1; n2; c2; s1; s2; z] =>
      forallb is_digit [y1; y2; y3; y4; m1; m2; a1; a2; h1; h2; n1; n2; s1; s2]
      && bool_decide ([d1; d2; t; c1; c2; z] = lit "--T::Z")
  | _ => false
  end.

(** * Properties *)

Example dedent_ex1 :
  normalize (lit "
    a
      b

    c
    ") = lit "a
  b

c
".
Proof. reflexivity. Qed.

(** ** Lines of a text *)

Section TextFacts.

Lemma is_nl_true c : is_nl c = true ↔ c = LF.
Proof. unfold is_nl. apply bool_decide_eq_true. Qed.

Lemma is_nl_false c : is_nl c = false ↔ c ≠ LF.
Proof. unfold is_nl. apply bool_decide_eq_false. Qed.

Lemma is_blank_not_nl c : is_blank c = true → c ≠ LF.
Proof.
  unfold is_blank. intros H ->. revert H. by vm_compute.
Qed.

Lemma split_nl_cons s : ∃ l ls, split_nl s = l :: ls.
Proof.
  induction s as [|c s (l & ls & IH)]; simpl; [by eauto|].
  destruct (is_nl c); [by eauto|]. rewrite IH. by eauto.
Qed.

Lemma split_nl_not_nil s : split_nl s ≠ [].
Proof. destruct (split_nl_cons s) as (l & ls & ->). done. Qed.

Lemma join_nl_cons l l' ls : join_nl (l :: l' :: ls) = l ++ LF :: join_nl (l' :: ls).
Proof. done. Qed.

Lemma join_split s : join_nl (split_nl s) = s.
Proof.
  induction s as [|c s IH]; [done|]. simpl.
  destruct (is_nl c) eqn:Hc.
  - apply is_nl_true in Hc as ->.
    destruct (split_nl_cons s) as (l & ls & Hs). rewrite Hs in *.
    rewrite join_nl_cons, IH. done.
  - destruct (split_nl_cons s) as (l & ls & Hs). rewrite Hs in *.
    destruct ls; simpl in *; by rewrite <- IH.
Qed.

Lemma split_nl_no_lf s : Forall (λ l, LF ∉ l) (split_nl s).
Proof.
  induction s as [|c s IH]; simpl.
  - repeat constructor. by intros ?%elem_of_nil.
  - destruct (is_nl c) eqn:Hc.
    + constructor; [by intros ?%elem_of_nil | done].
    + apply is_nl_false in Hc.
      destruct (split_nl_cons s) as (l & ls & Hs). rewrite Hs in *.
      inversion_clear IH as [|?? Hl Hls]. constructor; [|done].
      intros [<-|?]%elem_of_cons; done.
Qed.

Lemma split_nl_app_line l s :
  LF ∉ l → split_nl (l ++ LF :: s) = l :: split_nl s.
Proof.
  induction l as [|c l IH]; intros Hl; simpl.
  - done.
  - assert (is_nl c = false) as ->.
    { apply is_nl_false. intros ->. apply Hl. by left. }
    rewrite IH; [done|]. intros ?. apply Hl. by right.
Qed.

Lemma split_nl_line l : LF ∉ l → split_nl l = [l].
Proof.
  induction l as [|c l IH]; intros Hl; simpl; [done|].
  assert (is_nl c = false) as ->.
  { apply is_nl_false. intros ->. apply Hl. by left. }
  rewrite IH; [done|]. intros ?. apply Hl. by right.
Qed.

Lemma split_join ls :
  ls ≠ [] → Forall (λ l, LF ∉ l) ls → split_nl (join_nl ls) = ls.
Proof.
  induction ls as [|l ls IH]; [done|]. intros _ Hall.
  inversion_clear Hall as [|?? Hl Hls].
  destruct ls as [|l' ls].
  - simpl. by apply split_nl_line.
  - rewrite join_nl_cons, split_nl_app_line by done.
    f_equal. by apply IH.
Qed.

Lemma startswith_prefix s p : startswith s p = true ↔ p `prefix_of` s.
Proof.
  revert s. induction p as [|x p IH]; intros s; simpl.
  - split; [intros _; apply prefix_nil | done].
  - destruct s as [|y s]; simpl.
    + split; [done | intros H; by apply prefix_nil_not in H].
    + rewrite andb_true_iff, bool_decide_eq_true, IH. split.
      * intros [-> ?]. by apply prefix_cons.
      * intros H. split; [by eapply prefix_cons_inv_1 | by eapply prefix_cons_inv_2].
Qed.

Lemma startswith_app p s : startswith (p ++ s) p = true.
Proof. apply startswith_prefix. by apply prefix_app_r. Qed.

Lemma lstrip_nl_idemp s : lstrip_nl (lstrip_nl s) = lstrip_nl s.
Proof.
  induction s as [|c s IH]; [done|]. simpl.
  destruct (is_nl c) eqn:Hc; [done|]. simpl. by rewrite Hc.
Qed.

(** What [lstrip] removes is a run of newlines, and what is left does
    not start with one. *)
Lemma lstrip_nl_spec s :
  ∃ k, s = repeat LF k ++ lstrip_nl s ∧ head (lstrip_nl s) ≠ Some LF.
Proof.
  induction s as [|c s (k & IH1 & IH2)].
  - by exists 0%nat.
  - simpl. destruct (is_nl c) eqn:Hc.
    + apply is_nl_true in Hc as ->. exists (S k). simpl. by rewrite <- IH1.
    + apply is_nl_false in Hc. exists 0%nat. split; [done|]. simpl. congruence.
Qed.

End TextFacts.

(** ** textwrap.dedent *)

Section DedentFacts.

Lemma common_prefix_l a b : common_prefix a b `prefix_of` a.
Proof.
  revert b. induction a as [|x a IH]; intros [|y b]; simpl; try apply prefix_nil.
  destruct (decide (x = y)); [by apply prefix_cons | apply prefix_nil].
Qed.

Lemma common_prefix_r a b : common_prefix a b `prefix_of` b.
Proof.
  revert b. induction a as [|x a IH]; intros [|y b]; simpl; try apply prefix_nil.
  destruct (decide (x = y)) as [->|]; [by apply prefix_cons | apply prefix_nil].
Qed.

Lemma common_prefix_max k a b :
  k `prefix_of` a → k `prefix_of` b → k `prefix_of` common_prefix a b.
Proof.
  revert a b. induction k as [|z k IH]; intros a b Ha Hb; [apply prefix_nil|].
  destruct a as [|x a]; [by apply prefix_nil_not in Ha|].
  destruct b as [|y b]; [by apply prefix_nil_not in Hb|].
  pose proof (prefix_cons_inv_1 _ _ _ _ Ha) as ->.
  pose proof (prefix_cons_inv_1 _ _ _ _ Hb) as ->.
  simpl. rewrite decide_True by done. apply prefix_cons, IH.
  - by eapply prefix_cons_inv_2.
  - by eapply prefix_cons_inv_2.
Qed.

Lemma common_prefix_of_prefix a b : a `prefix_of` b → common_prefix a b = a.
Proof.
  intros H. apply (anti_symm prefix); [apply common_prefix_l|].
  by apply common_prefix_max.
Qed.

Lemma common_prefix_comm a b : common_prefix a b = common_prefix b a.
Proof.
  apply (anti_symm prefix); apply common_prefix_max;
    auto using common_prefix_l, common_prefix_r.
Qed.

Lemma common_prefix_app m a b :
  common_prefix (m ++ a) (m ++ b) = m ++ common_prefix a b.
Proof.
  induction m as [|x m IH]; [done|]. simpl. rewrite decide_True by done.
  by rewrite IH.
Qed.

(** The loop that looks for the first mismatch computes the common
    prefix whenever neither string ins a prefix of the other, which ins
    the only case in which [dedent] runs it. *)
Lemma cut_at_mismatch_common m i :
  ¬ m `prefix_of` i → ¬ i `prefix_of` m → cut_at_mismatch m i = common_prefix m i.
Proof.
  revert i. induction m as [|x m IH]; intros i Hm Hi.
  - destruct Hm. apply prefix_nil.
  - destruct i as [|y i]; [destruct Hi; apply prefix_nil|].
    simpl. destruct (decide (x = y)) as [->|]; [|done].
    f_equal. apply IH.
    + intros H. apply Hm. by apply prefix_cons.
    + intros H. apply Hi. by apply prefix_cons.
Qed.

Lemma update_margin_common m i :
  update_margin (Some m) i = Some (common_prefix m i).
Proof.
  unfold update_margin.
  destruct (startswith i m) eqn:H1.
  { apply startswith_prefix in H1. by rewrite common_prefix_of_prefix. }
  destruct (startswith m i) eqn:H2.
  { apply startswith_prefix in H2.
    by rewrite common_prefix_comm, common_prefix_of_prefix. }
  rewrite cut_at_mismatch_common; [done| |].
  - intros H%startswith_prefix. congruence.
  - intros H%startswith_prefix. congruence.
Qed.

Lemma fold_update_margin ins m :
  fold_left update_margin ins (Some m) = Some (fold_left common_prefix ins m).
Proof.
  revert m. induction ins as [|i ins IH]; intros m; [done|].
  cbn [fold_left]. rewrite update_margin_common. apply IH.
Qed.

Lemma find_margin_cons i ins :
  find_margin (i :: ins) = Some (fold_left common_prefix ins i).
Proof. unfold find_margin. cbn [fold_left update_margin]. apply fold_update_margin. Qed.

Lemma fold_common_prefix_head ins m : fold_left common_prefix ins m `prefix_of` m.
Proof.
  revert m. induction ins as [|i ins IH]; intros m; simpl; [done|].
  etrans; [apply IH | apply common_prefix_l].
Qed.

Lemma fold_common_prefix_elem ins m i :
  i ∈ ins → fold_left common_prefix ins m `prefix_of` i.
Proof.
  revert m. induction ins as [|j ins IH]; intros m Hi; simpl.
  - by apply elem_of_nil in Hi.
  - apply elem_of_cons in Hi as [->|Hi]; [|by apply IH].
    etrans; [apply fold_common_prefix_head | apply common_prefix_r].
Qed.

Lemma fold_common_prefix_max k ins m :
  k `prefix_of` m → (∀ i, i ∈ ins → k `prefix_of` i) →
  k `prefix_of` fold_left common_prefix ins m.
Proof.
  revert m. induction ins as [|j ins IH]; intros m Hm Hins; simpl; [done|].
  apply IH.
  - apply common_prefix_max; [done|]. apply Hins. by left.
  - intros i Hi. apply Hins. by right.
Qed.

Lemma fold_common_prefix_app m ins i :
  fold_left common_prefix (map (app m) ins) (m ++ i)
  = m ++ fold_left common_prefix ins i.
Proof.
  revert i. induction ins as [|j ins IH]; intros i; simpl; [done|].
  by rewrite common_prefix_app, IH.
Qed.

Lemma find_margin_None ins : find_margin ins = None ↔ ins = [].
Proof.
  destruct ins as [|i ins]; [done|]. by rewrite find_margin_cons.
Qed.

Lemma find_margin_prefix ins m i :
  find_margin ins = Some m → i ∈ ins → m `prefix_of` i.
Proof.
  destruct ins as [|j ins]; [done|]. rewrite find_margin_cons.
  intros [= <-] [->|Hi]%elem_of_cons.
  - apply fold_common_prefix_head.
  - by apply fold_common_prefix_elem.
Qed.

Lemma find_margin_max ins m k :
  find_margin ins = Some m → (∀ i, i ∈ ins → k `prefix_of` i) → k `prefix_of` m.
Proof.
  destruct ins as [|j ins]; [done|]. rewrite find_margin_cons.
  intros [= <-] Hk. apply fold_common_prefix_max.
  - apply Hk. by left.
  - intros i Hi. apply Hk. by right.
Qed.

Lemma leading_blanks_prefix l : leading_blanks l `prefix_of` l.
Proof.
  induction l as [|c l IH]; simpl; [done|].
  destruct (is_blank c); [by apply prefix_cons | apply prefix_nil].
Qed.

Lemma leading_blanks_blank l : Forall (λ c, is_blank c = true) (leading_blanks l).
Proof.
  induction l as [|c l IH]; simpl; [done|].
  destruct (is_blank c) eqn:Hc; [by constructor | done].
Qed.

Lemma leading_blanks_max k l :
  Forall (λ c, is_blank c = true) k → k `prefix_of` l → k `prefix_of` leading_blanks l.
Proof.
  revert l. induction k as [|x k IH]; intros l Hk Hl; [apply prefix_nil|].
  destruct l as [|y l]; [by apply prefix_nil_not in Hl|].
  pose proof (prefix_cons_inv_1 _ _ _ _ Hl) as ->.
  inversion_clear Hk as [|?? Hy Hk']. simpl. rewrite Hy.
  apply prefix_cons, IH; [done|]. by eapply prefix_cons_inv_2.
Qed.

Lemma leading_blanks_app k l :
  Forall (λ c, is_blank c = true) k → leading_blanks (k ++ l) = k ++ leading_blanks l.
Proof.
  induction 1 as [|c k Hc _ IH]; [done|]. simpl. by rewrite Hc, IH.
Qed.

Lemma blank_line_app k l : blank_line (k ++ l) = blank_line k && blank_line l.
Proof. apply forallb_app. Qed.

Lemma blank_line_Forall l : blank_line l = true ↔ Forall (λ c, is_blank c = true) l.
Proof.
  unfold blank_line. induction l as [|c l IH]; simpl.
  - split; [constructor | done].
  - by rewrite andb_true_iff, Forall_cons, IH.
Qed.

Lemma whitespace_only_blank l :
  (if whitespace_only l then [] else l) = (if blank_line l then [] else l).
Proof. destruct l as [|c l]; [done|]. done. Qed.

Lemma line_indent_blank l : blank_line l = true → line_indent l = None.
Proof. unfold line_indent, blank_line. by intros ->. Qed.

Lemma line_indent_not_blank l :
  blank_line l = false → line_indent l = Some (leading_blanks l).
Proof. unfold line_indent, blank_line. by intros ->. Qed.

Lemma blank_line_no_lf l : blank_line l = true → LF ∉ l.
Proof.
  rewrite blank_line_Forall, Forall_forall. intros H Hin.
  by apply (is_blank_not_nl LF (H _ Hin)).
Qed.

(** Emptying the lines of blanks changes no indent that is found. *)
Lemma omap_line_indent_norm ls :
  omap line_indent (map (λ l, if whitespace_only l then [] else l) ls)
  = omap line_indent ls.
Proof.
  induction ls as [|l ls IH]; [done|]. unfold omap in *. simpl. rewrite IH.
  rewrite whitespace_only_blank.
  destruct (blank_line l) eqn:Hl; [|done].
  by rewrite (line_indent_blank l Hl).
Qed.

Lemma Forall_no_lf_map (f : str → str) ls :
  (∀ l, LF ∉ l → LF ∉ f l) →
  Forall (λ l, LF ∉ l) ls → Forall (λ l, LF ∉ l) (map f ls).
Proof.
  intros Hf H. apply Forall_map. eapply Forall_impl; [done|]. simpl. auto.
Qed.

Lemma split_join_map (f : str → str) text :
  (∀ l, LF ∉ l → LF ∉ f l) →
  split_nl (join_nl (map f (split_nl text))) = map f (split_nl text).
Proof.
  intros Hf. apply split_join.
  - destruct (split_nl_cons text) as (l & ls & ->). done.
  - apply Forall_no_lf_map; [done|]. apply split_nl_no_lf.
Qed.

Lemma drop_no_lf n (l : str) : LF ∉ l → LF ∉ drop n l.
Proof.
  intros H Hin. apply H. rewrite <- (take_drop n l).
  apply elem_of_app. by right.
Qed.

Lemma margin_line_prefix text m l :
  find_margin (omap line_indent (split_nl text)) = Some m →
  l ∈ split_nl text → blank_line l = false → m `prefix_of` l.
Proof.
  intros Hm Hl Hb. etrans; [|apply leading_blanks_prefix].
  eapply find_margin_prefix; [done|].
  apply list_elem_of_omap. exists l. split; [done|].
  by apply line_indent_not_blank.
Qed.

(** The lines of [dedent text]: blank lines are emptied, the others
    lose the margin. *)
Lemma dedent_lines text :
  split_nl (dedent text) = map (dedent_line (text_margin text)) (split_nl text).
Proof.
  unfold dedent, text_margin, findall_leading_whitespace, sub_whitespace_only.
  set (norm := λ l : str, if whitespace_only l then [] else l).
  assert (Hnorm : ∀ l, LF ∉ l → LF ∉ norm l).
  { intros l Hl. unfold norm. destruct (whitespace_only l); [|done].
    by intros ?%elem_of_nil. }
  rewrite (split_join_map norm) by done.
  unfold norm at 1 3. rewrite omap_line_indent_norm.
  destruct (find_margin (omap line_indent (split_nl text))) as [[|c m]|] eqn:Hm;
    cbn [default].
  - rewrite (split_join_map norm) by done. apply map_ext. intros l.
    unfold norm, dedent_line. rewrite whitespace_only_blank.
    by destruct (blank_line l).
  - unfold sub_margin. rewrite (split_join_map norm) by done.
    rewrite map_map.
    rewrite (split_join_map (λ l, if startswith (norm l) (c :: m)
                                  then drop (length (c :: m)) (norm l) else norm l)).
    + apply map_ext_in. intros l Hl%list_elem_of_In.
      unfold norm, dedent_line. rewrite whitespace_only_blank.
      destruct (blank_line l) eqn:Hb; [done|].
      assert (startswith l (c :: m) = true) as ->; [|done].
      apply startswith_prefix. by eapply margin_line_prefix.
    + intros l Hl. destruct (startswith (norm l) (c :: m));
        [apply drop_no_lf|]; by apply Hnorm.
  - rewrite (split_join_map norm) by done. apply map_ext. intros l.
    unfold norm, dedent_line. rewrite whitespace_only_blank.
    by destruct (blank_line l).
Qed.

Lemma dedent_join text :
  dedent text = join_nl (map (dedent_line (text_margin text)) (split_nl text)).
Proof. by rewrite <- dedent_lines, join_split. Qed.

Lemma text_margin_blank text : Forall (λ c, is_blank c = true) (text_margin text).
Proof.
  unfold text_margin.
  destruct (omap line_indent (split_nl text)) as [|i ins] eqn:Hi.
  - by rewrite (proj2 (find_margin_None _) eq_refl).
  - rewrite find_margin_cons. cbn [default].
    assert (i ∈ omap line_indent (split_nl text)) as Hin by (rewrite Hi; by left).
    apply list_elem_of_omap in Hin as (l & _ & Hl).
    unfold line_indent in Hl. destruct (forallb is_blank l); [done|].
    injection Hl as <-.
    destruct (fold_common_prefix_head ins (leading_blanks l)) as [k Hk].
    pose proof (leading_blanks_blank l) as Hb. rewrite Hk in Hb.
    by apply Forall_app in Hb as [? _].
Qed.

Lemma text_margin_prefix text l :
  l ∈ split_nl text → blank_line l = false → text_margin text `prefix_of` l.
Proof.
  intros Hl Hb. unfold text_margin.
  destruct (find_margin _) as [m|] eqn:Hm; cbn [default]; [|apply prefix_nil].
  by eapply margin_line_prefix.
Qed.

(** When some line is not blank, the margin of [dedent] is the longest
    prefix of blanks common to the lines that are not blank. *)
Lemma text_margin_is_margin text :
  (∃ l, l ∈ split_nl text ∧ blank_line l = false) →
  is_margin (text_margin text) (split_nl text).
Proof.
  intros (l0 & Hl0 & Hb0). split; [apply text_margin_blank|]. split.
  - intros l. apply text_margin_prefix.
  - intros m' Hm' Hall. unfold text_margin.
    destruct (find_margin _) as [m|] eqn:Hm; cbn [default].
    + eapply find_margin_max; [done|].
      intros i (l & Hl & Hi)%list_elem_of_omap.
      unfold line_indent in Hi. destruct (forallb is_blank l) eqn:Hb; [done|].
      injection Hi as <-. apply leading_blanks_max; [done|]. by apply Hall.
    + apply find_margin_None in Hm.
      assert (leading_blanks l0 ∈ omap line_indent (split_nl text)) as Hin.
      { apply list_elem_of_omap. exists l0. split; [done|].
        by apply line_indent_not_blank. }
      rewrite Hm in Hin. by apply elem_of_nil in Hin.
Qed.

Lemma text_margin_all_blank text :
  (∀ l, l ∈ split_nl text → blank_line l = true) → text_margin text = [].
Proof.
  intros Hall. unfold text_margin.
  destruct (omap line_indent (split_nl text)) as [|i ins] eqn:Hi.
  - by rewrite (proj2 (find_margin_None _) eq_refl).
  - assert (i ∈ omap line_indent (split_nl text)) as Hin by (rewrite Hi; by left).
    apply list_elem_of_omap in Hin as (l & Hl & Hli).
    by rewrite (line_indent_blank l (Hall l Hl)) in Hli.
Qed.

(** A text whose lines are empty or not blank, and without a margin, is
    what [dedent] returns for it. *)
Lemma dedent_fixed s :
  (∀ l, l ∈ split_nl s → l = [] ∨ blank_line l = false) →
  text_margin s = [] → dedent s = s.
Proof.
  intros Hl Hm. rewrite dedent_join, Hm.
  rewrite <- (join_split s) at 2. f_equal.
  rewrite <- (map_id (split_nl s)) at 2.
  apply map_ext_in. intros l Hin%list_elem_of_In. unfold dedent_line.
  destruct (Hl l Hin) as [->| ->]; [by destruct (blank_line [])|done].
Qed.

Lemma dedent_line_shape m l :
  Forall (λ c, is_blank c = true) m →
  (blank_line l = false → m `prefix_of` l) →
  (blank_line l = true ∧ dedent_line m l = [])
  ∨ (blank_line l = false ∧ l = m ++ dedent_line m l
     ∧ blank_line (dedent_line m l) = false).
Proof.
  intros Hm Hp. unfold dedent_line. destruct (blank_line l) eqn:Hb; [by left|].
  right. destruct (Hp eq_refl) as [r ->]. rewrite drop_app_length.
  split; [done|]. split; [done|].
  rewrite blank_line_app in Hb. apply blank_line_Forall in Hm. by rewrite Hm in Hb.
Qed.

Lemma indents_dedent m ls :
  Forall (λ c, is_blank c = true) m →
  (∀ l, l ∈ ls → blank_line l = false → m `prefix_of` l) →
  omap line_indent ls = map (app m) (omap line_indent (map (dedent_line m) ls)).
Proof.
  intros Hm. induction ls as [|l ls IH]; intros Hp; [done|].
  unfold omap in *. cbn [map list_omap].
  rewrite IH by (intros; apply Hp; [by right | done]).
  destruct (dedent_line_shape m l Hm) as [[Hb Hd]|(Hb & Hl & Hd)].
  { apply Hp. by left. }
  - rewrite Hd, (line_indent_blank l Hb), (line_indent_blank [] eq_refl). done.
  - rewrite (line_indent_not_blank _ Hd), (line_indent_not_blank _ Hb).
    cbn [map]. f_equal. rewrite Hl at 1. by apply leading_blanks_app.
Qed.

(** [dedent] leaves no margin behind. *)
Lemma text_margin_dedent text : text_margin (dedent text) = [].
Proof.
  unfold text_margin at 1. rewrite dedent_lines.
  pose proof (indents_dedent (text_margin text) (split_nl text)
                (text_margin_blank text) (text_margin_prefix text)) as Hi.
  destruct (omap line_indent (map _ (split_nl text))) as [|i ins] eqn:Hd.
  - by rewrite (proj2 (find_margin_None _) eq_refl).
  - rewrite find_margin_cons. cbn [default].
    assert (find_margin (omap line_indent (split_nl text))
            = Some (text_margin text ++ fold_left common_prefix ins i)) as Hf.
    { rewrite Hi. cbn [map]. by rewrite find_margin_cons, fold_common_prefix_app. }
    assert (text_margin text
            = text_margin text ++ fold_left common_prefix ins i) as Heq.
    { unfold text_margin at 1. by rewrite Hf. }
    rewrite <- (app_nil_r (text_margin text)) in Heq at 1.
    by apply app_inv_head in Heq.
Qed.

Lemma dedent_lines_shape text l :
  l ∈ split_nl (dedent text) → l = [] ∨ blank_line l = false.
Proof.
  rewrite dedent_lines. intros (l0 & -> & Hl0)%list_elem_of_fmap.
  destruct (dedent_line_shape (text_margin text) l0 (text_margin_blank text))
    as [[_ ->]|(_ & _ & ?)]; auto.
  by apply text_margin_prefix.
Qed.

Lemma split_nl_repeat k s : split_nl (repeat LF k ++ s) = repeat [] k ++ split_nl s.
Proof.
  induction k as [|k IH]; [done|]. simpl. by rewrite IH.
Qed.

Lemma omap_line_indent_repeat k ls :
  omap line_indent (repeat [] k ++ ls) = omap line_indent ls.
Proof.
  induction k as [|k IH]; [done|]. unfold omap in *. simpl. by rewrite IH.
Qed.

(** [dedent] and [lstrip] are each idempotent, and stripping the leading
    newlines of a dedented text keeps it dedented. *)
Lemma normalize_fixed content : dedent (normalize content) = normalize content.
Proof.
  unfold normalize.
  destruct (lstrip_nl_spec (dedent content)) as (k & Hk & _).
  apply dedent_fixed.
  - intros l Hl. apply (dedent_lines_shape content).
    rewrite Hk, split_nl_repeat. apply elem_of_app. by right.
  - pose proof (text_margin_dedent content) as Hm.
    unfold text_margin in *. rewrite Hk, split_nl_repeat in Hm.
    by rewrite omap_line_indent_repeat in Hm.
Qed.

End DedentFacts.

(** ** The monad *)

Section MonadFacts.

Context {A B : Type}.

Lemma bind_ok (c : M A) (k : A → M B) w a w' :
  c w = (Ok a, w') → bind c k w = k a w'.
Proof. unfold bind. by intros ->. Qed.

Lemma bind_raise (c : M A) (k : A → M B) w e w' :
  c w = (Raise e, w') → bind c k w = (Raise e, w').
Proof. unfold bind. by intros ->. Qed.

Lemma try_ok (c : M A) h w a w' :
  c w = (Ok a, w') → try_except c h w = (Ok a, w').
Proof. unfold try_except. by intros ->. Qed.

Lemma try_raise (c : M A) h w e w' :
  c w = (Raise e, w') → try_except c h w = h e w'.
Proof. unfold try_except. by intros ->. Qed.

(** A sequence returns only if both halves do. *)
Lemma bind_ok_inv (c : M A) (k : A → M B) w b w' :
  bind c k w = (Ok b, w') → ∃ a w1, c w = (Ok a, w1) ∧ k a w1 = (Ok b, w').
Proof.
  unfold bind. destruct (c w) as [[a|e] w1]; [by eauto | done].
Qed.

End MonadFacts.

(** A run that is seen to return did return in the world it leaves. *)
Lemma run_ok {X} (c : M X) w x : (c w).1 = Ok x → c w = (Ok x, (c w).2).
Proof. destruct (c w) as [r w']. cbn. by intros ->. Qed.

Lemma set_fs_id w : set_fs (λ m, m) w = w.
Proof. by destruct w. Qed.

(** ** Directories *)

Section MkdirFacts.

Variable E : env.

Lemma mkdir_p_unfold p :
  mkdir_p E p =
  try_except (os_mkdir E p) (λ e,
    match e with
    | FileNotFoundError _ =>
        match p with
        | [] => raise e
        | _ :: q =>
            mkdir_p E q >>
            try_except (os_mkdir E p) (λ e',
              match e' with
              | FileNotFoundError _ => raise e'
              | _ => unless_is_dir p e'
              end)
        end
    | _ => unless_is_dir p e
    end).
Proof. by destruct p. Qed.

Lemma node_at_cons m n q : node_at m (n :: q) = m !! (n :: q).
Proof. done. Qed.

Lemma node_at_insert_ne m k v p :
  k ≠ p → k ≠ [] → node_at (<[k := v]> m) p = node_at m p.
Proof.
  intros Hne Hk. destruct p; [done|]. simpl. by rewrite lookup_insert_ne.
Qed.

Lemma node_at_insert_eq m k v : k ≠ [] → node_at (<[k := v]> m) k = Some v.
Proof. destruct k; [done|]. intros _. simpl. by rewrite lookup_insert_eq. Qed.

Lemma suffix_cons_not_self {X} (x : X) (l : list X) : ¬ x :: l `suffix_of` l.
Proof. intros H%suffix_length. simpl in H. lia. Qed.

Lemma mkdirs_cons perm n q m :
  mkdirs perm (n :: q) m
  = match m !! (n :: q) with
    | Some _ => m
    | None => <[n :: q := Dir perm]> (mkdirs perm q m)
    end.
Proof. done. Qed.

Lemma mkdirs_present perm p m : is_Some (node_at m p) → mkdirs perm p m = m.
Proof. destruct p as [|n q]; [done|]. cbn [mkdirs node_at]. by intros [x ->]. Qed.

Lemma mkdirs_lookup_other perm p m k :
  ¬ k `suffix_of` p → mkdirs perm p m !! k = m !! k.
Proof.
  induction p as [|n q IH]; intros Hk; [done|]. cbn [mkdirs].
  destruct (m !! (n :: q)); [done|].
  rewrite lookup_insert_ne.
  - apply IH. intros H. apply Hk. by apply suffix_cons_r.
  - intros <-. by apply Hk.
Qed.

Lemma mkdirs_keeps perm p m k x : m !! k = Some x → mkdirs perm p m !! k = Some x.
Proof.
  induction p as [|n q IH]; intros Hk; [done|]. cbn [mkdirs].
  destruct (m !! (n :: q)) eqn:Hp; [done|].
  rewrite lookup_insert_ne; [by apply IH | congruence].
Qed.

Lemma mkdirs_only_dirs perm p m k :
  mkdirs perm p m !! k = m !! k
  ∨ (m !! k = None ∧ mkdirs perm p m !! k = Some (Dir perm)).
Proof.
  induction p as [|n q IH]; [by left|]. cbn [mkdirs].
  destruct (m !! (n :: q)) eqn:Hp; [by left|].
  destruct (decide (n :: q = k)) as [<-|Hne].
  - right. by rewrite lookup_insert_eq.
  - by rewrite lookup_insert_ne.
Qed.

Lemma mkdirs_data perm p m k : data_at (mkdirs perm p m) k = data_at m k.
Proof.
  unfold data_at. destruct k as [|n k]; [done|]. cbn [node_at].
  destruct (mkdirs_only_dirs perm p m (n :: k)) as [->|[-> ->]]; done.
Qed.

Lemma mkdirs_is_dir perm p m :
  (∀ q, q `suffix_of` p → is_file m q = false) → is_dir (mkdirs perm p m) p = true.
Proof.
  intros Hf. destruct p as [|n q]; [done|]. unfold is_dir. cbn [mkdirs node_at].
  destruct (m !! (n :: q)) as [[?|??]|] eqn:Hp.
  - by rewrite Hp.
  - specialize (Hf (n :: q) (reflexivity _)). unfold is_file in Hf.
    cbn [node_at] in Hf. by rewrite Hp in Hf.
  - by rewrite lookup_insert_eq.
Qed.

(** With no refusal from the system and no regular file on the way,
    [mkdir_p] returns and the file system is [mkdirs]. *)
Lemma mkdir_p_ok p w :
  (∀ q, fault E (SysMkdir q) = None) →
  (∀ q, q `suffix_of` p → is_file (fs w) q = false) →
  mkdir_p E p w = (Ok tt, set_fs (mkdirs (new_dir_perm E) p) w).
Proof.
  intros Hfault. revert w. induction p as [|n q IH]; intros w Hfile.
  - rewrite mkdir_p_unfold. unfold try_except, os_mkdir. rewrite Hfault. simpl.
    unfold unless_is_dir. simpl. by destruct w.
  - rewrite mkdir_p_unfold. unfold set_fs. rewrite mkdirs_cons.
    unfold try_except at 1, os_mkdir at 1.
    rewrite Hfault, node_at_cons.
    pose proof (Hfile (n :: q) (reflexivity _)) as Hp.
    unfold is_file in Hp. rewrite node_at_cons in Hp.
    destruct (fs w !! (n :: q)) as [[perm|perm d]|] eqn:Hn; [| done |].
    { unfold unless_is_dir, is_dir. rewrite node_at_cons, Hn. by destruct w. }
    pose proof (Hfile q (suffix_cons_r _ _ _ (reflexivity _))) as Hq.
    unfold is_file in Hq. unfold parent; cbn [tail].
    destruct (node_at (fs w) q) as [[perm|perm d]|] eqn:Hnq; [| done |].
    { rewrite (mkdirs_present _ q) by (by rewrite Hnq). done. }
    rewrite (bind_ok _ _ _ _ _ (IH w (λ k Hk, Hfile k (suffix_cons_r _ _ _ Hk)))).
    unfold try_except, os_mkdir. rewrite Hfault, node_at_cons. cbn [set_fs fs].
    rewrite mkdirs_lookup_other by apply suffix_cons_not_self.
    rewrite Hn. unfold parent; cbn [tail].
    pose proof (mkdirs_is_dir (new_dir_perm E) q (fs w)
                  (λ k Hk, Hfile k (suffix_cons_r _ _ _ Hk))) as Hd.
    unfold is_dir in Hd.
    destruct (node_at (mkdirs (new_dir_perm E) q (fs w)) q) as [[?|??]|]; done.
Qed.

End MkdirFacts.

(** ** The logger *)

Section LogFacts.

Variable E : env.

Lemma is_digit_digit n : is_digit (digit n) = true.
Proof.
  unfold is_digit, digit.
  assert (0 ≤ n mod 10 < 10) as Hn by (apply Z.mod_pos_bound; lia).
  rewrite nat_ascii_embedding by lia.
  apply andb_true_iff. split; apply Nat.leb_le; lia.
Qed.

Lemma strftime_iso8601 dt : iso8601_utc (strftime dt) = true.
Proof.
  unfold strftime, pad4, pad2. cbn [app lit list_ascii_of_string iso8601_utc forallb].
  rewrite !is_digit_digit. done.
Qed.

Lemma open_for_write_ok sc p m w :
  fault E sc = None → fs w = m → p ≠ [] →
  is_dir m p = false → is_dir m (parent p) = true →
  open_for_write E sc p w = inr (perm_for_write E m p).
Proof.
  intros Hf <- Hp Hnd Hd. unfold open_for_write, perm_for_write. rewrite Hf.
  unfold is_dir in *.
  destruct (node_at (fs w) p) as [[?|??]|]; [done..|].
  by destruct (node_at (fs w) (parent p)) as [[?|??]|].
Qed.

Lemma node_at_mkdirs_other perm q m p :
  ¬ p `suffix_of` q → node_at (mkdirs perm q m) p = node_at m p.
Proof.
  intros H. destruct p as [|n p]; [done|]. cbn [node_at].
  by apply mkdirs_lookup_other.
Qed.

Lemma not_suffix_parent (p : path) : p ≠ [] → ¬ p `suffix_of` parent p.
Proof.
  destruct p as [|n q]; [done|]. intros _. apply suffix_cons_not_self.
Qed.

Lemma append_log_ok L line w :
  (∀ q, fault E (SysMkdir q) = None) →
  fault E (SysOpenAppend L) = None →
  L ≠ [] →
  (∀ q, q `suffix_of` parent L → is_file (fs w) q = false) →
  is_dir (fs w) L = false →
  _append_log E L line w = (Ok tt, set_fs (appended E L line) w).
Proof.
  intros Hmk Hap HL Hfile Hnd. unfold _append_log.
  rewrite (bind_ok _ _ _ _ _ (mkdir_p_ok E (parent L) w Hmk Hfile)).
  unfold append_text.
  pose proof (not_suffix_parent L HL) as Hns.
  rewrite (open_for_write_ok _ L (mkdirs (new_dir_perm E) (parent L) (fs w))); try done.
  - unfold appended, set_fs, perm_for_write. cbn [fs stdout stderr ticks].
    rewrite mkdirs_data, node_at_mkdirs_other by done. done.
  - unfold is_dir in *. cbn [set_fs fs]. by rewrite node_at_mkdirs_other.
  - cbn [set_fs fs]. by apply mkdirs_is_dir.
Qed.

Lemma data_at_insert_eq m k perm d : k ≠ [] → data_at (<[k := File perm d]> m) k = Some d.
Proof. intros Hk. unfold data_at. by rewrite node_at_insert_eq. Qed.

Lemma data_at_insert_ne m k v p :
  k ≠ p → k ≠ [] → data_at (<[k := v]> m) p = data_at m p.
Proof. intros ??. unfold data_at. by rewrite node_at_insert_ne. Qed.

Lemma appended_data L line m :
  L ≠ [] → data_at (appended E L line m) L = Some (default [] (data_at m L) ++ line).
Proof. intros HL. unfold appended. by rewrite data_at_insert_eq. Qed.

Lemma appended_data_other L line m k :
  L ≠ [] → k ≠ L → data_at (appended E L line m) k = data_at m k.
Proof.
  intros HL Hk. unfold appended. rewrite data_at_insert_ne by done.
  apply mkdirs_data.
Qed.

Lemma appended_is_dir L line m :
  L ≠ [] → (∀ q, q `suffix_of` parent L → is_file m q = false) →
  is_dir (appended E L line m) (parent L) = true.
Proof.
  intros HL Hf. unfold appended, is_dir.
  rewrite node_at_insert_ne;
    [|intros Heq; apply (not_suffix_parent _ HL); by rewrite <- Heq|done].
  by apply mkdirs_is_dir.
Qed.

Lemma log_info_ok message w :
  (∀ q, fault E (SysMkdir q) = None) →
  fault E (SysOpenAppend (ACTIONS_LOG E)) = None →
  (∀ q, q `suffix_of` ROOT_DIR E → is_file (fs w) q = false) →
  is_dir (fs w) (ACTIONS_LOG E) = false →
  let line := info_line (strftime (clock E (ticks w))) message in
  log_info E message w
  = (Ok tt, World (appended E (ACTIONS_LOG E) line (fs w)) (stdout w ++ line)
                  (stderr w) (S (ticks w))).
Proof.
  intros Hmk Hap Hfile Hnd line. unfold log_info, bind at 1, timestamp_utc.
  erewrite bind_ok; [|by apply append_log_ok]. done.
Qed.

Lemma log_error_ok message w :
  (∀ q, fault E (SysMkdir q) = None) →
  fault E (SysOpenAppend (ERRORS_LOG E)) = None →
  (∀ q, q `suffix_of` ROOT_DIR E → is_file (fs w) q = false) →
  is_dir (fs w) (ERRORS_LOG E) = false →
  let line := error_line E (strftime (clock E (ticks w))) message in
  log_error E message w
  = (Ok tt, World (appended E (ERRORS_LOG E) line (fs w)) (stdout w)
                  (stderr w ++ line) (S (ticks w))).
Proof.
  intros Hmk Hap Hfile Hnd line. unfold log_error, bind at 1, timestamp_utc.
  erewrite bind_ok; [|by apply append_log_ok]. done.
Qed.

End LogFacts.

Section LoggerSpec.

Variable E : env.

Lemma suffix_of_cons_inv {X} (q : list X) x l :
  q `suffix_of` x :: l → q = x :: l ∨ q `suffix_of` l.
Proof.
  intros [[|y k] Hk]; [by left|]. right. exists k. by injection Hk.
Qed.

Lemma not_suffix_check (a b : path) :
  bool_decide (a `suffix_of` b) = false → ¬ a `suffix_of` b.
Proof. apply bool_decide_eq_false_1. Qed.

Lemma clear_way_spec m p :
  clear_way m p = true ↔ ∀ q, q `suffix_of` p → is_file m q = false.
Proof.
  induction p as [|n p IH]; cbn [clear_way].
  - rewrite andb_true_r, negb_true_iff. split.
    + by intros H q ->%suffix_nil_inv.
    + intros H. by apply H.
  - rewrite andb_true_iff, negb_true_iff, IH. split.
    + intros [H1 H2] q [->|Hq]%suffix_of_cons_inv; auto.
    + intros H. split; [by apply H|]. intros q Hq. by apply H, suffix_cons_r.
Qed.

Lemma error_line_eq ts message :
  error_line E ts message
  = ts ++ lit " [ERROR] [setup_stack.py]: " ++ message
    ++ lit " (see " ++ path_str (ERRORS_LOG E) ++ lit " for details)" ++ [LF].
Proof. unfold error_line. by rewrite (app_assoc (lit " ")). Qed.

(** C6. When the system refuses nothing to the logger and no regular
    file stands in the way of the log directory, [log_info] appends the
    line [<ts> [INFO] [setup_stack.py]: <message>] (newline-terminated,
    [ts] of the shape YYYY-MM-DDTHH:MM:SSZ read from the UTC clock) to
    the actions log and echoes the same line on standard output, and
    [log_error] appends the line of level ERROR, with the suffix naming
    the errors log, to the errors log and echoes it on standard error;
    both leave the parent directory of the log in place, creating it
    when it is missing. *)
Theorem log_info_log_error_append_and_echo message w :
  (∀ q, fault E (SysMkdir q) = None) →
  fault E (SysOpenAppend (ACTIONS_LOG E)) = None →
  fault E (SysOpenAppend (ERRORS_LOG E)) = None →
  clear_way (fs w) (ROOT_DIR E) = true →
  is_dir (fs w) (ACTIONS_LOG E) = false →
  is_dir (fs w) (ERRORS_LOG E) = false →
  let ts := strftime (clock E (ticks w)) in
  let info := ts ++ lit " [INFO] [setup_stack.py]: " ++ message ++ [LF] in
  let error := ts ++ lit " [ERROR] [setup_stack.py]: " ++ message
               ++ lit " (see " ++ path_str (ERRORS_LOG E) ++ lit " for details)"
               ++ [LF] in
  iso8601_utc ts = true
  ∧ (∃ w', log_info E message w = (Ok tt, w')
       ∧ data_at (fs w') (ACTIONS_LOG E)
         = Some (default [] (data_at (fs w) (ACTIONS_LOG E)) ++ info)
       ∧ stdout w' = stdout w ++ info
       ∧ stderr w' = stderr w
       ∧ is_dir (fs w') (parent (ACTIONS_LOG E)) = true)
  ∧ (∃ w', log_error E message w = (Ok tt, w')
       ∧ data_at (fs w') (ERRORS_LOG E)
         = Some (default [] (data_at (fs w) (ERRORS_LOG E)) ++ error)
       ∧ stderr w' = stderr w ++ error
       ∧ stdout w' = stdout w
       ∧ is_dir (fs w') (parent (ERRORS_LOG E)) = true).
Proof.
  intros Hmk Ha He Hway Hda Hde ts info error.
  pose proof (proj1 (clear_way_spec _ _) Hway) as Hfile.
  split; [apply strftime_iso8601|]. split.
  - eexists. split; [by apply log_info_ok|]. cbn [fs stdout stderr].
    split; [by apply appended_data|]. split; [done|]. split; [done|].
    by apply appended_is_dir.
  - eexists. split; [by apply log_error_ok|]. cbn [fs stdout stderr].
    rewrite error_line_eq.
    split; [by apply appended_data|]. split; [done|]. split; [done|].
    by apply appended_is_dir.
Qed.

End LoggerSpec.

Lemma log_info_log_error_append_and_echo_witness :
  let ts := lit "2025-11-03T12:00:00Z" in
  (∃ w', log_info sample_env (lit "hello") empty_world = (Ok tt, w')
     ∧ data_at (fs w') (ACTIONS_LOG sample_env)
       = Some (ts ++ lit " [INFO] [setup_stack.py]: hello" ++ [LF])
     ∧ is_dir (fs w') (ROOT_DIR sample_env) = true)
  ∧ (∃ w', log_error sample_env (lit "hello") empty_world = (Ok tt, w')
     ∧ stderr w'
       = ts ++ lit " [ERROR] [setup_stack.py]: hello (see /srv/gen/create_stack_errors.log for details)"
         ++ [LF]).
Proof.
  intros ts.
  destruct (log_info_log_error_append_and_echo sample_env (lit "hello") empty_world)
    as (_ & (w1 & H1 & H2 & _ & _ & H3) & (w2 & H4 & _ & H5 & _));
    try reflexivity.
  split.
  - exists w1. split; [exact H1|]. split; [exact H2 | exact H3].
  - exists w2. split; [exact H4 | exact H5].
Defined.

(** ** One record, one line *)

Section OneLine.

Variable E : env.











End OneLine.



(** ** Permissions *)

Section ChmodFacts.

Variable E : env.

Lemma chmod_x_bits perm i :
  0 ≤ i →
  Z.testbit (chmod_x perm) i
  = (i <? 12) && (Z.testbit perm i || (i =? 6) || (i =? 3) || (i =? 0)).
Proof.
  intros Hi. unfold chmod_x, S_IFREG, S_IXUSR, S_IXGRP, S_IXOTH.
  rewrite Z.land_spec, !Z.lor_spec.
  change 4095 with (Z.ones 12). rewrite Z.testbit_ones_nonneg by lia.
  change 32768 with (2 ^ 15). change 64 with (2 ^ 6).
  change 8 with (2 ^ 3). change 1 with (2 ^ 0).
  rewrite !Z.pow2_bits_eqb by lia.
  rewrite (Z.eqb_sym 6), (Z.eqb_sym 3), (Z.eqb_sym 0).
  destruct (Z.ltb_spec i 12), (Z.eqb_spec 15 i); try lia;
    rewrite ?andb_false_r, ?andb_true_r, ?orb_false_l; done.
Qed.

Lemma chmod_x_lor perm : 0 ≤ perm < 4096 → chmod_x perm = Z.lor perm 73.
Proof.
  intros Hp. apply Z.bits_inj'. intros i Hi. rewrite chmod_x_bits by done.
  rewrite Z.lor_spec. change 73 with (Z.lor (Z.lor (2 ^ 6) (2 ^ 3)) (2 ^ 0)).
  rewrite !Z.lor_spec, !Z.pow2_bits_eqb by lia.
  rewrite (Z.eqb_sym 6), (Z.eqb_sym 3), (Z.eqb_sym 0).
  destruct (Z.ltb_spec i 12) as [Hlt|Hge]; cbn [andb].
  - by rewrite !orb_assoc.
  - assert (Z.testbit perm i = false) as ->.
    { destruct (decide (perm = 0)) as [->|]; [apply Z.bits_0|].
      apply Z.bits_above_log2; [lia|].
      assert (Z.log2 perm < 12); [|lia]. apply Z.log2_lt_pow2; lia. }
    destruct (Z.eqb_spec i 6), (Z.eqb_spec i 3), (Z.eqb_spec i 0); try lia; done.
Qed.

Lemma is_file_insert_file m p perm d perm0 d0 q :
  node_at m p = Some (File perm0 d0) →
  is_file (<[p := File perm d]> m) q = is_file m q.
Proof.
  intros Hp. unfold is_file. destruct p as [|n p]; [done|].
  destruct (decide (n :: p = q)) as [<-|Hne].
  - by rewrite node_at_insert_eq, Hp.
  - by rewrite node_at_insert_ne.
Qed.

Lemma is_dir_insert_file m p perm d perm0 d0 q :
  node_at m p = Some (File perm0 d0) →
  is_dir (<[p := File perm d]> m) q = is_dir m q.
Proof.
  intros Hp. unfold is_dir. destruct p as [|n p]; [done|].
  destruct (decide (n :: p = q)) as [<-|Hne].
  - by rewrite node_at_insert_eq, Hp.
  - by rewrite node_at_insert_ne.
Qed.

Lemma clear_way_ext m m' p :
  (∀ q, is_file m' q = is_file m q) → clear_way m' p = clear_way m p.
Proof.
  intros H. induction p as [|n p IH]; cbn [clear_way]; rewrite H; [done|].
  by rewrite IH.
Qed.

Lemma make_executable_ok p w perm d :
  node_at (fs w) p = Some (File perm d) →
  fault E (SysStat p) = None →
  fault E (SysChmod p) = None →
  (∀ q, fault E (SysMkdir q) = None) →
  fault E (SysOpenAppend (ACTIONS_LOG E)) = None →
  clear_way (fs w) (ROOT_DIR E) = true →
  is_dir (fs w) (ACTIONS_LOG E) = false →
  let line := info_line (strftime (clock E (ticks w)))
                        (lit "Marked executable: " ++ path_str p) in
  make_executable E p w
  = (Ok tt, World (appended E (ACTIONS_LOG E) line
                     (<[p := File (chmod_x perm) d]> (fs w)))
                  (stdout w ++ line) (stderr w) (S (ticks w))).
Proof.
  intros Hp Hst Hch Hmk Hap Hway Hnd line.
  unfold make_executable. apply try_ok.
  unfold bind at 1, stat_mode. rewrite Hst, Hp.
  unfold bind at 1, chmod. rewrite Hch, Hp.
  rewrite log_info_ok; try done.
  - intros q Hq. cbn [set_fs fs].
    rewrite (is_file_insert_file _ _ _ _ _ _ _ Hp).
    by apply (proj1 (clear_way_spec _ _) Hway).
  - cbn [set_fs fs]. by rewrite (is_dir_insert_file _ _ _ _ _ _ _ Hp).
Qed.

Lemma appended_lookup_other L line m k :
  k ≠ L → ¬ k `suffix_of` parent L → appended E L line m !! k = m !! k.
Proof.
  intros Hk Hs. unfold appended. rewrite lookup_insert_ne by done.
  by apply mkdirs_lookup_other.
Qed.

Lemma node_at_not_nil m p x : node_at m p = Some (File x.1 x.2) → p ≠ [].
Proof. by destruct p. Qed.

(** C8. For an existing file, when nothing is refused, [make_executable]
    returns and leaves on the file the mode it had with the execute
    bits of owner, group and other added: bits 6, 3 and 0 are set and
    every other permission bit is as it was; its content and every
    path other than the file and the log are untouched. *)
Theorem make_executable_adds_execute_bits p w perm d :
  node_at (fs w) p = Some (File perm d) →
  0 ≤ perm < 4096 →
  fault E (SysStat p) = None →
  fault E (SysChmod p) = None →
  (∀ q, fault E (SysMkdir q) = None) →
  fault E (SysOpenAppend (ACTIONS_LOG E)) = None →
  clear_way (fs w) (ROOT_DIR E) = true →
  is_dir (fs w) (ACTIONS_LOG E) = false →
  p ≠ ACTIONS_LOG E →
  ∃ w' perm',
    make_executable E p w = (Ok tt, w')
    ∧ node_at (fs w') p = Some (File perm' d)
    ∧ perm' = Z.lor perm (Z.lor (Z.lor S_IXUSR S_IXGRP) S_IXOTH)
    ∧ (∀ i, 0 ≤ i →
         Z.testbit perm' i = Z.testbit perm i || (i =? 6) || (i =? 3) || (i =? 0))
    ∧ (∀ k, k ≠ p → k ≠ ACTIONS_LOG E → ¬ k `suffix_of` ROOT_DIR E →
         fs w' !! k = fs w !! k).
Proof.
  intros Hp Hperm Hst Hch Hmk Hap Hway Hnd Hne.
  assert (p ≠ []) as Hnil by (by destruct p).
  eexists _, (chmod_x perm). split; [by eapply make_executable_ok|].
  cbn [fs]. split; [|split; [|split]].
  - unfold appended. rewrite node_at_insert_ne by done.
    destruct p as [|n p]; [done|]. cbn [node_at].
    apply mkdirs_keeps. by rewrite lookup_insert_eq.
  - by apply chmod_x_lor.
  - intros i Hi. rewrite chmod_x_bits by done.
    destruct (Z.ltb_spec i 12) as [Hlt|Hge]; [done|]. cbn [andb].
    assert (Z.testbit perm i = false) as ->.
    { destruct (decide (perm = 0)) as [->|]; [apply Z.bits_0|].
      apply Z.bits_above_log2; [lia|].
      assert (Z.log2 perm < 12); [|lia]. apply Z.log2_lt_pow2; lia. }
    destruct (Z.eqb_spec i 6), (Z.eqb_spec i 3), (Z.eqb_spec i 0); try lia; done.
  - intros k Hk1 Hk2 Hk3. rewrite appended_lookup_other by done.
    by rewrite lookup_insert_ne.
Qed.

End ChmodFacts.

Lemma make_executable_adds_execute_bits_witness :
  ∃ w', make_executable sample_env script_path one_script_world = (Ok tt, w')
        ∧ node_at (fs w') script_path = Some (File 493 (lit "#!/bin/sh")).
Proof.
  destruct (make_executable_adds_execute_bits sample_env script_path one_script_world
              420 (lit "#!/bin/sh"))
    as (w' & perm' & H1 & H2 & -> & _); try reflexivity; try lia.
  - discriminate.
  - exists w'. split; [exact H1 | exact H2].
Defined.

(** ** The file writer *)

Section WriterFacts.

Variable E : env.

Lemma safe_write_ok p content w :
  p ≠ [] →
  (∀ q, fault E (SysMkdir q) = None) →
  fault E (SysOpenWrite p) = None →
  fault E (SysOpenAppend (ACTIONS_LOG E)) = None →
  clear_way (fs w) (parent p) = true →
  is_dir (fs w) p = false →
  let m1 := written E p (normalize content) (fs w) in
  clear_way m1 (ROOT_DIR E) = true →
  is_dir m1 (ACTIONS_LOG E) = false →
  let line := info_line (strftime (clock E (ticks w)))
                        (lit "Wrote file: " ++ path_str p) in
  safe_write E p content w
  = (Ok tt, World (appended E (ACTIONS_LOG E) line m1)
                  (stdout w ++ line) (stderr w) (S (ticks w))).
Proof.
  intros Hp Hmk Hwr Hap Hway Hnd m1 Hway1 Hnd1 line.
  pose proof (proj1 (clear_way_spec _ _) Hway) as Hfile.
  unfold safe_write. apply try_ok.
  rewrite (bind_ok _ _ _ _ _ (mkdir_p_ok E (parent p) w Hmk Hfile)).
  unfold bind at 1, write_text.
  pose proof (not_suffix_parent p Hp) as Hns.
  rewrite (open_for_write_ok E _ p (mkdirs (new_dir_perm E) (parent p) (fs w)));
    try done.
  - assert (perm_for_write E (mkdirs (new_dir_perm E) (parent p) (fs w)) p
            = perm_for_write E (fs w) p) as ->.
    { unfold perm_for_write. by rewrite node_at_mkdirs_other. }
    fold (normalize content).
    rewrite log_info_ok; try done.
    by apply (proj1 (clear_way_spec _ _)).
  - unfold is_dir in *. by rewrite node_at_mkdirs_other.
  - by apply mkdirs_is_dir.
Qed.

Lemma written_data p text m : p ≠ [] → data_at (written E p text m) p = Some text.
Proof. intros Hp. unfold written. by rewrite data_at_insert_eq. Qed.

Lemma written_data_other p text m k :
  p ≠ [] → k ≠ p → data_at (written E p text m) k = data_at m k.
Proof.
  intros Hp Hk. unfold written. rewrite data_at_insert_ne by done.
  apply mkdirs_data.
Qed.

(** C9. The transformation of [safe_write], [dedent] followed by
    stripping the leading newlines, is idempotent; so writing a file
    from its transformed content is the same computation, with the same
    bytes, as writing it from the content. *)
Theorem normalize_idempotent content :
  normalize (normalize content) = normalize content
  ∧ ∀ p, safe_write E p (normalize content) = safe_write E p content.
Proof.
  assert (normalize (normalize content) = normalize content) as Hn.
  { unfold normalize at 1. rewrite normalize_fixed.
    unfold normalize. apply lstrip_nl_idemp. }
  split; [done|]. intros p. unfold safe_write.
  fold (normalize (normalize content)). fold (normalize content). by rewrite Hn.
Qed.

Lemma split_nl_snoc_lf s : split_nl (s ++ [LF]) = split_nl s ++ [[]].
Proof.
  induction s as [|c s IH]; [done|]. simpl. rewrite IH.
  destruct (is_nl c); [done|].
  by destruct (split_nl_cons s) as (l & ls & ->).
Qed.

Lemma join_nl_snoc_empty ls : ls ≠ [] → join_nl (ls ++ [[]]) = join_nl ls ++ [LF].
Proof.
  induction ls as [|l ls IH]; [done|]. intros _.
  destruct ls as [|l' ls]; [done|].
  change ((l :: l' :: ls) ++ [[]]) with (l :: (l' :: ls) ++ [[]]).
  cbn [app]. rewrite !join_nl_cons.
  change (l' :: ls ++ [[]]) with ((l' :: ls) ++ [[]]).
  rewrite IH by done. by rewrite <- app_assoc.
Qed.

Lemma lstrip_nl_snoc a :
  lstrip_nl (a ++ [LF]) = [] ∨ lstrip_nl (a ++ [LF]) = lstrip_nl a ++ [LF].
Proof.
  induction a as [|c a IH]; [by left|]. simpl.
  destruct (is_nl c); [done|]. by right.
Qed.

(** A trailing newline of the content is a trailing newline of what is
    written, unless nothing is written at all. *)
Lemma normalize_trailing_newline c :
  normalize (c ++ [LF]) = [] ∨ ∃ s, normalize (c ++ [LF]) = s ++ [LF].
Proof.
  unfold normalize. rewrite dedent_join, split_nl_snoc_lf, map_app.
  cbn [map]. change (dedent_line (text_margin (c ++ [LF])) []) with (@nil ascii).
  rewrite join_nl_snoc_empty.
  - destruct (lstrip_nl_snoc (join_nl (map (dedent_line (text_margin (c ++ [LF])))
                                           (split_nl c)))) as [->| ->]; eauto.
  - by destruct (split_nl_cons c) as (l & ls & ->).
Qed.

Lemma is_file_mkdirs perm p m q :
  is_file (mkdirs perm p m) q = is_file m q.
Proof.
  unfold is_file. destruct q as [|n q]; [done|]. cbn [node_at].
  by destruct (mkdirs_only_dirs perm p m (n :: q)) as [->|[-> ->]].
Qed.

Lemma written_is_file_other p text m q :
  p ≠ [] → q ≠ p → is_file (written E p text m) q = is_file m q.
Proof.
  intros Hp Hq. unfold written, is_file at 1.
  rewrite node_at_insert_ne by done. apply is_file_mkdirs.
Qed.

Lemma written_clear_way p text m r :
  p ≠ [] → ¬ p `suffix_of` r → clear_way m r = true →
  clear_way (written E p text m) r = true.
Proof.
  intros Hp Hs Hw. apply clear_way_spec. intros q Hq.
  rewrite written_is_file_other; [by apply (proj1 (clear_way_spec _ _) Hw)|done|].
  by intros ->.
Qed.

Lemma written_is_dir_other p text m q :
  p ≠ [] → q ≠ p → ¬ q `suffix_of` parent p →
  is_dir (written E p text m) q = is_dir m q.
Proof.
  intros Hp Hq Hs. unfold written, is_dir.
  rewrite node_at_insert_ne by done. by rewrite node_at_mkdirs_other.
Qed.

(** C1, as amended. When nothing is refused and no regular file stands
    where a directory is needed, [safe_write] returns and the target
    holds exactly this text: every line of the content made of spaces
    and tabs only is emptied, every other line loses the longest prefix
    of spaces and tabs common to the lines that are not blank, and the
    leading newlines of the result are stripped; nothing else changes,
    and a trailing newline of the content stays a trailing newline. *)
Theorem safe_write_stores_dedented_text p content w :
  p ≠ [] →
  (∀ q, fault E (SysMkdir q) = None) →
  fault E (SysOpenWrite p) = None →
  fault E (SysOpenAppend (ACTIONS_LOG E)) = None →
  clear_way (fs w) (parent p) = true →
  is_dir (fs w) p = false →
  clear_way (fs w) (ROOT_DIR E) = true →
  is_dir (fs w) (ACTIONS_LOG E) = false →
  p ≠ ACTIONS_LOG E →
  ¬ p `suffix_of` ROOT_DIR E →
  ¬ ACTIONS_LOG E `suffix_of` parent p →
  ∃ w' stored m k,
    safe_write E p content w = (Ok tt, w')
    ∧ data_at (fs w') p = Some stored
    ∧ ((∃ l, l ∈ split_nl content ∧ blank_line l = false) →
       is_margin m (split_nl content))
    ∧ join_nl (map (dedent_line m) (split_nl content)) = repeat LF k ++ stored
    ∧ head stored ≠ Some LF
    ∧ (∀ c, content = c ++ [LF] → stored = [] ∨ ∃ s, stored = s ++ [LF]).
Proof.
  intros Hp Hmk Hwr Hap Hway Hnd Hroot Hlog Hne Hns1 Hns2.
  destruct (lstrip_nl_spec (dedent content)) as (k & Hk & Hhd).
  eexists _, (normalize content), (text_margin content), k.
  split.
  { apply safe_write_ok; try done.
    - by apply written_clear_way.
    - by rewrite written_is_dir_other. }
  cbn [fs]. split; [|split; [|split; [|split]]].
  - rewrite appended_data_other; [by apply written_data|done..].
  - apply text_margin_is_margin.
  - by rewrite <- dedent_join.
  - done.
  - intros c ->. apply normalize_trailing_newline.
Qed.

End WriterFacts.

Lemma safe_write_stores_dedented_text_witness :
  ∃ w', safe_write sample_env ["install.sh"; "stack"; "gen"; "srv"]
          (template sample_env InstallSh) empty_world = (Ok tt, w')
        ∧ data_at (fs w') ["install.sh"; "stack"; "gen"; "srv"]
          = Some (lit "#!/usr/bin/env bash" ++ [LF] ++ lit "set -Eeuo pipefail" ++ [LF]).
Proof.
  destruct (safe_write_stores_dedented_text sample_env
              ["install.sh"; "stack"; "gen"; "srv"]
              (template sample_env InstallSh) empty_world)
    as (w' & stored & m & k & H1 & H2 & _); try reflexivity; try discriminate.
  - apply not_suffix_check. vm_compute. reflexivity.
  - apply not_suffix_check. vm_compute. reflexivity.
  - exists w'. split; [exact H1|].
    replace w' with (safe_write sample_env ["install.sh"; "stack"; "gen"; "srv"]
                       (template sample_env InstallSh) empty_world).2
      by (by rewrite H1).
    vm_compute. reflexivity.
Defined.

(** C1, as stated, fails on a content with a line of blanks after its
    first line: the claim keeps that line as it is (here no line has
    indentation to lose and no blank line leads, so the claimed text is
    the content itself), while [dedent] empties it. *)
Lemma safe_write_empties_blank_lines :
  let content := lit "a" ++ [LF] ++ lit "  " ++ [LF] ++ lit "b" ++ [LF] in
  let p := ["note.txt"; "gen"; "srv"] in
  spec_text content = content
  ∧ ∃ w', safe_write sample_env p content empty_world = (Ok tt, w')
          ∧ data_at (fs w') p = Some (lit "a" ++ [LF] ++ [LF] ++ lit "b" ++ [LF])
          ∧ data_at (fs w') p ≠ Some (spec_text content).
Proof.
  split; [vm_compute; reflexivity|].
  eexists. split; [vm_compute; reflexivity|].
  split; [vm_compute; reflexivity|]. vm_compute. discriminate.
Qed.

(** ** The archiver *)

Section ZipFacts.

Variable E : env.

Lemma mkdir_p_present p w :
  fault E (SysMkdir p) = None → is_dir (fs w) p = true →
  mkdir_p E p w = (Ok tt, w).
Proof.
  intros Hf Hd. rewrite mkdir_p_unfold. unfold try_except, os_mkdir.
  rewrite Hf. unfold is_dir in Hd.
  destruct (node_at (fs w) p) as [[perm|??]|] eqn:Hp; [|done..].
  unfold unless_is_dir, is_dir. by rewrite Hp.
Qed.

Lemma appended_present L line m :
  is_dir m (parent L) = true →
  appended E L line m
  = <[L := File (perm_for_write E m L) (default [] (data_at m L) ++ line)]> m.
Proof.
  intros Hd. unfold appended. rewrite mkdirs_present; [done|].
  unfold is_dir in Hd. by destruct (node_at m (parent L)).
Qed.

Lemma append_log_present L line w :
  fault E (SysMkdir (parent L)) = None →
  fault E (SysOpenAppend L) = None →
  L ≠ [] →
  is_dir (fs w) (parent L) = true →
  is_dir (fs w) L = false →
  _append_log E L line w = (Ok tt, set_fs (appended E L line) w).
Proof.
  intros Hmk Hap HL Hd Hnd. unfold _append_log.
  rewrite (bind_ok _ _ _ _ _ (mkdir_p_present _ w Hmk Hd)).
  unfold append_text. rewrite (open_for_write_ok E _ L (fs w)) by done.
  unfold set_fs. by rewrite appended_present.
Qed.

Lemma log_info_present message w :
  fault E (SysMkdir (ROOT_DIR E)) = None →
  fault E (SysOpenAppend (ACTIONS_LOG E)) = None →
  is_dir (fs w) (ROOT_DIR E) = true →
  is_dir (fs w) (ACTIONS_LOG E) = false →
  let line := info_line (strftime (clock E (ticks w))) message in
  log_info E message w
  = (Ok tt, World (appended E (ACTIONS_LOG E) line (fs w)) (stdout w ++ line)
                  (stderr w) (S (ticks w))).
Proof.
  intros Hmk Hap Hd Hnd line. unfold log_info, bind at 1, timestamp_utc.
  erewrite bind_ok; [|by apply append_log_present]. done.
Qed.

Lemma log_error_present message w :
  fault E (SysMkdir (ROOT_DIR E)) = None →
  fault E (SysOpenAppend (ERRORS_LOG E)) = None →
  is_dir (fs w) (ROOT_DIR E) = true →
  is_dir (fs w) (ERRORS_LOG E) = false →
  let line := error_line E (strftime (clock E (ticks w))) message in
  log_error E message w
  = (Ok tt, World (appended E (ERRORS_LOG E) line (fs w)) (stdout w)
                  (stderr w ++ line) (S (ticks w))).
Proof.
  intros Hmk Hap Hd Hnd line. unfold log_error, bind at 1, timestamp_utc.
  erewrite bind_ok; [|by apply append_log_present]. done.
Qed.

Lemma relative_to_app (r base : path) : relative_to (r ++ base) base = Some r.
Proof.
  unfold relative_to. rewrite decide_True by (by exists r).
  f_equal. rewrite length_app.
  replace (length r + length base - length base)%nat with (length r) by lia.
  by rewrite take_app_length.
Qed.

Lemma relative_to_Some (p base rel : path) :
  relative_to p base = Some rel → p = rel ++ base.
Proof.
  unfold relative_to. destruct (decide (base `suffix_of` p)) as [[k ->]|]; [|done].
  intros [= <-]. rewrite length_app.
  replace (length k + length base - length base)%nat with (length k) by lia.
  by rewrite take_app_length.
Qed.

Lemma walked_under m top p :
  walked m top p = true → ∃ r, r ≠ [] ∧ p = r ++ top.
Proof.
  induction p as [|n q IH]; [done|]. cbn [walked].
  intros [_ [Hq|Hq]%orb_true_iff]%andb_true_iff.
  - apply bool_decide_eq_true in Hq as ->. by exists [n].
  - destruct (IH Hq) as (r & Hr & ->). by exists (n :: r).
Qed.

Lemma walked_insert_outside m top k v p :
  ¬ top `suffix_of` k → k ≠ [] →
  walked (<[k := v]> m) top p = walked m top p.
Proof.
  intros Hk Hnil. induction p as [|n q IH]; [done|]. cbn [walked].
  rewrite IH. destruct (decide (k = q)) as [->|Hne].
  - assert (bool_decide (q = top) = false) as ->.
    { apply bool_decide_eq_false. intros ->. by apply Hk. }
    assert (walked m top q = false) as ->.
    { destruct (walked m top q) eqn:Hw; [|done].
      destruct (walked_under _ _ _ Hw) as (r & _ & ->). destruct Hk. by exists r. }
    by rewrite !andb_false_r.
  - unfold is_dir. by rewrite node_at_insert_ne.
Qed.

Lemma elem_of_walk_files m top p :
  p ∈ walk_files m top ↔ is_file m p = true ∧ walked m top p = true.
Proof.
  unfold walk_files. rewrite list_elem_of_filter. split; [by intros [? _]|].
  intros [Hf Hw]. split; [done|].
  destruct p as [|n q]; [done|]. unfold is_file in Hf. cbn [node_at] in Hf.
  destruct (m !! (n :: q)) as [x|] eqn:Hx; [|done].
  apply (list_elem_of_fmap_2' fst _ (n :: q, x)); [|done].
  by apply elem_of_map_to_list.
Qed.

Lemma NoDup_walk_files m top : NoDup (walk_files m top).
Proof. apply NoDup_filter, NoDup_fst_map_to_list. Qed.

(** Every entry comes from a file of the list, under its path relative
    to [ROOT_DIR]. *)
Lemma zip_entries_sound m files rel d :
  (rel, d) ∈ (zip_entries E m files).1 →
  ∃ full, full ∈ files ∧ relative_to full (ROOT_DIR E) = Some rel
          ∧ data_at m full = Some d.
Proof.
  induction files as [|f files IH]; cbn [zip_entries].
  - by intros ?%elem_of_nil.
  - unfold zip_entry.
    destruct (relative_to f (ROOT_DIR E)) as [rel'|] eqn:Hrel;
      [|by intros ?%elem_of_nil].
    destruct (fault E (SysOpenRead f)); [by intros ?%elem_of_nil|].
    destruct (data_at m f) as [d'|] eqn:Hd; [|by intros ?%elem_of_nil].
    destruct (zip_entries E m files) as [ens r]. cbn [fst] in *.
    intros [[= -> ->]|Hin]%elem_of_cons.
    + exists f. split; [by left | done].
    + destruct (IH Hin) as (full & ? & ? & ?). exists full.
      split; [by right | done].
Qed.

(** With every file readable and below [ROOT_DIR], the loops end
    without an error and every file has its entry. *)
Lemma zip_entries_complete m files :
  (∀ f, fault E (SysOpenRead f) = None) →
  (∀ f, f ∈ files → ROOT_DIR E `suffix_of` f ∧ is_file m f = true) →
  (zip_entries E m files).2 = None
  ∧ (zip_entries E m files).1.*1 = (λ f, take (length f - length (ROOT_DIR E)) f) <$> files
  ∧ ∀ f, f ∈ files →
      ∃ rel d, (rel, d) ∈ (zip_entries E m files).1
               ∧ relative_to f (ROOT_DIR E) = Some rel ∧ data_at m f = Some d.
Proof.
  intros Hrd. induction files as [|f files IH]; intros Hall; cbn [zip_entries].
  - split; [done|]. split; [done|]. by intros f ?%elem_of_nil.
  - destruct (Hall f) as [Hs Hf]; [by left|].
    destruct IH as (IH1 & IH2 & IH3); [intros; apply Hall; by right|].
    unfold zip_entry, relative_to. rewrite decide_True by done. rewrite Hrd.
    unfold is_file, data_at in *.
    destruct (node_at m f) as [[?|perm d]|] eqn:Hn; [done| |done].
    destruct (zip_entries E m files) as [ens r]. cbn [fst snd] in *.
    split; [done|]. split; [by rewrite fmap_cons, IH2|].
    intros f' [->|Hin]%elem_of_cons.
    + exists (take (length f - length (ROOT_DIR E)) f), d.
      split; [by left|]. unfold relative_to, data_at.
      rewrite decide_True by done. by rewrite Hn.
    + destruct (IH3 f' Hin) as (rel & d' & ? & ? & ?).
      exists rel, d'. split; [by right | done].
Qed.

End ZipFacts.

Section ZipSpec.

Variable E : env.
Variable nm : string.

Let root : path := ROOT_DIR E /# nm.
Let zp : path := ROOT_DIR E /# (nm +:+ ".zip").

Lemma last_zip_name : last (list_ascii_of_string (nm +:+ ".zip")) = Some "p"%char.
Proof.
  induction nm as [|c s IH]; [done|].
  change (last (c :: list_ascii_of_string (s +:+ ".zip")) = Some "p"%char).
  by rewrite last_cons, IH.
Qed.

Lemma zip_name_not_actions_log : nm +:+ ".zip" ≠ "create_stack_actions.log"%string.
Proof.
  intros H. pose proof last_zip_name as Hl. rewrite H in Hl. done.
Qed.

Lemma zip_name_not_errors_log : nm +:+ ".zip" ≠ "create_stack_errors.log"%string.
Proof.
  intros H. pose proof last_zip_name as Hl. rewrite H in Hl. done.
Qed.

Lemma string_length_app (a b : string) :
  String.length (a +:+ b) = (String.length a + String.length b)%nat.
Proof. induction a as [|c a IH]; simpl; [done | by rewrite IH]. Qed.

Lemma zip_name_not_name : nm +:+ ".zip" ≠ nm.
Proof.
  intros H. apply (f_equal String.length) in H.
  rewrite string_length_app in H. simpl in H. lia.
Qed.

Lemma suffix_same_length {X} (a b : list X) :
  a `suffix_of` b → length a = length b → a = b.
Proof.
  intros [k ->] Hl. rewrite length_app in Hl. destruct k; [done|]. simpl in Hl. lia.
Qed.

Lemma root_not_suffix_zp : ¬ root `suffix_of` zp.
Proof.
  intros H%suffix_same_length; [|done].
  injection H as H. by apply zip_name_not_name.
Qed.

Lemma zp_not_suffix_ROOT : ¬ zp `suffix_of` ROOT_DIR E.
Proof. apply suffix_cons_not_self. Qed.

Lemma zp_not_under_root r : zp ≠ r ++ root.
Proof.
  intros H. apply root_not_suffix_zp. rewrite H. by exists r.
Qed.

(** The directory walk does not see the archive that is being written. *)
Lemma walk_with_archive m perm data f :
  (is_file (<[zp := File perm data]> m) f = true
   ∧ walked (<[zp := File perm data]> m) root f = true)
  ↔ (is_file m f = true ∧ walked m root f = true).
Proof.
  rewrite walked_insert_outside by (apply root_not_suffix_zp || done).
  split; intros [Hf Hw]; (split; [|done]);
    destruct (walked_under _ _ _ Hw) as (r & _ & ->);
    unfold is_file in *; rewrite node_at_insert_ne in *; try done;
    apply zp_not_under_root.
Qed.

Lemma data_with_archive m perm data r :
  data_at (<[zp := File perm data]> m) (r ++ root) = data_at m (r ++ root).
Proof. apply data_at_insert_ne; [apply zp_not_under_root | done]. Qed.

Lemma rel_under_root (r : path) : (r ++ [nm]) ++ ROOT_DIR E = r ++ root.
Proof. by rewrite <- app_assoc. Qed.

(** C10. In whatever state the file system is, and whether or not the
    loops of [create_zip] end with an error, every entry written to the
    archive comes from a file strictly below the stack root: never from
    one of the two logs of the generator, from the archive itself, or
    from any file that lies directly in the directory of the generator,
    where the generator script is. *)
Theorem archive_excludes_generator_files w res w' :
  zip_tree E zp root w = (res, w') →
  (w' = w ∧ ∃ e, res = Raise e)
  ∨ ∃ perm ens,
      fs w' !! zp = Some (File perm (zip_image E ens))
      ∧ ∀ rel d, (rel, d) ∈ ens →
          let full := rel ++ ROOT_DIR E in
          (∃ r, r ≠ [] ∧ full = r ++ root)
          ∧ full ≠ ACTIONS_LOG E
          ∧ full ≠ ERRORS_LOG E
          ∧ full ≠ zp
          ∧ ∀ script, full ≠ ROOT_DIR E /# script.
Proof.
  unfold zip_tree.
  destruct (open_for_write E (SysOpenWrite zp) zp w) as [e|perm]; [by left; naive_solver|].
  destruct (archive_entries E _ root) as [ens r] eqn:Hens.
  intros Hrun. right. exists perm, ens. split.
  { destruct r; injection Hrun as _ <-; cbn [set_fs fs]; by rewrite lookup_insert_eq. }
  intros rel d Hin. set (full := rel ++ ROOT_DIR E).
  assert ((rel, d) ∈ (archive_entries E (<[zp:=File perm []]> (fs w)) root).1) as Hin'
    by (by rewrite Hens).
  apply zip_entries_sound in Hin' as (f & Hf & Hrel & _).
  apply elem_of_walk_files in Hf as [_ Hw].
  apply relative_to_Some in Hrel. fold full in Hrel.
  destruct (walked_under _ _ _ Hw) as (r0 & Hr0 & Hfull). rewrite Hrel in Hfull.
  assert (∀ s, full ≠ ROOT_DIR E /# s) as Hdirect.
  { intros s Hs. rewrite Hs in Hfull. apply (f_equal length) in Hfull.
    unfold root, joinpath in Hfull. rewrite length_app in Hfull. simpl in Hfull.
    destruct r0; [done|]. simpl in Hfull. lia. }
  split; [by exists r0|]. repeat split; try apply Hdirect.
Qed.

Lemma create_zip_ok w :
  fault E (SysMkdir (ROOT_DIR E)) = None →
  fault E (SysOpenWrite zp) = None →
  (∀ f, fault E (SysOpenRead f) = None) →
  fault E (SysOpenAppend (ACTIONS_LOG E)) = None →
  is_dir (fs w) (ROOT_DIR E) = true →
  is_dir (fs w) zp = false →
  is_dir (fs w) (ACTIONS_LOG E) = false →
  ∃ w' perm ens,
    create_zip E root w = (Ok zp, w')
    ∧ name zp = nm +:+ ".zip"
    ∧ parent zp = parent root
    ∧ node_at (fs w') zp = Some (File perm (zip_image E ens))
    ∧ NoDup ens.*1
    ∧ (∀ rel d, (rel, d) ∈ ens ↔
        ∃ r, r ≠ [] ∧ rel = r ++ [nm]
             ∧ walked (fs w) root (r ++ root) = true
             ∧ data_at (fs w) (r ++ root) = Some d)
    ∧ is_dir (fs w') (ACTIONS_LOG E) = false
    ∧ ∀ k, k ≠ zp → k ≠ ACTIONS_LOG E → fs w' !! k = fs w !! k.
Proof.
  intros Hmk Hwr Hrd Hap Hroot Hzp Hlog.
  set (perm := perm_for_write E (fs w) zp).
  set (m := <[zp := File perm []]> (fs w)).
  assert (Hfiles : ∀ f, f ∈ walk_files m root →
            ROOT_DIR E `suffix_of` f ∧ is_file m f = true).
  { intros f [Hf Hw]%elem_of_walk_files. split; [|done].
    destruct (walked_under _ _ _ Hw) as (r & _ & ->).
    exists (r ++ [nm]). by rewrite rel_under_root. }
  destruct (zip_entries_complete E m _ Hrd Hfiles) as (Hnone & Hnames & Hall).
  destruct (archive_entries E m root) as [ens r] eqn:Hens.
  unfold archive_entries in Hens. rewrite Hens in Hnone, Hnames, Hall.
  cbn [fst snd] in *. subst r.
  assert (Hzip : zip_tree E zp root w
                 = (Ok tt, set_fs (λ _, <[zp := File perm (zip_image E ens)]> m) w)).
  { unfold zip_tree. rewrite (open_for_write_ok E _ zp (fs w)) by done.
    fold perm m. unfold archive_entries. by rewrite Hens. }
  eexists _, perm, ens. split.
  { unfold create_zip. apply try_ok. fold zp.
    rewrite (bind_ok _ _ _ _ _ Hzip).
    erewrite bind_ok; [done|]. apply log_info_present; try done.
    - cbn [set_fs fs]. unfold is_dir, m in *.
      rewrite !node_at_insert_ne; try done.
      + intros H. apply zp_not_suffix_ROOT. by rewrite H.
      + intros H. apply zp_not_suffix_ROOT. by rewrite H.
    - cbn [set_fs fs]. unfold is_dir, m in *.
      rewrite !node_at_insert_ne; try done.
      + intros [= H]. by apply zip_name_not_actions_log.
      + intros [= H]. by apply zip_name_not_actions_log. }
  split; [done|]. split; [done|]. cbn [fs set_fs]. split; [|split; [|split; [|split]]].
  - unfold appended. cbn [node_at zp joinpath].
    rewrite lookup_insert_ne by (intros [= H]; by apply zip_name_not_actions_log).
    rewrite mkdirs_lookup_other by apply zp_not_suffix_ROOT.
    by rewrite lookup_insert_eq.
  - rewrite Hnames. apply NoDup_fmap_2_strong; [|apply NoDup_walk_files].
    intros f1 f2 [[k1 ->] _]%Hfiles [[k2 ->] _]%Hfiles.
    rewrite !length_app.
    replace (length k1 + length (ROOT_DIR E) - length (ROOT_DIR E))%nat
      with (length k1) by lia.
    replace (length k2 + length (ROOT_DIR E) - length (ROOT_DIR E))%nat
      with (length k2) by lia.
    rewrite !take_app_length. by intros ->.
  - intros rel d. split.
    + intros Hin.
      assert ((rel, d) ∈ (zip_entries E m (walk_files m root)).1) as Hin'
        by (by rewrite Hens).
      apply zip_entries_sound in Hin' as (f & Hf & Hrel & Hd).
      apply elem_of_walk_files in Hf. apply walk_with_archive in Hf as [_ Hw].
      apply relative_to_Some in Hrel.
      destruct (walked_under _ _ _ Hw) as (r & Hr & Hfr).
      exists r. split; [done|].
      assert (rel = r ++ [nm]) as ->.
      { rewrite Hfr, <- rel_under_root in Hrel. by apply app_inv_tail in Hrel. }
      split; [done|]. rewrite <- Hfr. split; [done|].
      unfold m in Hd. rewrite Hfr in Hd |- *. by rewrite data_with_archive in Hd.
    + intros (r & Hr & -> & Hw & Hd).
      assert (r ++ root ∈ walk_files m root) as Hin.
      { apply elem_of_walk_files. apply walk_with_archive. split; [|done].
        unfold is_file, data_at in *. by destruct (node_at (fs w) (r ++ root)) as [[?|??]|]. }
      destruct (Hall _ Hin) as (rel & d' & Hin' & Hrel & Hd').
      rewrite <- rel_under_root, relative_to_app in Hrel. injection Hrel as <-.
      unfold m in Hd'. rewrite data_with_archive, Hd in Hd'. by injection Hd' as <-.
  - unfold is_dir. rewrite appended_present.
    + by rewrite node_at_insert_eq.
    + unfold is_dir, m in *. cbn [ACTIONS_LOG joinpath parent tail].
      rewrite !node_at_insert_ne; try done.
      * intros H. apply zp_not_suffix_ROOT. by rewrite H.
      * intros H. apply zp_not_suffix_ROOT. by rewrite H.
  - intros k Hk1 Hk2. rewrite appended_present.
    + unfold m. by rewrite !lookup_insert_ne.
    + unfold is_dir, m in *. cbn [ACTIONS_LOG joinpath parent tail].
      rewrite !node_at_insert_ne; try done.
      * intros H. apply zp_not_suffix_ROOT. by rewrite H.
      * intros H. apply zp_not_suffix_ROOT. by rewrite H.
Qed.

(** C3. When nothing is refused, [create_zip] returns the path
    [<stack-root name>.zip] in the directory of the stack root, and the
    archive there holds one entry for every file met below the stack
    root and no other entry; the name of an entry is the path of its
    file relative to [ROOT_DIR], which starts with the name of the
    stack root, and its content is the content of the file. *)
Theorem create_zip_archives_stack_root w :
  fault E (SysMkdir (ROOT_DIR E)) = None →
  fault E (SysOpenWrite zp) = None →
  (∀ f, fault E (SysOpenRead f) = None) →
  fault E (SysOpenAppend (ACTIONS_LOG E)) = None →
  is_dir (fs w) (ROOT_DIR E) = true →
  is_dir (fs w) zp = false →
  is_dir (fs w) (ACTIONS_LOG E) = false →
  ∃ w' perm ens,
    create_zip E root w = (Ok zp, w')
    ∧ name zp = nm +:+ ".zip"
    ∧ parent zp = parent root
    ∧ node_at (fs w') zp = Some (File perm (zip_image E ens))
    ∧ NoDup ens.*1
    ∧ ∀ rel d, (rel, d) ∈ ens ↔
        ∃ r, r ≠ [] ∧ rel = r ++ [nm]
             ∧ walked (fs w) root (r ++ root) = true
             ∧ data_at (fs w) (r ++ root) = Some d.
Proof.
  intros Hmk Hwr Hrd Hap Hroot Hzp Hlog.
  destruct (create_zip_ok w Hmk Hwr Hrd Hap Hroot Hzp Hlog)
    as (w' & perm & ens & H1 & H2 & H3 & H4 & H5 & H6 & _).
  by exists w', perm, ens.
Qed.

End ZipSpec.

Lemma archive_excludes_generator_files_witness :
  ∃ perm ens,
    fs (zip_tree sample_env ["stack.zip"; "gen"; "srv"] ["stack"; "gen"; "srv"]
          archive_world).2 !! ["stack.zip"; "gen"; "srv"]
    = Some (File perm (zip_image sample_env ens))
    ∧ ∀ rel d, (rel, d) ∈ ens → rel ++ ROOT_DIR sample_env ≠ script_path.
Proof.
  destruct (archive_excludes_generator_files sample_env "stack" archive_world _ _
              (surjective_pairing _)) as [[_ [e He]]|(perm & ens & Hz & Hens)].
  - vm_compute in He. discriminate He.
  - exists perm, ens. split; [exact Hz|].
    intros rel d Hin. destruct (Hens rel d Hin) as (_ & _ & _ & _ & Hs).
    exact (Hs "run.sh"%string).
Defined.

Lemma create_zip_archives_stack_root_witness :
  ∃ w' perm ens,
    create_zip sample_env ["stack"; "gen"; "srv"] archive_world
    = (Ok ["stack.zip"; "gen"; "srv"], w')
    ∧ node_at (fs w') ["stack.zip"; "gen"; "srv"]
      = Some (File perm (zip_image sample_env ens))
    ∧ (["notes.txt"; "stack"], lit "hello") ∈ ens.
Proof.
  destruct (create_zip_archives_stack_root sample_env "stack" archive_world)
    as (w' & perm & ens & Hrun & _ & _ & Hz & _ & Hens).
  - reflexivity.
  - reflexivity.
  - intros f. reflexivity.
  - reflexivity.
  - vm_compute. reflexivity.
  - vm_compute. reflexivity.
  - vm_compute. reflexivity.
  - exists w', perm, ens. split; [exact Hrun|]. split; [exact Hz|].
    apply Hens. exists ["notes.txt"].
    split; [discriminate|]. split; [reflexivity|].
    split; vm_compute; reflexivity.
Defined.

(** ** What a computation may change *)

Section FrameFacts.

Variable E : env.

Lemma frame_refl W A m : frame W A m m.
Proof. intros k. right. by left. Qed.

Lemma frame_trans W A m1 m2 m3 :
  frame W A m1 m2 → frame W A m2 m3 → frame W A m1 m3.
Proof.
  intros H12 H23 k. destruct (H12 k) as [HW|[H1|[HA [n1 H1]]]].
  - by left.
  - destruct (H23 k) as [HW|[H2|[HA [n2 H2]]]].
    + by left.
    + right. left. congruence.
    + right. right. split; [done|]. exists n2. by rewrite H2, H1.
  - destruct (H23 k) as [HW|[H2|[_ [n2 H2]]]].
    + by left.
    + right. right. split; [done|]. exists n1. congruence.
    + right. right. split; [done|]. exists (n1 ++ n2).
      rewrite H2, H1. cbn [default]. by rewrite app_assoc.
Qed.

Lemma frame_mono W A W' A' m m' :
  W ⊆ W' → A ⊆ A' → frame W A m m' → frame W' A' m m'.
Proof.
  intros HW HA H k. destruct (H k) as [?|[?|[? ?]]]; [left|right; left|right; right];
    auto.
Qed.

Lemma frame_same_data W A m m' :
  (∀ k, data_at m' k = data_at m k) → frame W A m m'.
Proof. intros H k. right. by left. Qed.

Lemma frame_kept W A m m' k :
  frame W A m m' → k ∉ W → k ∉ A → data_at m' k = data_at m k.
Proof. intros H HW HA. destruct (H k) as [?|[?|[? _]]]; done. Qed.





Lemma framed_bind {X Y} W A (c : M X) (k : X → M Y) :
  framed W A c → (∀ x, framed W A (k x)) → framed W A (bind c k).
Proof.
  intros Hc Hk w r w'. unfold bind.
  destruct (c w) as [[x|e] w1] eqn:Hcw.
  - intros Hkw. eapply frame_trans; [by eapply Hc | by eapply Hk].
  - intros [= _ <-]. by eapply Hc.
Qed.



End FrameFacts.

Section FramedOps.

Variable E : env.

Lemma data_at_insert_dir m p perm k :
  node_at m p = None → data_at (<[p := Dir perm]> m) k = data_at m k.
Proof.
  intros Hp. destruct p as [|n p]; [done|]. unfold data_at.
  destruct (decide (n :: p = k)) as [<-|Hne].
  - by rewrite node_at_insert_eq, Hp.
  - by rewrite node_at_insert_ne.
Qed.

Lemma os_mkdir_data p w r w' k :
  os_mkdir E p w = (r, w') → data_at (fs w') k = data_at (fs w) k.
Proof.
  unfold os_mkdir. destruct (fault E (SysMkdir p)); [by intros [= _ <-]|].
  destruct (node_at (fs w) p) eqn:Hp; [by intros [= _ <-]|].
  destruct (node_at (fs w) (parent p)) as [[?|??]|]; intros [= _ <-]; try done.
  cbn [set_fs fs]. by apply data_at_insert_dir.
Qed.

Lemma unless_is_dir_data p e w r w' : unless_is_dir p e w = (r, w') → w' = w.
Proof. unfold unless_is_dir. by destruct (is_dir (fs w) p); intros [= _ <-]. Qed.

(** [mkdir_p] changes the content of no file, however it ends. *)
Lemma mkdir_p_data p w r w' k :
  mkdir_p E p w = (r, w') → data_at (fs w') k = data_at (fs w) k.
Proof.
  revert w r w'. induction p as [|n q IH]; intros w r w'; rewrite mkdir_p_unfold;
    unfold try_except at 1;
    destruct (os_mkdir E _ w) as [[[]|e] w1] eqn:H1.
  - intros [= _ <-]. by eapply os_mkdir_data.
  - intros H2. rewrite <- (os_mkdir_data _ _ _ _ k H1).
    destruct e; try (by apply unless_is_dir_data in H2 as ->).
    by injection H2 as _ <-.
  - intros [= _ <-]. by eapply os_mkdir_data.
  - intros H2. rewrite <- (os_mkdir_data _ _ _ _ k H1).
    destruct e; try (by apply unless_is_dir_data in H2 as ->).
    unfold bind in H2. destruct (mkdir_p E q w1) as [[[]|e2] w2] eqn:H3.
    + rewrite <- (IH _ _ _ H3). unfold try_except in H2.
      destruct (os_mkdir E (n :: q) w2) as [[[]|e3] w3] eqn:H4.
      * injection H2 as _ <-. by eapply os_mkdir_data.
      * rewrite <- (os_mkdir_data _ _ _ _ k H4).
        destruct e3; try (by apply unless_is_dir_data in H2 as ->).
        by injection H2 as _ <-.
    + injection H2 as _ <-. by eapply IH.
Qed.

Lemma framed_mkdir_p W A p : framed W A (mkdir_p E p).
Proof. intros w r w' H. apply frame_same_data. intros k. by eapply mkdir_p_data. Qed.

Lemma open_for_write_not_nil sc p w perm :
  open_for_write E sc p w = inr perm → p ≠ [].
Proof.
  unfold open_for_write. destruct (fault E sc); [done|]. by destruct p.
Qed.

Lemma framed_write_text W A p text : p ∈ W → framed W A (write_text E p text).
Proof.
  intros Hp w r w'. unfold write_text.
  destruct (open_for_write E _ p w) as [e|perm] eqn:Ho; intros [= _ <-].
  - apply frame_refl.
  - intros k. destruct (decide (k = p)) as [->|Hne]; [by left|].
    right. left. cbn [set_fs fs]. apply data_at_insert_ne; [done|].
    by eapply open_for_write_not_nil.
Qed.

Lemma framed_append_text W A L line : L ∈ A → framed W A (append_text E L line).
Proof.
  intros HL w r w'. unfold append_text.
  destruct (open_for_write E _ L w) as [e|perm] eqn:Ho; intros [= _ <-].
  - apply frame_refl.
  - pose proof (open_for_write_not_nil _ _ _ _ Ho) as Hnil.
    intros k. right. destruct (decide (k = L)) as [->|Hne].
    + right. split; [done|]. exists line. cbn [set_fs fs].
      by rewrite data_at_insert_eq.
    + left. cbn [set_fs fs]. by apply data_at_insert_ne.
Qed.

Lemma framed_stat_mode W A p : framed W A (stat_mode E p).
Proof.
  intros w r w'. unfold stat_mode. destruct (fault E _); [by intros [= _ <-]; apply frame_refl|].
  destruct (node_at (fs w) p) as [[?|??]|]; intros [= _ <-]; apply frame_refl.
Qed.

Lemma data_at_insert_same_data m p v k :
  data_at m p = match v with File _ d => Some d | Dir _ => None end →
  data_at (<[p := v]> m) k = data_at m k.
Proof.
  intros Hp. unfold data_at in *. destruct p as [|n p].
  - destruct k as [|n' k]; [done|]. cbn [node_at]. by rewrite lookup_insert_ne.
  - destruct (decide (n :: p = k)) as [<-|Hne].
    + rewrite node_at_insert_eq by done. rewrite Hp. by destruct v.
    + by rewrite node_at_insert_ne.
Qed.

Lemma framed_chmod W A p mode : framed W A (chmod E p mode).
Proof.
  intros w r w'. unfold chmod.
  destruct (fault E _); [by intros [= _ <-]; apply frame_refl|].
  destruct (node_at (fs w) p) as [[perm|perm d]|] eqn:Hp; intros [= _ <-];
    try apply frame_refl; apply frame_same_data; intros k; cbn [set_fs fs];
    apply data_at_insert_same_data; unfold data_at; by rewrite Hp.
Qed.

Lemma framed_timestamp W A : framed W A (timestamp_utc E).
Proof. intros w r w' [= _ <-]. apply frame_refl. Qed.

Lemma framed_print W A text : framed W A (print text).
Proof. intros w r w' [= _ <-]. apply frame_refl. Qed.




Lemma framed_append_log W A L line : L ∈ A → framed W A (_append_log E L line).
Proof.
  intros HL. apply framed_bind; [apply framed_mkdir_p|].
  intros _. by apply framed_append_text.
Qed.

Lemma framed_log_info W A message : ACTIONS_LOG E ∈ A → framed W A (log_info E message).
Proof.
  intros HA. apply framed_bind; [apply framed_timestamp|]. intros ts.
  apply framed_bind; [by apply framed_append_log|]. intros _. apply framed_print.
Qed.




Lemma framed_zip_tree W A zip_path root : zip_path ∈ W → framed W A (zip_tree E zip_path root).
Proof.
  intros Hz w r w'. unfold zip_tree.
  destruct (open_for_write E _ zip_path w) as [e|perm] eqn:Ho;
    [intros [= _ <-]; apply frame_refl|].
  pose proof (open_for_write_not_nil _ _ _ _ Ho) as Hnil.
  destruct (archive_entries E _ root) as [ens [e|]]; intros [= _ <-];
    intros k; (destruct (decide (k = zip_path)) as [->|Hne]; [by left|]);
    right; left; cbn [set_fs fs]; by rewrite !data_at_insert_ne.
Qed.


End FramedOps.

(** ** The orchestrator *)

Section MainFacts.

Variable E : env.

Lemma bind_assoc {X Y Z} (c : M X) (k : X → M Y) (k' : Y → M Z) w :
  bind (bind c k) k' w = bind c (λ x, bind (k x) k') w.
Proof. unfold bind. by destruct (c w) as [[x|e] w1]. Qed.

(** [main_body] is the sequence of the steps. *)
Lemma main_body_steps root w : main_body E root w = main_steps E root w.
Proof.
  unfold main_body, main_steps, step_permissions, step_logs_dir, step_report.
  unfold bind, glob_sh.
  destruct (create_stack_files E root w) as [[[]|e] w1]; [|done].
  destruct (for_each _ (make_executable E) w1) as [[[]|e] w2]; [|done].
  destruct (make_executable E _ w2) as [[[]|e] w3]; [|done].
  destruct (mkdir_p E _ w3) as [[[]|e] w4]; [|done].
  by destruct (create_zip E root w4) as [[zp|e] w5].
Qed.

Lemma handler_not_ok {X} (c : M unit) e w (x : X) w' :
  bind c (λ _, raise e) w ≠ (Ok x, w').
Proof. unfold bind, raise. by destruct (c w) as [[[]|?] ?]. Qed.

Lemma try_ok_inv {X} (c : M X) (k : exn → M unit) (x : X) w w' :
  try_except c (λ e, bind (k e) (λ _, raise e)) w = (Ok x, w') → c w = (Ok x, w').
Proof.
  unfold try_except. destruct (c w) as [[y|e] w1]; [done|].
  intros H. by apply handler_not_ok in H.
Qed.




Lemma for_each_cons_ok_inv {X} (x : X) xs (f : X → M unit) w w' :
  for_each (x :: xs) f w = (Ok tt, w') →
  ∃ w1, f x w = (Ok tt, w1) ∧ for_each xs f w1 = (Ok tt, w').
Proof.
  cbn [for_each]. intros ([] & w1 & ? & ?)%bind_ok_inv. by exists w1.
Qed.



Lemma target_not_nil t : target t ≠ [].
Proof. by destruct t. Qed.

Lemma target_length t : (length (ROOT_DIR E) + 2 ≤ length (target t ++ stack_root_of E))%nat.
Proof.
  rewrite length_app. unfold stack_root_of, joinpath. cbn [length].
  pose proof (target_not_nil t). destruct (target t); [done|]. cbn [length]. lia.
Qed.

Lemma target_not_direct t n : target t ++ stack_root_of E ≠ ROOT_DIR E /# n.
Proof.
  intros H. pose proof (target_length t) as Hl. rewrite H in Hl.
  unfold joinpath in Hl. cbn [length] in Hl. lia.
Qed.




Lemma zip_not_log : zip_path_of E ∉ logs E.
Proof.
  unfold logs, zip_path_of. rewrite !elem_of_cons, elem_of_nil.
  intros [H|[H|[]]]; by injection H.
Qed.











Lemma log_info_ok_inv message w w' :
  log_info E message w = (Ok tt, w') →
  ∃ ts, data_at (fs w') (ACTIONS_LOG E)
        = Some (default [] (data_at (fs w) (ACTIONS_LOG E)) ++ info_line ts message).
Proof.
  unfold log_info, bind at 1, timestamp_utc.
  intros ([] & w1 & Ha & Hp)%bind_ok_inv. injection Hp as <-. cbn [fs].
  unfold _append_log in Ha. apply bind_ok_inv in Ha as ([] & w2 & Hm & Ha).
  unfold append_text in Ha.
  destruct (open_for_write E _ _ w2) as [e|perm] eqn:Ho; [done|].
  injection Ha as <-. cbn [set_fs fs]. eexists.
  rewrite data_at_insert_eq by done. do 2 f_equal.
  by rewrite (mkdir_p_data E _ _ _ _ _ Hm).
Qed.



End MainFacts.




(** ** A fresh run *)

Section FreshRun.

Variable E : env.
Hypothesis Hfault : ∀ sc, fault E sc = None.

Lemma under_root_not_nil r : r ++ stack_root_of E ≠ [].
Proof. by destruct r. Qed.

Lemma under_root_direct r n :
  r ++ stack_root_of E = ROOT_DIR E /# n → r = [] ∧ n = STACK_DIR_NAME.
Proof.
  destruct r as [|x r]; unfold stack_root_of, joinpath; cbn [app].
  - by intros [= <-].
  - intros [= _ H]. apply (f_equal length) in H. rewrite length_app in H.
    cbn [length] in H. lia.
Qed.

Lemma under_root_not_ROOT r : r ++ stack_root_of E ≠ ROOT_DIR E.
Proof.
  intros H. apply (f_equal length) in H. rewrite length_app in H.
  unfold stack_root_of, joinpath in H. cbn [length] in H. lia.
Qed.

Lemma under_root_not_actions r : r ++ stack_root_of E ≠ ACTIONS_LOG E.
Proof. by intros [_ ?]%under_root_direct. Qed.

Lemma under_root_not_zip r : r ++ stack_root_of E ≠ zip_path_of E.
Proof. by intros [_ ?]%under_root_direct. Qed.

Lemma node_at_under m r :
  node_at m (r ++ stack_root_of E) = m !! (r ++ stack_root_of E).
Proof. by destruct r. Qed.

Lemma tree_of_insert_outside T m k v :
  tree_of E T m → (∀ r, k ≠ r ++ stack_root_of E) → tree_of E T (<[k := v]> m).
Proof. intros HT Hk r. by rewrite lookup_insert_ne. Qed.

Lemma tree_of_insert T m r x :
  tree_of E T m →
  tree_of E (<[r := x]> T) (<[r ++ stack_root_of E := interp E x]> m).
Proof.
  intros HT r'. destruct (decide (r = r')) as [->|Hne].
  - by rewrite !lookup_insert_eq.
  - rewrite !lookup_insert_ne; [done..|]. by intros ?%app_inv_tail.
Qed.

Lemma is_dir_insert m k v q :
  k ≠ [] →
  is_dir (<[k := v]> m) q
  = if decide (k = q) then match v with Dir _ => true | File _ _ => false end
    else is_dir m q.
Proof.
  intros Hk. unfold is_dir. destruct (decide (k = q)) as [<-|Hne].
  - rewrite node_at_insert_eq by done. by destruct v.
  - by rewrite node_at_insert_ne.
Qed.

Lemma run_ready_insert_file m k perm d :
  run_ready E m → k ≠ [] → k ≠ ROOT_DIR E →
  run_ready E (<[k := File perm d]> m).
Proof.
  intros (H1 & H2 & H3) Hk Hr. unfold run_ready.
  rewrite !is_dir_insert by done. rewrite decide_False by done.
  by repeat case_decide.
Qed.

Lemma run_ready_insert_under m r v :
  run_ready E m → run_ready E (<[r ++ stack_root_of E := v]> m).
Proof.
  intros (H1 & H2 & H3). unfold run_ready.
  rewrite !is_dir_insert by apply under_root_not_nil.
  rewrite !decide_False;
    [done | apply under_root_not_zip | apply under_root_not_actions
     | apply under_root_not_ROOT].
Qed.

Lemma log_info_tree T message w :
  tree_of E T (fs w) → run_ready E (fs w) →
  ∃ w', log_info E message w = (Ok tt, w')
        ∧ tree_of E T (fs w') ∧ run_ready E (fs w').
Proof.
  intros HT HR. pose proof HR as (H1 & H2 & H3).
  eexists. split; [by apply log_info_present|]. cbn [fs].
  rewrite appended_present by done. split.
  - apply tree_of_insert_outside; [done|]. intros r H. symmetry in H.
    by apply under_root_not_actions in H.
  - apply run_ready_insert_file; [done..|].
    unfold ACTIONS_LOG, joinpath. intros H. apply (f_equal length) in H.
    cbn [length] in H. lia.
Qed.

Lemma mkdir_p_child p w :
  p ≠ [] → node_at (fs w) p = None → is_dir (fs w) (parent p) = true →
  mkdir_p E p w = (Ok tt, set_fs (insert p (Dir (new_dir_perm E))) w).
Proof.
  intros Hp Hn Hd. rewrite mkdir_p_unfold. unfold try_except, os_mkdir.
  rewrite Hfault, Hn. unfold is_dir in Hd.
  by destruct (node_at (fs w) (parent p)) as [[?|??]|].
Qed.

Lemma mkdir_tree_ok T T1 d w :
  tree_of E T (fs w) → run_ready E (fs w) → mkdir_tree T d = Some T1 →
  ∃ w1, mkdir_p E (d ++ stack_root_of E) w = (Ok tt, w1)
        ∧ tree_of E T1 (fs w1) ∧ run_ready E (fs w1)
        ∧ T1 !! d = Some TDir
        ∧ ∀ r, r ≠ d → T1 !! r = T !! r.
Proof.
  intros HT HR. unfold mkdir_tree.
  destruct (T !! d) as [[|??]|] eqn:Hd; [|done|].
  - intros [= <-]. exists w. split; [|done].
    apply mkdir_p_present; [done|]. unfold is_dir.
    by rewrite node_at_under, HT, Hd.
  - destruct d as [|n d']; [done|].
    destruct (T !! d') as [[|??]|] eqn:Hd'; [|done..].
    intros [= <-]. eexists. split.
    { apply mkdir_p_child.
      - done.
      - change ((n :: d') ++ stack_root_of E) with (n :: d' ++ stack_root_of E).
        cbn [node_at].
        change (n :: d' ++ stack_root_of E) with ((n :: d') ++ stack_root_of E).
        by rewrite HT, Hd.
      - unfold is_dir. cbn [app parent tail]. by rewrite node_at_under, HT, Hd'. }
    cbn [set_fs fs]. split; [by apply (tree_of_insert T _ (n :: d') TDir)|].
    split; [by apply run_ready_insert_under|].
    split; [by rewrite lookup_insert_eq|].
    intros r Hr. by rewrite lookup_insert_ne.
Qed.

Lemma safe_write_tree T T' t w :
  tree_of E T (fs w) → run_ready E (fs w) → write_tree T t = Some T' →
  ∃ w', safe_write E (target t ++ stack_root_of E) (template E t) w = (Ok tt, w')
        ∧ tree_of E T' (fs w') ∧ run_ready E (fs w').
Proof.
  intros HT HR. unfold write_tree.
  destruct (target t) as [|n d] eqn:Htgt; [done|].
  destruct (mkdir_tree T d) as [T1|] eqn:Hmk; [|done].
  destruct (T1 !! (n :: d)) eqn:Hnd; [done|]. intros [= <-].
  destruct (mkdir_tree_ok _ _ _ _ HT HR Hmk) as (w1 & Hrun1 & HT1 & HR1 & Hd1 & _).
  set (p := (n :: d) ++ stack_root_of E).
  assert (Hw : write_text E p (normalize (template E t)) w1
               = (Ok tt, set_fs (insert p (interp E (TFile t false))) w1)).
  { unfold write_text. rewrite (open_for_write_ok E _ p (fs w1)); try done.
    - unfold perm_for_write, p. by rewrite node_at_under, HT1, Hnd.
    - unfold is_dir, p. by rewrite node_at_under, HT1, Hnd.
    - unfold is_dir, p. cbn [app parent tail]. by rewrite node_at_under, HT1, Hd1. }
  destruct (log_info_tree (<[n :: d := TFile t false]> T1)
              (lit "Wrote file: " ++ path_str p)
              (set_fs (insert p (interp E (TFile t false))) w1))
    as (w' & Hlog & HT' & HR').
  { cbn [set_fs fs]. by apply tree_of_insert. }
  { cbn [set_fs fs]. by apply run_ready_insert_under. }
  exists w'. split; [|done].
  unfold safe_write. apply try_ok. fold p.
  change (parent p) with (d ++ stack_root_of E).
  rewrite (bind_ok _ _ _ _ _ Hrun1).
  fold (normalize (template E t)). by rewrite (bind_ok _ _ _ _ _ Hw).
Qed.

Lemma writes_tree ts T T' w :
  tree_of E T (fs w) → run_ready E (fs w) → write_trees T ts = Some T' →
  ∃ w', for_each ts (λ t, safe_write E (target t ++ stack_root_of E) (template E t)) w
        = (Ok tt, w')
        ∧ tree_of E T' (fs w') ∧ run_ready E (fs w').
Proof.
  revert T w. induction ts as [|t ts IH]; intros T w HT HR; cbn [write_trees].
  - intros [= <-]. by exists w.
  - destruct (write_tree T t) as [T1|] eqn:Ht; [|done]. intros Hts.
    destruct (safe_write_tree _ _ _ _ HT HR Ht) as (w1 & H1 & HT1 & HR1).
    destruct (IH _ _ HT1 HR1 Hts) as (w' & H' & HT' & HR').
    exists w'. split; [|done]. cbn [for_each]. by rewrite (bind_ok _ _ _ _ _ H1).
Qed.

Lemma make_executable_tree T r t w :
  tree_of E T (fs w) → run_ready E (fs w) → T !! r = Some (TFile t false) →
  ∃ w', make_executable E (r ++ stack_root_of E) w = (Ok tt, w')
        ∧ tree_of E (<[r := TFile t true]> T) (fs w') ∧ run_ready E (fs w').
Proof.
  intros HT HR Hr.
  assert (node_at (fs w) (r ++ stack_root_of E)
          = Some (File (new_file_perm E) (normalize (template E t)))) as Hn.
  { by rewrite node_at_under, HT, Hr. }
  destruct (log_info_tree (<[r := TFile t true]> T)
              (lit "Marked executable: " ++ path_str (r ++ stack_root_of E))
              (set_fs (insert (r ++ stack_root_of E) (interp E (TFile t true))) w))
    as (w' & Hlog & HT' & HR').
  { cbn [set_fs fs]. by apply tree_of_insert. }
  { cbn [set_fs fs]. by apply run_ready_insert_under. }
  exists w'. split; [|done].
  unfold make_executable. apply try_ok.
  unfold bind at 1, stat_mode. rewrite Hfault, Hn.
  unfold bind at 1, chmod. rewrite Hfault, Hn. exact Hlog.
Qed.

(** Marking a list of distinct files of the tree, in any order. *)
Lemma make_executable_all (rs : list path) T w :
  NoDup rs →
  (∀ r, r ∈ rs → ∃ t, T !! r = Some (TFile t false)) →
  tree_of E T (fs w) → run_ready E (fs w) →
  ∃ w' T', for_each ((λ r, r ++ stack_root_of E) <$> rs) (make_executable E) w
           = (Ok tt, w')
           ∧ tree_of E T' (fs w') ∧ run_ready E (fs w')
           ∧ ∀ r, T' !! r = if decide (r ∈ rs) then mark <$> T !! r else T !! r.
Proof.
  revert T w. induction rs as [|r0 rs IH]; intros T w Hnd Hfiles HT HR.
  - exists w, T. split; [done|]. split; [done|]. split; [done|].
    intros r. rewrite decide_False; [done|]. by intros ?%elem_of_nil.
  - apply NoDup_cons in Hnd as [Hnot Hnd].
    destruct (Hfiles r0) as [t0 Hr0]; [by left|].
    destruct (make_executable_tree _ _ _ _ HT HR Hr0) as (w1 & H1 & HT1 & HR1).
    destruct (IH (<[r0 := TFile t0 true]> T) w1 Hnd) as (w' & T' & H' & HT' & HR' & Hlk);
      [|done..|].
    { intros r Hr. destruct (Hfiles r) as [t Ht]; [by right|]. exists t.
      rewrite lookup_insert_ne; [done|]. by intros ->. }
    exists w', T'. split; [|split; [done|split; [done|]]].
    + rewrite fmap_cons. cbn [for_each]. by rewrite (bind_ok _ _ _ _ _ H1).
    + intros r. rewrite Hlk. destruct (decide (r = r0)) as [->|Hne].
      * rewrite decide_False by done. rewrite decide_True by (by left).
        by rewrite lookup_insert_eq, Hr0.
      * rewrite lookup_insert_ne by done.
        destruct (decide (r ∈ rs)) as [Hin|Hin].
        -- rewrite decide_True; [done | by right].
        -- rewrite decide_False; [done|]. by intros [?|?]%elem_of_cons.
Qed.

Lemma glob_sh_tree T w :
  tree_of E T (fs w) → T !! ["scripts"] = Some TDir →
  ∃ rs, glob_sh (stack_root_of E /# "scripts") w
        = (Ok ((λ r, r ++ stack_root_of E) <$> rs), w)
        ∧ NoDup rs
        ∧ ∀ r, r ∈ rs ↔ is_Some (T !! r) ∧ is_sh_script r = true.
Proof.
  intros HT Hs. unfold glob_sh.
  assert (is_dir (fs w) (stack_root_of E /# "scripts") = true) as ->.
  { unfold is_dir, joinpath. cbn [node_at].
    change ("scripts"%string :: stack_root_of E) with (["scripts"%string] ++ stack_root_of E).
    by rewrite HT, Hs. }
  set (P := λ p : path, p ≠ [] ∧ parent p = stack_root_of E /# "scripts"
                        ∧ endswith (lit (name p)) (lit ".sh") = true).
  set (shs := filter P (map fst (map_to_list (fs w)))).
  assert (Hshape : ∀ p, P p ↔ ∃ n, p = [n; "scripts"%string] ++ stack_root_of E
                                    ∧ endswith (lit n) (lit ".sh") = true).
  { intros p. unfold P. split.
    - intros (Hp & Hpar & Hend). destruct p as [|n q]; [done|].
      cbn [parent tail name hd] in *. subst q. by exists n.
    - intros (n & -> & Hend). done. }
  exists (take 2 <$> shs). split; [|split].
  - do 2 f_equal. rewrite <- list_fmap_compose.
    rewrite <- (list_fmap_id shs) at 1. apply Forall_fmap_ext, Forall_forall.
    intros p [HP _]%list_elem_of_filter. apply Hshape in HP as (n & -> & _). done.
  - apply NoDup_fmap_2_strong; [|apply NoDup_filter, NoDup_fst_map_to_list].
    intros p1 p2 [(n1 & -> & _)%Hshape _]%list_elem_of_filter
      [(n2 & -> & _)%Hshape _]%list_elem_of_filter.
    change (take 2 ([n1; "scripts"%string] ++ stack_root_of E))
      with [n1; "scripts"%string].
    change (take 2 ([n2; "scripts"%string] ++ stack_root_of E))
      with [n2; "scripts"%string].
    by intros [= ->].
  - intros r. rewrite list_elem_of_fmap. split.
    + intros (p & -> & [(n & -> & Hend)%Hshape Hin]%list_elem_of_filter).
      change (take 2 ([n; "scripts"%string] ++ stack_root_of E))
        with [n; "scripts"%string].
      cbn [is_sh_script]. rewrite bool_decide_eq_true_2 by done.
      split; [|done].
      apply list_elem_of_fmap in Hin as ([p x] & Hp & Hin). cbn [fst] in Hp. subst p.
      apply elem_of_map_to_list in Hin.
      change (n :: "scripts"%string :: stack_root_of E)
        with ([n; "scripts"%string] ++ stack_root_of E) in Hin.
      rewrite HT in Hin.
      destruct (T !! [n; "scripts"%string]); [by eexists | done].
    + intros [[x Hx] Hsh]. unfold is_sh_script in Hsh.
      destruct r as [|n [|d [|??]]]; try done.
      apply andb_true_iff in Hsh as [->%bool_decide_eq_true Hend].
      exists ([n; "scripts"%string] ++ stack_root_of E). split; [done|].
      apply list_elem_of_filter. split; [apply Hshape; by exists n|].
      apply (list_elem_of_fmap_2' fst _ ([n; "scripts"%string] ++ stack_root_of E, interp E x));
        [|done].
      apply elem_of_map_to_list. by rewrite HT, Hx.
Qed.

(** Two trees with the same list of bindings are the same tree; the
    lists are short, the tries behind the maps are not. *)
Lemma tree_eq_by_list (o : option (gmap path tnode)) (T : gmap path tnode) :
  map_to_list <$> o = Some (map_to_list T) → o = Some T.
Proof.
  destruct o as [T'|]; [|done]. intros [= H]. f_equal.
  by rewrite <- (list_to_map_to_list T'), H, list_to_map_to_list.
Qed.

Lemma write_trees_catalog : write_trees (<[[] := TDir]> ∅) catalog = Some files_tree.
Proof. apply tree_eq_by_list. vm_compute. reflexivity. Qed.

Lemma marked_tree_install : marked_tree !! ["install.sh"] = Some (TFile InstallSh false).
Proof. vm_compute. reflexivity. Qed.

Lemma files_tree_scripts_dir : files_tree !! ["scripts"] = Some TDir.
Proof. vm_compute. reflexivity. Qed.

Lemma mkdir_tree_logs :
  mkdir_tree (<[["install.sh"] := TFile InstallSh true]> marked_tree) ["logs"]
  = Some final_tree.
Proof. apply tree_eq_by_list. vm_compute. reflexivity. Qed.

Lemma files_tree_scripts r x :
  files_tree !! r = Some x → is_sh_script r = true → ∃ t, x = TFile t false.
Proof.
  intros H%elem_of_list_to_map_2 Hsh. cbn in H.
  rewrite !elem_of_cons, elem_of_nil in H.
  repeat (destruct H as [H|H];
          [injection H as -> ->; first [by vm_compute in Hsh | by eexists]|]).
  done.
Qed.

Lemma is_dir_frame m m' p :
  (p ≠ [] → m' !! p = m !! p) → is_dir m' p = is_dir m p.
Proof.
  unfold is_dir. destruct p as [|n p]; [done|]. cbn [node_at].
  intros H. by rewrite H.
Qed.

Lemma is_file_frame m m' p :
  (p ≠ [] → m' !! p = m !! p) → is_file m' p = is_file m p.
Proof.
  unfold is_file. destruct p as [|n p]; [done|]. cbn [node_at].
  intros H. by rewrite H.
Qed.

Lemma step_report_tree T zip_path w :
  tree_of E T (fs w) → run_ready E (fs w) →
  ∃ w', step_report E (stack_root_of E) zip_path w = (Ok tt, w')
        ∧ tree_of E T (fs w') ∧ run_ready E (fs w')
        ∧ fs w' !! zip_path_of E = fs w !! zip_path_of E.
Proof.
  intros HT HR. unfold step_report.
  assert (Hstep : ∀ message w0,
            tree_of E T (fs w0) → run_ready E (fs w0) →
            ∃ w1, log_info E message w0 = (Ok tt, w1)
                  ∧ tree_of E T (fs w1) ∧ run_ready E (fs w1)
                  ∧ fs w1 !! zip_path_of E = fs w0 !! zip_path_of E).
  { intros message w0 HT0 HR0.
    destruct (log_info_tree T message w0 HT0 HR0) as (w1 & Hl & HT1 & HR1).
    exists w1. split; [done|]. split; [done|]. split; [done|].
    destruct HR0 as (H1 & H2 & _).
    rewrite (log_info_present E message w0) in Hl by done.
    injection Hl as <-. cbn [fs]. rewrite appended_present by done.
    by rewrite lookup_insert_ne. }
  destruct (Hstep (lit "Stack files generation complete for " ++ VERSION ++ lit ".")
              w HT HR) as (w1 & H1 & HT1 & HR1 & Hz1).
  destruct (Hstep (lit "Root directory: " ++ path_str (stack_root_of E))
              w1 HT1 HR1) as (w2 & H2 & HT2 & HR2 & Hz2).
  destruct (Hstep (lit "ZIP archive: " ++ path_str zip_path)
              w2 HT2 HR2) as (w3 & H3 & HT3 & HR3 & Hz3).
  eexists. split.
  { rewrite (bind_ok _ _ _ _ _ H1), (bind_ok _ _ _ _ _ H2), (bind_ok _ _ _ _ _ H3).
    reflexivity. }
  cbn [fs]. split; [done|]. split; [done|]. congruence.
Qed.

(** A fresh run goes through, and leaves the tree [final_tree] below
    the stack root and the archive beside it. *)
Lemma fresh_main w :
  run_ready E (fs w) →
  (∀ r, fs w !! (r ++ stack_root_of E) = None) →
  ∃ w', main E w = (Ok tt, w')
        ∧ tree_of E final_tree (fs w')
        ∧ is_file (fs w') (zip_path_of E) = true.
Proof.
  intros HR Hfresh.
  assert (tree_of E ∅ (fs w)) as HT.
  { intros r. by rewrite lookup_empty, Hfresh. }
  (* the prelude *)
  destruct (log_info_tree ∅ (lit "Generating stack version " ++ VERSION ++ lit " in "
                             ++ path_str (ROOT_DIR E)) w HT HR)
    as (w1 & H1 & HT1 & HR1).
  assert (exists_ (stack_root_of E) w1 = (Ok false, w1)) as Hex.
  { unfold exists_. rewrite (node_at_under _ []), HT1. done. }
  assert (mkdir_p E (stack_root_of E) w1
          = (Ok tt, set_fs (insert (stack_root_of E) (Dir (new_dir_perm E))) w1)) as Hmk.
  { apply mkdir_p_child; [done| |apply HR1].
    rewrite (node_at_under _ []), HT1. done. }
  destruct (log_info_tree (<[[] := TDir]> ∅)
              (lit "Created stack root directory: " ++ path_str (stack_root_of E))
              (set_fs (insert (stack_root_of E) (Dir (new_dir_perm E))) w1))
    as (w3 & H3 & HT3 & HR3).
  { cbn [set_fs fs]. apply (tree_of_insert ∅ _ [] TDir HT1). }
  { cbn [set_fs fs]. apply (run_ready_insert_under _ [] _ HR1). }
  assert (main_prelude E (stack_root_of E) w = (Ok tt, w3)) as Hpre.
  { unfold main_prelude. rewrite (bind_ok _ _ _ _ _ H1), (bind_ok _ _ _ _ _ Hex).
    by rewrite (bind_ok _ _ _ _ _ Hmk). }
  (* the templates *)
  destruct (writes_tree catalog _ _ w3 HT3 HR3 write_trees_catalog)
    as (w4 & H4 & HT4 & HR4).
  (* the permissions *)
  destruct (glob_sh_tree _ w4 HT4 files_tree_scripts_dir) as (rs & Hglob & Hnd & Hrs).
  destruct (make_executable_all rs files_tree w4 Hnd) as (w5 & T5 & H5 & HT5 & HR5 & Hlk);
    [|done..|].
  { intros r [[x Hx] Hsh]%Hrs. destruct (files_tree_scripts r x Hx Hsh) as [t ->].
    by exists t. }
  assert (T5 = marked_tree) as ->.
  { apply map_eq. intros r. rewrite Hlk. unfold marked_tree.
    rewrite map_lookup_imap.
    destruct (files_tree !! r) as [x|] eqn:Hx; cbn; [|by case_decide].
    destruct (is_sh_script r) eqn:Hsh.
    - rewrite decide_True; [done|]. apply Hrs. by split; [eexists|].
    - rewrite decide_False; [done|]. intros [_ ?]%Hrs. congruence. }
  destruct (make_executable_tree _ ["install.sh"] InstallSh w5 HT5 HR5 marked_tree_install)
    as (w6 & H6 & HT6 & HR6).
  assert (step_permissions E (stack_root_of E) w4 = (Ok tt, w6)) as Hperm.
  { unfold step_permissions. rewrite (bind_ok _ _ _ _ _ Hglob).
    by rewrite (bind_ok _ _ _ _ _ H5). }
  (* the logs directory *)
  destruct (mkdir_tree_ok _ _ _ w6 HT6 HR6 mkdir_tree_logs)
    as (w7 & H7 & HT7 & HR7 & _).
  (* the archive *)
  pose proof HR7 as (Hr1 & Hr2 & Hr3).
  destruct (create_zip_ok E STACK_DIR_NAME w7)
    as (w8 & perm & ens & H8 & _ & _ & Hzip & _ & _ & Hact & Hframe); try done.
  assert (tree_of E final_tree (fs w8)) as HT8.
  { intros r. rewrite Hframe; [apply HT7| |].
    - apply under_root_not_zip.
    - apply under_root_not_actions. }
  assert (run_ready E (fs w8)) as HR8.
  { split; [|split; [done|]].
    - assert (∀ x, ROOT_DIR E ≠ ROOT_DIR E /# x) as Hne.
      { intros x H. apply (f_equal length) in H. unfold joinpath in H.
        cbn [length] in H. lia. }
      rewrite (is_dir_frame (fs w7)); [done|]. intros _. apply Hframe; apply Hne.
    - unfold is_dir. fold (zip_path_of E) in Hzip. by rewrite Hzip. }
  destruct (step_report_tree final_tree (zip_path_of E) w8 HT8 HR8)
    as (w9 & H9 & HT9 & _ & Hz9).
  exists w9. split; [|split; [done|]].
  - unfold main. fold (stack_root_of E). rewrite (bind_ok _ _ _ _ _ Hpre).
    apply try_ok. rewrite main_body_steps. unfold main_steps.
    fold (create_stack_files E (stack_root_of E)) in H4.
    rewrite (bind_ok _ _ _ _ _ H4), (bind_ok _ _ _ _ _ Hperm).
    unfold step_logs_dir. rewrite (bind_ok _ _ _ _ _ H7).
    by rewrite (bind_ok _ _ _ _ _ H8).
  - rewrite (is_file_frame (fs w8)); [|intros _; exact Hz9].
    unfold is_file, zip_path_of. by rewrite Hzip.
Qed.

End FreshRun.

Section Layout.

Variable E : env.

Lemma final_tree_Some r x :
  final_tree !! r = Some x →
  (x = TDir ∧ r ∈ [[]; ["scripts"]; ["logs"]])
  ∨ ∃ t, r = target t ∧ x = TFile t (exec_flag t).
Proof.
  intros H%elem_of_list_to_map_2.
  apply elem_of_app in H as [H|H].
  - left. rewrite !elem_of_cons, elem_of_nil in H.
    destruct H as [[= -> ->]|[[= -> ->]|[[= -> ->]|[]]]];
      (split; [done|]); rewrite !elem_of_cons; tauto.
  - right. apply list_elem_of_fmap in H as (t & [= -> ->] & _). by exists t.
Qed.

Lemma final_tree_target t : final_tree !! target t = Some (TFile t (exec_flag t)).
Proof. destruct t; vm_compute; reflexivity. Qed.

Lemma final_tree_dirs r :
  r ∈ [[]; ["scripts"]; ["logs"]] → final_tree !! r = Some TDir.
Proof.
  rewrite !elem_of_cons, elem_of_nil.
  intros [->|[->|[->|[]]]]; vm_compute; reflexivity.
Qed.

Lemma target_not_dir t : target t ∉ [[]; ["scripts"]; ["logs"]].
Proof.
  rewrite !elem_of_cons, elem_of_nil. intros [H|[H|[H|[]]]]; by destruct t.
Qed.

Lemma layout_files :
  top_level_scripts ++ subsystem_scripts ++ manifest_files ++ documentation_files
  = target <$> [InstallSh; CommonSh; InstallLlmSh; InstallImageGenSh; InstallTtsSh;
                DownloadOllamaModelsSh; HealthCheckSh; CleanStackSh; SetupOauthSh;
                DockerComposeYml; ReadmeMd; ChangelogMd; SessionRestartMd].
Proof. reflexivity. Qed.

Lemma layout_scripts :
  top_level_scripts ++ subsystem_scripts
  = target <$> [InstallSh; CommonSh; InstallLlmSh; InstallImageGenSh; InstallTtsSh;
                DownloadOllamaModelsSh; HealthCheckSh; CleanStackSh; SetupOauthSh].
Proof. reflexivity. Qed.

Lemma target_in_layout t :
  target t ∈ top_level_scripts ++ subsystem_scripts ++ manifest_files
             ++ documentation_files.
Proof.
  rewrite layout_files. apply list_elem_of_fmap_2.
  destruct t; rewrite !elem_of_cons; tauto.
Qed.

Lemma chmod_x_exec perm :
  Z.testbit (chmod_x perm) 6 = true
  ∧ Z.testbit (chmod_x perm) 3 = true
  ∧ Z.testbit (chmod_x perm) 0 = true.
Proof.
  rewrite !chmod_x_bits by lia. cbn. by rewrite !orb_true_r.
Qed.

(** C5. A fresh run in which nothing is refused ends with status 0 and
    leaves, below the stack root: exactly one top-level script, eight
    scripts in the directory [scripts], one manifest and three
    documentation files, and no other file; the directories [scripts]
    and [logs] and no other directory, [logs] being empty; the execute
    bits of owner, group and other set on the nine scripts; and an
    archive in the directory that holds the stack root. *)
Theorem fresh_run_layout w :
  (∀ sc, fault E sc = None) →
  is_dir (fs w) (ROOT_DIR E) = true →
  is_dir (fs w) (ACTIONS_LOG E) = false →
  is_dir (fs w) (zip_path_of E) = false →
  (∀ r, fs w !! (r ++ stack_root_of E) = None) →
  ∃ w',
    script E w = (0, w')
    ∧ (length top_level_scripts = 1 ∧ length subsystem_scripts = 8
       ∧ length manifest_files = 1 ∧ length documentation_files = 3)%nat
    ∧ (∀ r, r ∈ subsystem_scripts → parent r = ["scripts"])
    ∧ (∀ r, r ∈ top_level_scripts ++ manifest_files ++ documentation_files →
            parent r = [])
    ∧ (∀ r, is_file (fs w') (r ++ stack_root_of E) = true
            ↔ r ∈ top_level_scripts ++ subsystem_scripts ++ manifest_files
                  ++ documentation_files)
    ∧ (∀ r, is_dir (fs w') (r ++ stack_root_of E) = true
            ↔ r ∈ [[]; ["scripts"]; ["logs"]])
    ∧ (∀ r, r ≠ [] → fs w' !! (r ++ ["logs"] ++ stack_root_of E) = None)
    ∧ (∀ r, r ∈ top_level_scripts ++ subsystem_scripts →
            ∃ perm d, fs w' !! (r ++ stack_root_of E) = Some (File perm d)
                      ∧ Z.testbit perm 6 = true
                      ∧ Z.testbit perm 3 = true
                      ∧ Z.testbit perm 0 = true)
    ∧ is_file (fs w') (zip_path_of E) = true
    ∧ parent (zip_path_of E) = parent (stack_root_of E).
Proof.
  intros Hfault H1 H2 H3 Hfresh.
  destruct (fresh_main E Hfault w (conj H1 (conj H2 H3)) Hfresh)
    as (w' & Hmain & HT & Hzip).
  exists w'. split; [unfold script; by rewrite Hmain|].
  split; [done|]. split.
  { intros r. unfold subsystem_scripts. cbn. rewrite !elem_of_cons, elem_of_nil.
    intros H. repeat (destruct H as [->|H]; [done|]). done. }
  split.
  { intros r. cbn. rewrite !elem_of_cons, elem_of_nil.
    intros H. repeat (destruct H as [->|H]; [done|]). done. }
  split; [|split; [|split; [|split; [|done]]]].
  - intros r. unfold is_file. rewrite node_at_under, HT. split.
    + destruct (final_tree !! r) as [x|] eqn:Hx; [|done].
      apply final_tree_Some in Hx as [[-> _]|(t & -> & ->)]; [done|].
      intros _. apply target_in_layout.
    + rewrite layout_files. intros (t & -> & _)%list_elem_of_fmap.
      rewrite final_tree_target. cbn. by destruct (exec_flag t).
  - intros r. unfold is_dir. rewrite node_at_under, HT. split.
    + destruct (final_tree !! r) as [x|] eqn:Hx; [|done].
      apply final_tree_Some in Hx as [[-> Hr]|(t & -> & ->)]; [done|].
      cbn. by destruct (exec_flag t).
    + intros Hr. by rewrite (final_tree_dirs r Hr).
  - intros r Hr. rewrite app_assoc, HT.
    destruct (final_tree !! (r ++ ["logs"])) as [x|] eqn:Hx; [|done].
    exfalso. apply final_tree_Some in Hx as [[_ Hin]|(t & Ht & _)].
    + rewrite !elem_of_cons, elem_of_nil in Hin.
      destruct r as [|a [|b r]]; [done|..];
        destruct Hin as [Hin|[Hin|[Hin|[]]]]; discriminate Hin.
    + destruct r as [|a [|b [|c r]]]; [done|..]; destruct t; discriminate Ht.
  - rewrite layout_scripts. intros r (t & -> & Ht)%list_elem_of_fmap.
    rewrite HT, final_tree_target.
    assert (exec_flag t = true) as ->.
    { rewrite !elem_of_cons, elem_of_nil in Ht.
      repeat (destruct Ht as [->|Ht]; [reflexivity|]). done. }
    cbn. eexists _, _. split; [done|]. apply chmod_x_exec.
Qed.

End Layout.

Lemma fresh_run_layout_witness :
  ∃ w', script sample_env generator_world = (0, w')
        ∧ is_file (fs w') (target InstallSh ++ stack_root_of sample_env) = true
        ∧ is_file (fs w') (zip_path_of sample_env) = true.
Proof.
  destruct (fresh_run_layout sample_env generator_world)
    as (w' & Hrun & _ & _ & _ & Hfiles & _ & _ & _ & Hzip & _).
  - intros sc. reflexivity.
  - vm_compute. reflexivity.
  - vm_compute. reflexivity.
  - vm_compute. reflexivity.
  - intros r. cbn [generator_world fs].
    rewrite !lookup_insert_ne, lookup_empty; [reflexivity|..];
      intros H; apply (f_equal length) in H; rewrite length_app in H;
      cbn [length stack_root_of joinpath ROOT_DIR sample_env] in H; lia.
  - exists w'. split; [exact Hrun|]. split; [|exact Hzip].
    apply Hfiles. apply target_in_layout.
Defined.

(** ** Failures *)

Lemma run_raise {X} (c : M X) w e : (c w).1 = Raise e → c w = (Raise e, (c w).2).
Proof. destruct (c w) as [r w']. cbn. by intros ->. Qed.

Lemma for_each_app_raise {X} (pre : list X) x post (f : X → M unit) w w1 e w2 :
  for_each pre f w = (Ok tt, w1) →
  f x w1 = (Raise e, w2) →
  for_each (pre ++ x :: post) f w = (Raise e, w2).
Proof.
  revert w. induction pre as [|y pre IH]; intros w Hpre Hx.
  - injection Hpre as <-. cbn [app for_each]. by apply bind_raise.
  - apply for_each_cons_ok_inv in Hpre as (w' & Hy & Hpre).
    cbn [app for_each]. erewrite bind_ok by exact Hy. by apply IH.
Qed.

Section Failures.

Variable E : env.
Hypothesis Hmk : fault E (SysMkdir (ROOT_DIR E)) = None.
Hypothesis Hap : fault E (SysOpenAppend (ERRORS_LOG E)) = None.

(** The [except] clause of a failing operation appends its record and
    raises the exception again. *)
Lemma perform_raise c w exc w' :
  raises_in E c w exc w' →
  is_dir (fs w') (ROOT_DIR E) = true →
  is_dir (fs w') (ERRORS_LOG E) = false →
  perform E c w = (Raise exc, logged_error E (failure_message E c exc) w').
Proof.
  intros Hr Hd Hnd.
  pose proof (log_error_present E (failure_message E c exc) w' Hmk Hap Hd Hnd) as Hlog.
  cbv zeta in Hlog.
  destruct c as [p content|p|root]; cbn [raises_in perform] in *.
  - unfold safe_write. erewrite try_raise by exact Hr.
    by erewrite bind_ok by exact Hlog.
  - unfold make_executable. erewrite try_raise by exact Hr.
    by erewrite bind_ok by exact Hlog.
  - apply bind_raise. unfold create_zip. erewrite try_raise by exact Hr.
    by erewrite bind_ok by exact Hlog.
Qed.

(** The body of [main] stops at the operation that raises. *)
Lemma reaches_raise root w0 c w1 exc w' :
  reaches E root w0 c w1 →
  perform E c w1 = (Raise exc, w') →
  main_body E root w0 = (Raise exc, w').
Proof.
  intros Hreach Hc. rewrite main_body_steps. unfold main_steps.
  destruct Hreach as [pre t post w1 Hcat Hpre
                     |w1 pre p post w2 w3 Hfiles Hglob Hpre
                     |w1 shs w2 w3 Hfiles Hglob Hall
                     |w1 w2 w3 Hfiles Hperm Hlogs]; cbn [perform] in Hc.
  - apply bind_raise. unfold create_stack_files. rewrite Hcat.
    by eapply for_each_app_raise.
  - erewrite bind_ok by exact Hfiles. apply bind_raise.
    unfold step_permissions. erewrite bind_ok by exact Hglob.
    apply bind_raise. by eapply for_each_app_raise.
  - erewrite bind_ok by exact Hfiles. apply bind_raise.
    unfold step_permissions. erewrite bind_ok by exact Hglob.
    by erewrite bind_ok by exact Hall.
  - erewrite bind_ok by exact Hfiles. erewrite bind_ok by exact Hperm.
    erewrite bind_ok by exact Hlogs.
    apply bind_raise. unfold bind, ret in Hc.
    destruct (create_zip E root w3) as [[zp|e] w4]; [discriminate Hc | by injection Hc as -> ->].
Qed.

Lemma errors_log_not_root : ERRORS_LOG E ≠ ROOT_DIR E.
Proof.
  intros H. apply (f_equal length) in H. unfold ERRORS_LOG in H. cbn in H. lia.
Qed.

Lemma logged_error_fs message w :
  is_dir (fs w) (ROOT_DIR E) = true →
  fs (logged_error E message w)
  = <[ERRORS_LOG E :=
        File (perm_for_write E (fs w) (ERRORS_LOG E))
             (default [] (data_at (fs w) (ERRORS_LOG E))
              ++ error_line E (strftime (clock E (ticks w))) message)]> (fs w).
Proof. intros Hd. unfold logged_error. cbn [fs]. by apply appended_present. Qed.

(** After a record is logged the errors log is ready for the next. *)
Lemma logged_error_ready message w :
  is_dir (fs w) (ROOT_DIR E) = true →
  is_dir (fs (logged_error E message w)) (ROOT_DIR E) = true
  ∧ is_dir (fs (logged_error E message w)) (ERRORS_LOG E) = false.
Proof.
  intros Hd. rewrite logged_error_fs by done. unfold is_dir in *. split.
  - rewrite node_at_insert_ne; [done|apply errors_log_not_root|done].
  - by rewrite node_at_insert_eq.
Qed.

Lemma main_handler_raise exc w :
  is_dir (fs w) (ROOT_DIR E) = true →
  is_dir (fs w) (ERRORS_LOG E) = false →
  main_handler E exc w = (Raise exc, logged_error E (unhandled_message E exc) w).
Proof.
  intros Hd Hnd.
  pose proof (log_error_present E (unhandled_message E exc) w Hmk Hap Hd Hnd) as Hlog.
  cbv zeta in Hlog. unfold main_handler.
  by erewrite bind_ok by exact Hlog.
Qed.

End Failures.

(** C4. When the body of [main] comes to a file write, a permission
    change or the archive step, every earlier step having returned, and
    the operation raises [exc] at a point where the errors log can be
    appended to, then: the operation appends exactly one record to the
    errors log, whose message names the path it worked on and the text
    of [exc], touches nothing else, and raises [exc] again; the body of
    [main] ends there with [exc], in the world the failing operation
    left, so no later step has run; the handler of [main] adds its own
    record of the unhandled exception and raises [exc] once more; and
    the process ends with exit status 1. *)
Theorem failing_step_aborts_run E w w0 c w1 exc w2 :
  fault E (SysMkdir (ROOT_DIR E)) = None →
  fault E (SysOpenAppend (ERRORS_LOG E)) = None →
  main_prelude E (stack_root_of E) w = (Ok tt, w0) →
  reaches E (stack_root_of E) w0 c w1 →
  raises_in E c w1 exc w2 →
  is_dir (fs w2) (ROOT_DIR E) = true →
  is_dir (fs w2) (ERRORS_LOG E) = false →
  ∃ w3 w4 ts ts' what,
    perform E c w1 = (Raise exc, w3)
    ∧ failure_message E c exc
      = what ++ path_str (subject E c) ++ lit ": " ++ exc_text E exc
    ∧ data_at (fs w3) (ERRORS_LOG E)
      = Some (default [] (data_at (fs w2) (ERRORS_LOG E))
              ++ error_line E ts (failure_message E c exc))
    ∧ (∀ k, k ≠ ERRORS_LOG E → fs w3 !! k = fs w2 !! k)
    ∧ stdout w3 = stdout w2
    ∧ main_body E (stack_root_of E) w0 = (Raise exc, w3)
    ∧ main E w = (Raise exc, w4)
    ∧ data_at (fs w4) (ERRORS_LOG E)
      = Some (default [] (data_at (fs w2) (ERRORS_LOG E))
              ++ error_line E ts (failure_message E c exc)
              ++ error_line E ts' (unhandled_message E exc))
    ∧ (∀ k, k ≠ ERRORS_LOG E → fs w4 !! k = fs w2 !! k)
    ∧ stdout w4 = stdout w2
    ∧ (script E w).1 = 1.
Proof.
  intros Hmk Hap Hpre Hreach Hraise Hd Hnd.
  set (w3 := logged_error E (failure_message E c exc) w2).
  set (w4 := logged_error E (unhandled_message E exc) w3).
  pose proof (perform_raise E Hmk Hap c w1 exc w2 Hraise Hd Hnd) as Hc.
  pose proof (reaches_raise E _ _ _ _ _ _ Hreach Hc) as Hbody.
  destruct (logged_error_ready E (failure_message E c exc) w2 Hd) as [Hd3 Hnd3].
  assert (main E w = (Raise exc, w4)) as Hmain.
  { unfold main. erewrite bind_ok by exact Hpre.
    erewrite try_raise by exact Hbody.
    by apply main_handler_raise. }
  assert (ERRORS_LOG E ≠ []) as Hne by done.
  exists w3, w4, (strftime (clock E (ticks w2))), (strftime (clock E (ticks w3))),
    (failure_prefix c).
  split; [exact Hc|]. split; [done|].
  assert (data_at (fs w3) (ERRORS_LOG E)
          = Some (default [] (data_at (fs w2) (ERRORS_LOG E))
                  ++ error_line E (strftime (clock E (ticks w2)))
                       (failure_message E c exc))) as Hdata3.
  { unfold w3. rewrite logged_error_fs by done. by rewrite data_at_insert_eq. }
  split; [exact Hdata3|].
  assert (∀ k, k ≠ ERRORS_LOG E → fs w3 !! k = fs w2 !! k) as Hframe3.
  { intros k Hk. unfold w3. rewrite logged_error_fs by done.
    by rewrite lookup_insert_ne. }
  split; [exact Hframe3|]. split; [done|]. split; [exact Hbody|].
  split; [exact Hmain|]. split; [|split; [|split; [done|]]].
  - unfold w4. rewrite logged_error_fs by done.
    rewrite data_at_insert_eq by done. rewrite Hdata3. cbn [default].
    by rewrite (assoc_L (++)).
  - intros k Hk. unfold w4. rewrite logged_error_fs by done.
    rewrite lookup_insert_ne by done. by apply Hframe3.
  - unfold script. by rewrite Hmain.
Qed.

Lemma failing_step_aborts_run_witness :
  ∃ w4 rec,
    main failing_env generator_world = (Raise (OSFault 13 refused_path), w4)
    ∧ data_at (fs w4) (ERRORS_LOG failing_env) = Some rec
    ∧ (script failing_env generator_world).1 = 1.
Proof.
  assert ((main_prelude failing_env (stack_root_of failing_env) generator_world).1
          = Ok tt) as Hpre by (vm_compute; reflexivity).
  apply run_ok in Hpre.
  assert ((for_each [CommonSh; InstallLlmSh; InstallImageGenSh; InstallTtsSh;
                     DownloadOllamaModelsSh; HealthCheckSh; CleanStackSh; SetupOauthSh]
             (λ t, safe_write failing_env (target t ++ stack_root_of failing_env)
                     (template failing_env t))
             (main_prelude failing_env (stack_root_of failing_env) generator_world).2).1
          = Ok tt) as Hwrites by (vm_compute; reflexivity).
  apply run_ok in Hwrites.
  match type of Hwrites with _ = (_, ?w1) =>
    assert ((write_attempt failing_env (target InstallSh ++ stack_root_of failing_env)
               (template failing_env InstallSh) w1).1
            = Raise (OSFault 13 refused_path)) as Hraise by (vm_compute; reflexivity)
  end.
  apply run_raise in Hraise.
  match type of Hraise with _ = (_, ?w2) =>
    assert (is_dir (fs w2) (ROOT_DIR failing_env) = true) as Hd
      by (vm_compute; reflexivity);
    assert (is_dir (fs w2) (ERRORS_LOG failing_env) = false) as Hnd
      by (vm_compute; reflexivity)
  end.
  destruct (failing_step_aborts_run failing_env generator_world _ _ _ _ _
              eq_refl eq_refl Hpre
              (reaches_write failing_env _ _
                 [CommonSh; InstallLlmSh; InstallImageGenSh; InstallTtsSh;
                  DownloadOllamaModelsSh; HealthCheckSh; CleanStackSh; SetupOauthSh]
                 InstallSh
                 [DockerComposeYml; ReadmeMd; ChangelogMd; SessionRestartMd] _
                 eq_refl Hwrites)
              Hraise Hd Hnd)
    as (w3 & w4 & ts & ts' & what & _ & _ & _ & _ & _ & _ & Hmain & Hdata & _ & _ & Hexit).
  exists w4. eexists. split; [exact Hmain|]. split; [exact Hdata | exact Hexit].
Defined.

(** * Further properties *)

(** ** What a run leaves alone *)


Lemma errors_log_not_output E : ERRORS_LOG E ∉ targets E ++ [zip_path_of E].
Proof.
  intros [H|H%list_elem_of_singleton]%elem_of_app.
  - apply list_elem_of_fmap in H as (t & H & _). symmetry in H.
    by apply target_not_direct in H.
  - by injection H.
Qed.



Section Quiet.

Variable E : env.

Lemma os_mkdir_world p w r w' :
  os_mkdir E p w = (r, w') → w' = set_fs (λ _, fs w') w.
Proof.
  unfold os_mkdir. destruct w as [m o e t]. cbn [fs].
  destruct (fault E (SysMkdir p)); [by intros [= _ <-]|].
  destruct (node_at m p); [by intros [= _ <-]|].
  by destruct (node_at m (parent p)) as [[?|??]|]; intros [= _ <-].
Qed.

Lemma set_fs_set_fs f g w : set_fs f (set_fs g w) = set_fs (λ m, f (g m)) w.
Proof. by destruct w. Qed.

(** [mkdir_p] changes nothing but the file system, however it ends. *)
Lemma mkdir_p_world p w r w' :
  mkdir_p E p w = (r, w') → w' = set_fs (λ _, fs w') w.
Proof.
  assert (∀ p e w r w', unless_is_dir p e w = (r, w') → w' = set_fs (λ _, fs w') w)
    as Hun.
  { intros ????? ->%unless_is_dir_data. by destruct w0. }
  assert (∀ w1 w2 w3 : world, w2 = set_fs (λ _, fs w2) w1 → w3 = set_fs (λ _, fs w3) w2 →
                      w3 = set_fs (λ _, fs w3) w1) as Htr.
  { intros w1 w2 w3 -> ->. by destruct w1. }
  revert w r w'. induction p as [|n q IH]; intros w r w'; rewrite mkdir_p_unfold;
    unfold try_except at 1;
    destruct (os_mkdir E _ w) as [[[]|e] w1] eqn:H1.
  - intros [= _ <-]. by eapply os_mkdir_world.
  - intros H2. apply os_mkdir_world in H1. eapply Htr; [exact H1|].
    destruct e; try (by eapply Hun).
    injection H2 as _ <-. by destruct w1.
  - intros [= _ <-]. by eapply os_mkdir_world.
  - intros H2. apply os_mkdir_world in H1. eapply Htr; [exact H1|].
    destruct e; try (by eapply Hun).
    unfold bind in H2. destruct (mkdir_p E q w1) as [[[]|e2] w2] eqn:H3.
    + apply IH in H3. eapply Htr; [exact H3|]. unfold try_except in H2.
      destruct (os_mkdir E (n :: q) w2) as [[[]|e3] w3] eqn:H4.
      * injection H2 as _ <-. by eapply os_mkdir_world.
      * apply os_mkdir_world in H4. eapply Htr; [exact H4|].
        destruct e3; try (by eapply Hun).
        injection H2 as _ <-. by destruct w3.
    + injection H2 as _ <-. by eapply IH.
Qed.

Lemma keeps_stderr_ret {X} (x : X) : keeps_stderr (ret x).
Proof. by intros w r w' [= _ <-]. Qed.

Lemma keeps_stderr_bind {X Y} (c : M X) (k : X → M Y) :
  keeps_stderr c → (∀ x, keeps_stderr (k x)) → keeps_stderr (bind c k).
Proof.
  intros Hc Hk w r w'. unfold bind.
  destruct (c w) as [[x|e] w1] eqn:Hcw.
  - intros Hkw. rewrite (Hk _ _ _ _ Hkw). by eapply Hc.
  - intros [= _ <-]. by eapply Hc.
Qed.

Lemma keeps_stderr_mkdir_p p : keeps_stderr (mkdir_p E p).
Proof. intros w r w' ->%mkdir_p_world. by destruct w. Qed.

Lemma keeps_stderr_write_text p text : keeps_stderr (write_text E p text).
Proof.
  intros w r w'. unfold write_text.
  by destruct (open_for_write E _ p w); intros [= _ <-]; destruct w.
Qed.

Lemma keeps_stderr_append_text p line : keeps_stderr (append_text E p line).
Proof.
  intros w r w'. unfold append_text.
  by destruct (open_for_write E _ p w); intros [= _ <-]; destruct w.
Qed.

Lemma keeps_stderr_log_info message : keeps_stderr (log_info E message).
Proof.
  apply keeps_stderr_bind; [by intros w r w' [= _ <-]|]. intros ts.
  apply keeps_stderr_bind.
  - apply keeps_stderr_bind; [apply keeps_stderr_mkdir_p|]. intros _.
    apply keeps_stderr_append_text.
  - intros _. by intros w r w' [= _ <-].
Qed.

Lemma keeps_stderr_stat_mode p : keeps_stderr (stat_mode E p).
Proof.
  intros w r w'. unfold stat_mode. destruct (fault E _); [by intros [= _ <-]|].
  by destruct (node_at (fs w) p) as [[?|??]|]; intros [= _ <-].
Qed.

Lemma keeps_stderr_chmod p mode : keeps_stderr (chmod E p mode).
Proof.
  intros w r w'. unfold chmod. destruct (fault E _); [by intros [= _ <-]|].
  by destruct (node_at (fs w) p) as [[?|??]|]; intros [= _ <-]; destruct w.
Qed.

Lemma keeps_stderr_zip_tree zip_path root : keeps_stderr (zip_tree E zip_path root).
Proof.
  intros w r w'. unfold zip_tree.
  destruct (open_for_write E _ zip_path w); [by intros [= _ <-]|].
  by destruct (archive_entries E _ root) as [ens [e|]]; intros [= _ <-]; destruct w.
Qed.

Lemma quietly_intro {X} W (c : M X) :
  framed W [ACTIONS_LOG E] c → keeps_stderr c → returns_quietly E W c.
Proof. intros Hf Hs w x w' Hc. split; [by eapply Hf | by eapply Hs]. Qed.

Lemma quietly_mono {X} W W' (c : M X) :
  W ⊆ W' → returns_quietly E W c → returns_quietly E W' c.
Proof.
  intros HW Hc w x w' Hcw. destruct (Hc _ _ _ Hcw) as [Hf Hs].
  split; [|done]. by eapply frame_mono.
Qed.

Lemma quietly_bind {X Y} W (c : M X) (k : X → M Y) :
  returns_quietly E W c → (∀ x, returns_quietly E W (k x)) →
  returns_quietly E W (bind c k).
Proof.
  intros Hc Hk w y w' (x & w1 & Hcw & Hkw)%bind_ok_inv.
  destruct (Hc _ _ _ Hcw) as [Hf1 Hs1]. destruct (Hk _ _ _ _ Hkw) as [Hf2 Hs2].
  split; [by eapply frame_trans | congruence].
Qed.

Lemma quietly_for_each {X} W (xs : list X) (f : X → M unit) :
  (∀ x, x ∈ xs → returns_quietly E W (f x)) → returns_quietly E W (for_each xs f).
Proof.
  induction xs as [|x xs IH]; intros Hf; cbn [for_each].
  - intros w y w' [= _ <-]. split; [apply frame_refl | done].
  - apply quietly_bind; [apply Hf; by left|]. intros _. apply IH.
    intros y Hy. apply Hf. by right.
Qed.

(** A [try] whose [except] clause raises again returns only if its body
    does. *)
Lemma quietly_try {X} W (c : M X) (k : exn → M unit) :
  returns_quietly E W c →
  returns_quietly E W (try_except c (λ e, bind (k e) (λ _, raise e))).
Proof. intros Hc w x w' Hcw%try_ok_inv. by eapply Hc. Qed.

Lemma actions_log_listed : ACTIONS_LOG E ∈ [ACTIONS_LOG E].
Proof. by left. Qed.

Lemma quietly_log_info W message : returns_quietly E W (log_info E message).
Proof.
  apply quietly_intro; [apply framed_log_info, actions_log_listed|].
  apply keeps_stderr_log_info.
Qed.

Lemma quietly_mkdir_p W p : returns_quietly E W (mkdir_p E p).
Proof. apply quietly_intro; [apply framed_mkdir_p | apply keeps_stderr_mkdir_p]. Qed.

Lemma quietly_safe_write W p content :
  p ∈ W → returns_quietly E W (safe_write E p content).
Proof.
  intros Hp. unfold safe_write. apply quietly_try.
  apply quietly_bind; [apply quietly_mkdir_p|]. intros _.
  apply quietly_bind; [|intros _; apply quietly_log_info].
  apply quietly_intro; [by apply framed_write_text | apply keeps_stderr_write_text].
Qed.

Lemma quietly_make_executable W p : returns_quietly E W (make_executable E p).
Proof.
  unfold make_executable. apply quietly_try.
  apply quietly_bind.
  { apply quietly_intro; [apply framed_stat_mode | apply keeps_stderr_stat_mode]. }
  intros mode. apply quietly_bind; [|intros _; apply quietly_log_info].
  apply quietly_intro; [apply framed_chmod | apply keeps_stderr_chmod].
Qed.

Lemma quietly_create_zip W root :
  ROOT_DIR E /# (name root +:+ ".zip") ∈ W → returns_quietly E W (create_zip E root).
Proof.
  intros Hz. unfold create_zip. apply quietly_try.
  apply quietly_bind.
  { apply quietly_intro; [by apply framed_zip_tree | apply keeps_stderr_zip_tree]. }
  intros _. apply quietly_bind; [apply quietly_log_info|]. intros _.
  intros w x w' [= _ <-]. split; [apply frame_refl | done].
Qed.

Lemma quietly_pure {X} W (c : M X) :
  (∀ w, (c w).2 = w) → returns_quietly E W c.
Proof.
  intros Hc w x w' Hcw. pose proof (Hc w) as Hw. rewrite Hcw in Hw. cbn in Hw.
  subst w'. split; [apply frame_refl | done].
Qed.

Lemma quietly_main :
  returns_quietly E (targets E ++ [zip_path_of E]) (main E).
Proof.
  unfold main. fold (stack_root_of E). apply quietly_bind.
  { unfold main_prelude. apply quietly_bind; [apply quietly_log_info|]. intros _.
    apply quietly_bind; [by apply quietly_pure|]. intros [|].
    - apply quietly_log_info.
    - apply quietly_bind; [apply quietly_mkdir_p|]. intros _. apply quietly_log_info. }
  intros _. unfold main_handler. apply quietly_try.
  intros w x w'. rewrite main_body_steps. revert w x w'.
  unfold main_steps, create_stack_files, step_permissions, step_logs_dir, step_report.
  apply quietly_bind.
  { apply quietly_for_each. intros t Ht. apply quietly_safe_write.
    apply elem_of_app. left.
    by apply (list_elem_of_fmap_2 (λ t, target t ++ stack_root_of E)). }
  intros _. apply quietly_bind.
  { apply quietly_bind; [by apply quietly_pure|]. intros shs.
    apply quietly_bind; [|intros _; apply quietly_make_executable].
    apply quietly_for_each. intros p _. apply quietly_make_executable. }
  intros _. apply quietly_bind; [apply quietly_mkdir_p|]. intros _.
  apply quietly_bind.
  { apply quietly_create_zip. apply elem_of_app. right. by left. }
  intros zp. repeat (apply quietly_bind; [apply quietly_log_info|]; intros _).
  intros w x w' [= _ <-]. split; [apply frame_refl | done].
Qed.

End Quiet.

(** X2. A run of [main] that returns has appended nothing to the errors
    log (it does not create it either) and has written nothing to
    standard error: error records and error output appear in failing
    runs only. *)
Theorem successful_run_logs_no_error E w w' :
  main E w = (Ok tt, w') →
  data_at (fs w') (ERRORS_LOG E) = data_at (fs w) (ERRORS_LOG E)
  ∧ stderr w' = stderr w.
Proof.
  intros Hmain. destruct (quietly_main E _ _ _ Hmain) as [Hframe Hs].
  split; [|done]. eapply frame_kept; [exact Hframe|apply errors_log_not_output|].
  intros H%list_elem_of_singleton. by injection H.
Qed.

Lemma successful_run_logs_no_error_witness :
  data_at (fs (main sample_env generator_world).2) (ERRORS_LOG sample_env) = None
  ∧ stderr (main sample_env generator_world).2 = [].
Proof.
  assert ((main sample_env generator_world).1 = Ok tt) as Hmain
    by (vm_compute; reflexivity).
  apply run_ok in Hmain.
  exact (successful_run_logs_no_error sample_env _ _ Hmain).
Defined.

(** ** Failures of the logs and of single operations *)

Section LogFailures.

Variable E : env.


Lemma log_error_refused message w exc :
  fault E (SysMkdir (ROOT_DIR E)) = None →
  fault E (SysOpenAppend (ERRORS_LOG E)) = Some exc →
  is_dir (fs w) (ROOT_DIR E) = true →
  log_error E message w
  = (Raise exc, World (fs w) (stdout w) (stderr w) (S (ticks w))).
Proof.
  intros Hmk Hap Hd. unfold log_error, bind at 1, timestamp_utc.
  apply bind_raise. unfold _append_log.
  erewrite bind_ok; [|by apply mkdir_p_present].
  unfold append_text, open_for_write. by rewrite Hap.
Qed.

Lemma perform_masked c w exc w' exc' w'' :
  raises_in E c w exc w' →
  log_error E (failure_message E c exc) w' = (Raise exc', w'') →
  perform E c w = (Raise exc', w'').
Proof.
  intros Hr Hlog.
  destruct c as [p content|p|root]; cbn [raises_in perform] in *.
  - unfold safe_write. erewrite try_raise by exact Hr. by apply bind_raise.
  - unfold make_executable. erewrite try_raise by exact Hr. by apply bind_raise.
  - apply bind_raise. unfold create_zip. erewrite try_raise by exact Hr.
    by apply bind_raise.
Qed.

(** A run whose body comes to an operation that raises, with the errors
    log ready. *)
Lemma failing_run w w0 c w1 exc w2 :
  fault E (SysMkdir (ROOT_DIR E)) = None →
  fault E (SysOpenAppend (ERRORS_LOG E)) = None →
  main_prelude E (stack_root_of E) w = (Ok tt, w0) →
  reaches E (stack_root_of E) w0 c w1 →
  raises_in E c w1 exc w2 →
  is_dir (fs w2) (ROOT_DIR E) = true →
  is_dir (fs w2) (ERRORS_LOG E) = false →
  main E w = (Raise exc, logged_error E (unhandled_message E exc)
                           (logged_error E (failure_message E c exc) w2)).
Proof.
  intros Hmk Hap Hpre Hreach Hraise Hd Hnd.
  pose proof (perform_raise E Hmk Hap c w1 exc w2 Hraise Hd Hnd) as Hc.
  pose proof (reaches_raise E _ _ _ _ _ _ Hreach Hc) as Hbody.
  destruct (logged_error_ready E (failure_message E c exc) w2 Hd) as [Hd3 Hnd3].
  unfold main. erewrite bind_ok by exact Hpre.
  erewrite try_raise by exact Hbody. by apply main_handler_raise.
Qed.

End LogFailures.



(** X4. When the errors log cannot be opened for appending, an operation
    of the body of [main] that raises [exc] leaves no error record at
    all: the [except] clause of the operation raises the refusal [exc']
    of the log in place of [exc], the [except] clause of [main] does the
    same, and the run ends with [exc'] and exit status 1, the file
    system, standard output and standard error being as the failing
    operation left them. *)
Theorem unwritable_errors_log_hides_failure E w w0 c w1 exc w2 exc' :
  fault E (SysMkdir (ROOT_DIR E)) = None →
  fault E (SysOpenAppend (ERRORS_LOG E)) = Some exc' →
  main_prelude E (stack_root_of E) w = (Ok tt, w0) →
  reaches E (stack_root_of E) w0 c w1 →
  raises_in E c w1 exc w2 →
  is_dir (fs w2) (ROOT_DIR E) = true →
  perform E c w1
  = (Raise exc', World (fs w2) (stdout w2) (stderr w2) (S (ticks w2)))
  ∧ main E w
    = (Raise exc', World (fs w2) (stdout w2) (stderr w2) (S (S (ticks w2))))
  ∧ (script E w).1 = 1.
Proof.
  intros Hmk Hap Hpre Hreach Hraise Hd.
  pose proof (perform_masked E c w1 exc w2 exc' _ Hraise
                (log_error_refused E _ w2 exc' Hmk Hap Hd)) as Hc.
  pose proof (reaches_raise E _ _ _ _ _ _ Hreach Hc) as Hbody.
  assert (main E w
          = (Raise exc', World (fs w2) (stdout w2) (stderr w2) (S (S (ticks w2)))))
    as Hmain.
  { unfold main. erewrite bind_ok by exact Hpre.
    erewrite try_raise by exact Hbody. unfold main_handler.
    apply bind_raise. by apply log_error_refused. }
  split; [exact Hc|]. split; [exact Hmain|].
  unfold script. by rewrite Hmain.
Qed.

Lemma unwritable_errors_log_hides_failure_witness :
  (main mute_env generator_world).1 = Raise (OSFault 30 (ERRORS_LOG sample_env))
  ∧ (script mute_env generator_world).1 = 1.
Proof.
  assert ((main_prelude mute_env (stack_root_of mute_env) generator_world).1
          = Ok tt) as Hpre by (vm_compute; reflexivity).
  apply run_ok in Hpre.
  assert ((for_each [CommonSh; InstallLlmSh; InstallImageGenSh; InstallTtsSh;
                     DownloadOllamaModelsSh; HealthCheckSh; CleanStackSh; SetupOauthSh]
             (λ t, safe_write mute_env (target t ++ stack_root_of mute_env)
                     (template mute_env t))
             (main_prelude mute_env (stack_root_of mute_env) generator_world).2).1
          = Ok tt) as Hwrites by (vm_compute; reflexivity).
  apply run_ok in Hwrites.
  match type of Hwrites with _ = (_, ?w1) =>
    assert ((write_attempt mute_env (target InstallSh ++ stack_root_of mute_env)
               (template mute_env InstallSh) w1).1
            = Raise (OSFault 13 refused_path)) as Hraise by (vm_compute; reflexivity)
  end.
  apply run_raise in Hraise.
  match type of Hraise with _ = (_, ?w2) =>
    assert (is_dir (fs w2) (ROOT_DIR mute_env) = true) as Hd
      by (vm_compute; reflexivity)
  end.
  destruct (unwritable_errors_log_hides_failure mute_env generator_world _ _ _ _ _
              (OSFault 30 (ERRORS_LOG sample_env))
              eq_refl eq_refl Hpre
              (reaches_write mute_env _ _
                 [CommonSh; InstallLlmSh; InstallImageGenSh; InstallTtsSh;
                  DownloadOllamaModelsSh; HealthCheckSh; CleanStackSh; SetupOauthSh]
                 InstallSh
                 [DockerComposeYml; ReadmeMd; ChangelogMd; SessionRestartMd] _
                 eq_refl Hwrites)
              Hraise Hd) as (_ & Hmain & Hexit).
  split; [|exact Hexit]. by rewrite Hmain.
Defined.

Section SingleFailures.

Variable E : env.
Hypothesis Hmk : fault E (SysMkdir (ROOT_DIR E)) = None.
Hypothesis Hap : fault E (SysOpenAppend (ERRORS_LOG E)) = None.

Lemma logged_error_other message w k :
  is_dir (fs w) (ROOT_DIR E) = true → k ≠ ERRORS_LOG E →
  fs (logged_error E message w) !! k = fs w !! k.
Proof. intros Hd Hk. rewrite logged_error_fs by done. by rewrite lookup_insert_ne. Qed.

Lemma logged_error_data message w :
  is_dir (fs w) (ROOT_DIR E) = true →
  data_at (fs (logged_error E message w)) (ERRORS_LOG E)
  = Some (default [] (data_at (fs w) (ERRORS_LOG E))
          ++ error_line E (strftime (clock E (ticks w))) message).
Proof. intros Hd. rewrite logged_error_fs by done. by rewrite data_at_insert_eq. Qed.

End SingleFailures.

(** X5. When the directory of the target is there and the target cannot
    be opened for writing (the system refuses, or a directory stands at
    the target), [safe_write] raises the error of the opening after it
    appended one record, naming the target and the error, to the errors
    log; the target and every other path but the errors log are as they
    were: nothing is truncated or half written. *)
Theorem safe_write_refused_keeps_target E p content w e :
  fault E (SysMkdir (ROOT_DIR E)) = None →
  fault E (SysOpenAppend (ERRORS_LOG E)) = None →
  is_dir (fs w) (ROOT_DIR E) = true →
  is_dir (fs w) (ERRORS_LOG E) = false →
  fault E (SysMkdir (parent p)) = None →
  is_dir (fs w) (parent p) = true →
  open_for_write E (SysOpenWrite p) p w = inl e →
  ∃ w', safe_write E p content w = (Raise e, w')
        ∧ (∀ k, k ≠ ERRORS_LOG E → fs w' !! k = fs w !! k)
        ∧ data_at (fs w') (ERRORS_LOG E)
          = Some (default [] (data_at (fs w) (ERRORS_LOG E))
                  ++ error_line E (strftime (clock E (ticks w)))
                       (lit "Failed to write " ++ path_str p ++ lit ": "
                        ++ exc_text E e))
        ∧ stdout w' = stdout w.
Proof.
  intros Hmk Hap Hd Hnd Hmkp Hdp Hopen.
  assert (raises_in E (FileWrite p content) w e w) as Hraise.
  { cbn [raises_in]. unfold write_attempt.
    erewrite bind_ok; [|by apply mkdir_p_present].
    apply bind_raise. unfold write_text. by rewrite Hopen. }
  eexists. split; [exact (perform_raise E Hmk Hap _ _ _ _ Hraise Hd Hnd)|].
  split; [intros k Hk; by apply logged_error_other|].
  split; [by apply logged_error_data | done].
Qed.

Lemma safe_write_refused_keeps_target_witness :
  ∃ w', safe_write failing_env refused_path (lit "new")
          (World (<[refused_path := File 420 (lit "old")]>
                    (<[stack_root_of failing_env := Dir 493]> (fs generator_world)))
                 [] [] 0)
        = (Raise (OSFault 13 refused_path), w')
        ∧ fs w' !! refused_path = Some (File 420 (lit "old")).
Proof.
  destruct (safe_write_refused_keeps_target failing_env refused_path (lit "new")
              (World (<[refused_path := File 420 (lit "old")]>
                        (<[stack_root_of failing_env := Dir 493]> (fs generator_world)))
                     [] [] 0)
              (OSFault 13 refused_path))
    as (w' & Hrun & Hkeep & _).
  - reflexivity.
  - reflexivity.
  - vm_compute. reflexivity.
  - vm_compute. reflexivity.
  - reflexivity.
  - vm_compute. reflexivity.
  - vm_compute. reflexivity.
  - exists w'. split; [exact Hrun|]. rewrite Hkeep by discriminate.
    vm_compute. reflexivity.
Defined.

(** X6. On a path where nothing is, [make_executable] raises
    FileNotFoundError after it appended one record, naming the path and
    the error, to the errors log; it creates nothing at the path. *)
Theorem make_executable_missing_file E p w :
  fault E (SysMkdir (ROOT_DIR E)) = None →
  fault E (SysOpenAppend (ERRORS_LOG E)) = None →
  is_dir (fs w) (ROOT_DIR E) = true →
  is_dir (fs w) (ERRORS_LOG E) = false →
  fault E (SysStat p) = None →
  node_at (fs w) p = None →
  p ≠ ERRORS_LOG E →
  ∃ w', make_executable E p w = (Raise (FileNotFoundError p), w')
        ∧ node_at (fs w') p = None
        ∧ (∀ k, k ≠ ERRORS_LOG E → fs w' !! k = fs w !! k)
        ∧ data_at (fs w') (ERRORS_LOG E)
          = Some (default [] (data_at (fs w) (ERRORS_LOG E))
                  ++ error_line E (strftime (clock E (ticks w)))
                       (lit "Failed to chmod +x " ++ path_str p ++ lit ": "
                        ++ exc_text E (FileNotFoundError p))).
Proof.
  intros Hmk Hap Hd Hnd Hst Hp Hne.
  assert (raises_in E (PermissionChange p) w (FileNotFoundError p) w) as Hraise.
  { cbn [raises_in]. unfold chmod_attempt. apply bind_raise.
    unfold stat_mode. by rewrite Hst, Hp. }
  eexists. split; [exact (perform_raise E Hmk Hap _ _ _ _ Hraise Hd Hnd)|].
  split; [|split; [intros k Hk; by apply logged_error_other | by apply logged_error_data]].
  destruct p as [|n p]; [done|]. cbn [node_at] in *.
  by rewrite logged_error_other.
Qed.

Lemma make_executable_missing_file_witness :
  ∃ w', make_executable sample_env ["absent.sh"; "gen"; "srv"] generator_world
        = (Raise (FileNotFoundError ["absent.sh"; "gen"; "srv"]), w')
        ∧ node_at (fs w') ["absent.sh"; "gen"; "srv"] = None.
Proof.
  destruct (make_executable_missing_file sample_env ["absent.sh"; "gen"; "srv"]
              generator_world) as (w' & Hrun & Hnone & _).
  - reflexivity.
  - reflexivity.
  - vm_compute. reflexivity.
  - vm_compute. reflexivity.
  - reflexivity.
  - vm_compute. reflexivity.
  - discriminate.
  - exists w'. split; [exact Hrun | exact Hnone].
Defined.

(** ** The start of a run *)

Section Prelude.

Variable E : env.

Lemma under_root_not_errors r : r ++ stack_root_of E ≠ ERRORS_LOG E.
Proof. by intros [_ ?]%under_root_direct. Qed.

Lemma actions_log_not_root : ACTIONS_LOG E ≠ ROOT_DIR E.
Proof.
  intros H. apply (f_equal length) in H. unfold ACTIONS_LOG in H. cbn in H. lia.
Qed.

Lemma mkdir_p_below_file p w perm d :
  p ≠ [] →
  fault E (SysMkdir p) = None →
  node_at (fs w) p = None →
  node_at (fs w) (parent p) = Some (File perm d) →
  mkdir_p E p w = (Raise (NotADirectoryError p), w).
Proof.
  intros Hp Hf Hnone Hparent. rewrite mkdir_p_unfold. unfold try_except at 1.
  assert (os_mkdir E p w = (Raise (NotADirectoryError p), w)) as ->.
  { unfold os_mkdir. by rewrite Hf, Hnone, Hparent. }
  unfold unless_is_dir, is_dir. by rewrite Hnone.
Qed.

Lemma main_prelude_ok w :
  fault E (SysMkdir (ROOT_DIR E)) = None →
  (fs w !! stack_root_of E = None → fault E (SysMkdir (stack_root_of E)) = None) →
  fault E (SysOpenAppend (ACTIONS_LOG E)) = None →
  is_dir (fs w) (ROOT_DIR E) = true →
  is_dir (fs w) (ACTIONS_LOG E) = false →
  let start := info_line (strftime (clock E (ticks w))) (start_message E) in
  let report := info_line (strftime (clock E (S (ticks w))))
                  (stack_root_message E
                     (bool_decide (is_Some (fs w !! stack_root_of E)))) in
  ∃ w', main_prelude E (stack_root_of E) w = (Ok tt, w')
        ∧ fs w' !! stack_root_of E
          = Some (default (Dir (new_dir_perm E)) (fs w !! stack_root_of E))
        ∧ data_at (fs w') (ACTIONS_LOG E)
          = Some (default [] (data_at (fs w) (ACTIONS_LOG E)) ++ start ++ report)
        ∧ stdout w' = stdout w ++ start ++ report
        ∧ stderr w' = stderr w
        ∧ ∀ k, k ≠ stack_root_of E → k ≠ ACTIONS_LOG E → fs w' !! k = fs w !! k.
Proof.
  intros Hmk Hmkr Hap Hd Hnd start report.
  assert (stack_root_of E ≠ ACTIONS_LOG E) as Hra
    by apply (under_root_not_actions E []).
  assert (ACTIONS_LOG E ≠ []) as Hnil by done.
  unfold main_prelude.
  erewrite bind_ok; [|by apply log_info_present].
  fold (start_message E). fold start.
  rewrite appended_present by done.
  set (m0 := <[ACTIONS_LOG E := _]> (fs w)).
  assert (is_dir m0 (ROOT_DIR E) = true) as Hd0.
  { unfold m0. rewrite is_dir_insert by done.
    rewrite decide_False by apply actions_log_not_root. done. }
  assert (is_dir m0 (ACTIONS_LOG E) = false) as Hnd0.
  { unfold m0. rewrite is_dir_insert by done. by rewrite decide_True. }
  assert (m0 !! stack_root_of E = fs w !! stack_root_of E) as Hroot0
    by (unfold m0; by rewrite lookup_insert_ne).
  assert (data_at m0 (ACTIONS_LOG E)
          = Some (default [] (data_at (fs w) (ACTIONS_LOG E)) ++ start)) as Hdata0
    by (unfold m0; by rewrite data_at_insert_eq).
  unfold bind at 1, exists_. cbn [fs node_at stack_root_of joinpath].
  fold (stack_root_of E). unfold joinpath in Hroot0. cbn [stack_root_of] in Hroot0.
  change (ROOT_DIR E /# STACK_DIR_NAME) with (stack_root_of E) in *.
  change (STACK_DIR_NAME :: ROOT_DIR E) with (stack_root_of E) in *.
  rewrite Hroot0.
  destruct (fs w !! stack_root_of E) as [x|] eqn:Hx.
  - rewrite bool_decide_true by eauto.
    fold (stack_root_message E true).
    rewrite log_info_present by done. cbn [fs stdout stderr ticks].
    rewrite appended_present by done.
    eexists. split; [done|]. cbn [fs stdout stderr default].
    split; [by rewrite lookup_insert_ne, Hroot0|].
    split; [rewrite data_at_insert_eq, Hdata0 by done; cbn [default id]; by rewrite <- (assoc_L (++))|].
    split; [by rewrite <- (assoc_L (++))|]. split; [done|].
    intros k Hk1 Hk2. unfold m0. by rewrite !lookup_insert_ne.
  - rewrite bool_decide_false by (by intros [? ?]).
    fold (stack_root_message E false).
    assert (mkdir_p E (stack_root_of E)
              (World m0 (stdout w ++ start) (stderr w) (S (ticks w)))
            = (Ok tt, World (<[stack_root_of E := Dir (new_dir_perm E)]> m0)
                        (stdout w ++ start) (stderr w) (S (ticks w)))) as Hmkdir.
    { rewrite mkdir_p_unfold. unfold try_except, os_mkdir.
      rewrite (Hmkr eq_refl). cbn [fs node_at stack_root_of joinpath parent tail].
      change (STACK_DIR_NAME :: ROOT_DIR E) with (stack_root_of E).
      rewrite Hroot0. unfold is_dir in Hd0.
      by destruct (node_at m0 (ROOT_DIR E)) as [[?|??]|]. }
    erewrite bind_ok by exact Hmkdir.
    set (m1 := <[stack_root_of E := _]> m0).
    assert (is_dir m1 (ROOT_DIR E) = true) as Hd1.
    { unfold m1. rewrite is_dir_insert by done.
      rewrite decide_False by apply (under_root_not_ROOT E []). done. }
    assert (is_dir m1 (ACTIONS_LOG E) = false) as Hnd1.
    { unfold m1. rewrite is_dir_insert by done. by rewrite decide_False. }
    rewrite log_info_present by done. cbn [fs stdout stderr ticks].
    rewrite appended_present by done.
    eexists. split; [done|]. cbn [fs stdout stderr default].
    split; [unfold m1; by rewrite lookup_insert_ne, lookup_insert_eq|].
    split.
    { rewrite data_at_insert_eq by done. unfold m1.
      rewrite data_at_insert_ne by done. rewrite Hdata0. cbn [default id].
      by rewrite <- (assoc_L (++)). }
    split; [by rewrite <- (assoc_L (++))|]. split; [done|].
    intros k Hk1 Hk2. unfold m1, m0. by rewrite !lookup_insert_ne.
Qed.

End Prelude.

(** X7. With its directory in place and nothing refused, the start of
    [main] returns after two records, appended to the actions log and
    echoed on standard output: that the generation starts, and either
    that the stack root already exists, when anything stands there, or
    that it was created. What stands at the stack root is kept as it
    is; a missing stack root becomes a directory; nothing else changes
    but the actions log. *)
Theorem main_prelude_reports_stack_root E w :
  fault E (SysMkdir (ROOT_DIR E)) = None →
  (fs w !! stack_root_of E = None → fault E (SysMkdir (stack_root_of E)) = None) →
  fault E (SysOpenAppend (ACTIONS_LOG E)) = None →
  is_dir (fs w) (ROOT_DIR E) = true →
  is_dir (fs w) (ACTIONS_LOG E) = false →
  let start := info_line (strftime (clock E (ticks w))) (start_message E) in
  let report := info_line (strftime (clock E (S (ticks w))))
                  (stack_root_message E
                     (bool_decide (is_Some (fs w !! stack_root_of E)))) in
  ∃ w', main_prelude E (stack_root_of E) w = (Ok tt, w')
        ∧ fs w' !! stack_root_of E
          = Some (default (Dir (new_dir_perm E)) (fs w !! stack_root_of E))
        ∧ data_at (fs w') (ACTIONS_LOG E)
          = Some (default [] (data_at (fs w) (ACTIONS_LOG E)) ++ start ++ report)
        ∧ stdout w' = stdout w ++ start ++ report
        ∧ stderr w' = stderr w
        ∧ ∀ k, k ≠ stack_root_of E → k ≠ ACTIONS_LOG E → fs w' !! k = fs w !! k.
Proof. apply main_prelude_ok. Qed.

Lemma main_prelude_reports_stack_root_witness :
  ∃ w', main_prelude sample_env (stack_root_of sample_env) generator_world = (Ok tt, w')
        ∧ fs w' !! stack_root_of sample_env = Some (Dir 493).
Proof.
  destruct (main_prelude_reports_stack_root sample_env generator_world)
    as (w' & Hrun & Hroot & _).
  - reflexivity.
  - intros _. reflexivity.
  - reflexivity.
  - vm_compute. reflexivity.
  - vm_compute. reflexivity.
  - exists w'. split; [exact Hrun|]. rewrite Hroot. vm_compute. reflexivity.
Defined.

(** X8. When a regular file stands where the stack root goes, [main]
    reports that the target directory already exists and then fails at
    its first write: the directory [scripts] cannot be made below a
    file, the run raises NotADirectoryError and ends with exit status 1.
    The file is left as it is and nothing is created below it. *)
Theorem stack_root_blocked_by_file E w perm d :
  fault E (SysMkdir (ROOT_DIR E)) = None →
  fault E (SysMkdir (stack_root_of E /# "scripts")) = None →
  fault E (SysOpenAppend (ACTIONS_LOG E)) = None →
  fault E (SysOpenAppend (ERRORS_LOG E)) = None →
  is_dir (fs w) (ROOT_DIR E) = true →
  is_dir (fs w) (ACTIONS_LOG E) = false →
  is_dir (fs w) (ERRORS_LOG E) = false →
  fs w !! stack_root_of E = Some (File perm d) →
  fs w !! (stack_root_of E /# "scripts") = None →
  ∃ w', main E w = (Raise (NotADirectoryError (stack_root_of E /# "scripts")), w')
        ∧ (∀ r, fs w' !! (r ++ stack_root_of E) = fs w !! (r ++ stack_root_of E))
        ∧ (∃ ts, data_at (fs w') (ACTIONS_LOG E)
                 = Some (default [] (data_at (fs w) (ACTIONS_LOG E))
                         ++ info_line (strftime (clock E (ticks w))) (start_message E)
                         ++ info_line ts (stack_root_message E true)))
        ∧ (script E w).1 = 1.
Proof.
  intros Hmk Hmks Hap Hape Hd Hnd Hnde Hroot Hscripts.
  destruct (main_prelude_ok E w Hmk) as (w0 & Hpre & Hroot0 & Hact0 & _ & _ & Hkeep0);
    [by rewrite Hroot|done..|].
  rewrite Hroot in Hroot0, Hact0. cbn [default id] in Hroot0.
  rewrite bool_decide_true in Hact0 by eauto.
  assert (ERRORS_LOG E ≠ stack_root_of E) as Hne1
    by (intros H; symmetry in H; by apply (under_root_not_errors E []) in H).
  assert (ERRORS_LOG E ≠ ACTIONS_LOG E) as Hne2 by (by intros [= ?]).
  assert (is_dir (fs w0) (ROOT_DIR E) = true) as Hd0.
  { rewrite (is_dir_frame (fs w)); [done|]. intros _. apply Hkeep0.
    - intros H. symmetry in H. by apply (under_root_not_ROOT E []) in H.
    - intros H. symmetry in H. by apply actions_log_not_root in H. }
  assert (is_dir (fs w0) (ERRORS_LOG E) = false) as Hnd0.
  { rewrite (is_dir_frame (fs w)); [done|]. intros _. by apply Hkeep0. }
  assert (raises_in E (FileWrite (target CommonSh ++ stack_root_of E)
                         (template E CommonSh)) w0
            (NotADirectoryError (stack_root_of E /# "scripts")) w0) as Hraise.
  { cbn [raises_in]. unfold write_attempt. apply bind_raise.
    change (parent (target CommonSh ++ stack_root_of E))
      with (stack_root_of E /# "scripts").
    apply (mkdir_p_below_file E _ _ perm d); [done|done|..].
    - unfold joinpath. cbn [node_at]. rewrite Hkeep0; [done| |done].
      intros H. apply (f_equal length) in H. cbn in H. lia.
    - exact Hroot0. }
  pose proof (failing_run E w w0 _ w0 _ w0 Hmk Hape Hpre
                (reaches_write E _ w0 [] CommonSh _ w0 eq_refl eq_refl)
                Hraise Hd0 Hnd0) as Hmain.
  destruct (logged_error_ready E
              (failure_message E (FileWrite (target CommonSh ++ stack_root_of E)
                                    (template E CommonSh))
                 (NotADirectoryError (stack_root_of E /# "scripts"))) w0 Hd0)
    as [Hd1 _].
  eexists. split; [exact Hmain|].
  assert (∀ k, k ≠ ERRORS_LOG E →
            fs (logged_error E
                  (unhandled_message E (NotADirectoryError (stack_root_of E /# "scripts")))
                  (logged_error E
                     (failure_message E
                        (FileWrite (target CommonSh ++ stack_root_of E)
                           (template E CommonSh))
                        (NotADirectoryError (stack_root_of E /# "scripts"))) w0)) !! k
            = fs w0 !! k) as Hkeep1.
  { intros k Hk. by rewrite !logged_error_other. }
  split; [|split].
  - intros r. rewrite Hkeep1 by apply under_root_not_errors.
    destruct r as [|n r]; [cbn [app]; by rewrite Hroot0|].
    apply Hkeep0; [|apply under_root_not_actions].
    intros H. apply (f_equal length) in H. rewrite length_app in H. cbn in H. lia.
  - eexists. unfold data_at. cbn [node_at ACTIONS_LOG joinpath].
    rewrite Hkeep1 by (by intros [= ?]). exact Hact0.
  - unfold script. by rewrite Hmain.
Qed.

Lemma stack_root_blocked_by_file_witness :
  ∃ w', main sample_env blocked_world
        = (Raise (NotADirectoryError (stack_root_of sample_env /# "scripts")), w')
        ∧ fs w' !! stack_root_of sample_env = Some (File 420 (lit "keep"))
        ∧ (script sample_env blocked_world).1 = 1.
Proof.
  destruct (stack_root_blocked_by_file sample_env blocked_world 420 (lit "keep"))
    as (w' & Hrun & Hkeep & _ & Hexit).
  - reflexivity.
  - reflexivity.
  - reflexivity.
  - reflexivity.
  - vm_compute. reflexivity.
  - vm_compute. reflexivity.
  - vm_compute. reflexivity.
  - vm_compute. reflexivity.
  - vm_compute. reflexivity.
  - exists w'. split; [exact Hrun|]. split; [|exact Hexit].
    exact (Hkeep []).
Defined.

(** ** The archive: edge cases *)

Section ZipEdges.

Variable E : env.

Lemma walked_no_top m top p : is_dir m top = false → walked m top p = false.
Proof.
  intros Htop. induction p as [|n q IH]; [done|]. cbn [walked].
  rewrite IH, orb_false_r. destruct (decide (q = top)) as [->|Hne].
  - by rewrite Htop.
  - rewrite (bool_decide_eq_false_2 _ Hne). apply andb_false_r.
Qed.


End ZipEdges.

(** X9. When no directory stands at the stack root (nothing is there, or
    a regular file), and nothing is refused, [create_zip] does not fail:
    the walk meets no file, and the archive is created with no entry. *)
Theorem create_zip_of_missing_root E nm w :
  fault E (SysMkdir (ROOT_DIR E)) = None →
  fault E (SysOpenWrite (ROOT_DIR E /# (nm +:+ ".zip"))) = None →
  (∀ f, fault E (SysOpenRead f) = None) →
  fault E (SysOpenAppend (ACTIONS_LOG E)) = None →
  is_dir (fs w) (ROOT_DIR E) = true →
  is_dir (fs w) (ROOT_DIR E /# (nm +:+ ".zip")) = false →
  is_dir (fs w) (ACTIONS_LOG E) = false →
  is_dir (fs w) (ROOT_DIR E /# nm) = false →
  ∃ w' perm,
    create_zip E (ROOT_DIR E /# nm) w = (Ok (ROOT_DIR E /# (nm +:+ ".zip")), w')
    ∧ node_at (fs w') (ROOT_DIR E /# (nm +:+ ".zip"))
      = Some (File perm (zip_image E [])).
Proof.
  intros Hmk Hwr Hrd Hap Hroot Hzp Hlog Hmissing.
  destruct (create_zip_ok E nm w Hmk Hwr Hrd Hap Hroot Hzp Hlog)
    as (w' & perm & ens & Hrun & _ & _ & Harch & _ & Hens & _).
  exists w', perm. split; [exact Hrun|].
  destruct ens as [|[rel d] ens]; [exact Harch|].
  destruct (proj1 (Hens rel d)) as (r & _ & _ & Hw & _); [by left|].
  by rewrite walked_no_top in Hw.
Qed.

Lemma create_zip_of_missing_root_witness :
  ∃ w' perm,
    create_zip sample_env ["stack"; "gen"; "srv"] generator_world
    = (Ok ["stack.zip"; "gen"; "srv"], w')
    ∧ node_at (fs w') ["stack.zip"; "gen"; "srv"]
      = Some (File perm (zip_image sample_env [])).
Proof.
  apply (create_zip_of_missing_root sample_env "stack" generator_world).
  - reflexivity.
  - reflexivity.
  - intros f. reflexivity.
  - reflexivity.
  - vm_compute. reflexivity.
  - vm_compute. reflexivity.
  - vm_compute. reflexivity.
  - vm_compute. reflexivity.
Defined.



(** ** The text of a file: edge cases *)

Section TextEdges.

Lemma join_nl_empties n : join_nl (repeat [] n) = repeat LF (pred n).
Proof.
  induction n as [|[|n] IH]; [done..|].
  change (join_nl (repeat [] (S (S n)))) with (LF :: join_nl (repeat [] (S n))).
  by rewrite IH.
Qed.

Lemma lstrip_nl_newlines k : lstrip_nl (repeat LF k) = [].
Proof. induction k as [|k IH]; [done|]. simpl. by rewrite IH. Qed.

Lemma lstrip_nl_id s : head s ≠ Some LF → lstrip_nl s = s.
Proof.
  destruct s as [|c s]; [done|]. simpl. intros Hc.
  destruct (is_nl c) eqn:Hnl; [|done]. apply is_nl_true in Hnl. congruence.
Qed.

Lemma map_all_blank m ls :
  (∀ l, l ∈ ls → blank_line l = true) →
  map (dedent_line m) ls = repeat [] (length ls).
Proof.
  induction ls as [|l ls IH]; intros Hall; [done|]. cbn [map length repeat].
  rewrite IH by (intros; apply Hall; by right).
  unfold dedent_line. by rewrite Hall by (by left).
Qed.

Lemma lines_blank_check (ls : list str) :
  forallb blank_line ls = true → ∀ l, l ∈ ls → blank_line l = true.
Proof.
  intros H l Hl. rewrite forallb_forall in H. by apply H, list_elem_of_In.
Qed.

Lemma lines_clean_check (ls : list str) :
  forallb (λ l, bool_decide (l = []) || negb (blank_line l)) ls = true →
  ∀ l, l ∈ ls → l = [] ∨ blank_line l = false.
Proof.
  intros H l Hl. rewrite forallb_forall in H.
  apply list_elem_of_In, H, orb_true_iff in Hl as [Hl|Hl].
  - left. by apply bool_decide_eq_true in Hl.
  - right. by apply negb_true_iff.
Qed.

End TextEdges.

(** X11. A content whose lines all consist of spaces and tabs only (an
    empty content included) is stored as the empty text: [safe_write]
    hands the empty string to [write_text]. *)
Theorem normalize_blank_content content :
  (∀ l, l ∈ split_nl content → blank_line l = true) →
  normalize content = [].
Proof.
  intros Hall. unfold normalize.
  rewrite dedent_join, map_all_blank by done.
  by rewrite join_nl_empties, lstrip_nl_newlines.
Qed.

Lemma normalize_blank_content_witness :
  normalize (lit "  " ++ [LF] ++ [TAB] ++ [LF]) = [].
Proof.
  apply normalize_blank_content. apply lines_blank_check. vm_compute. reflexivity.
Defined.

(** X12. A content that does not start with a newline, has no line of
    spaces and tabs only, and has a line that starts with a character
    other than a space or a tab, is stored as it is: [safe_write] hands
    it to [write_text] unchanged. *)
Theorem normalize_unindented_content content :
  head content ≠ Some LF →
  (∀ l, l ∈ split_nl content → l = [] ∨ blank_line l = false) →
  (∃ c rest, c :: rest ∈ split_nl content ∧ is_blank c = false) →
  normalize content = content.
Proof.
  intros Hhead Hlines (c & rest & Hin & Hc). unfold normalize.
  rewrite dedent_fixed; [by apply lstrip_nl_id|done|].
  assert (blank_line (c :: rest) = false) as Hb by (cbn; by rewrite Hc).
  pose proof (text_margin_prefix content _ Hin Hb) as [k Hk].
  pose proof (text_margin_blank content) as Hm.
  destruct (text_margin content) as [|x m]; [done|].
  injection Hk as -> _. apply Forall_cons in Hm as [Hx _]. congruence.
Qed.

Lemma normalize_unindented_content_witness :
  normalize (lit "#!/bin/sh" ++ [LF] ++ [LF] ++ lit "  echo ok" ++ [LF])
  = lit "#!/bin/sh" ++ [LF] ++ [LF] ++ lit "  echo ok" ++ [LF].
Proof.
  apply normalize_unindented_content.
  - discriminate.
  - apply lines_clean_check. vm_compute. reflexivity.
  - exists "#"%char, (lit "!/bin/sh"). split; [|reflexivity].
    apply list_elem_of_In. vm_compute. by left.
Defined.

(** ** Permissions across repeated operations *)

Section Modes.

Variable E : env.

Lemma chmod_x_idemp perm : chmod_x (chmod_x perm) = chmod_x perm.
Proof.
  apply Z.bits_inj'. intros i Hi. rewrite !chmod_x_bits by done.
  destruct (i <? 12); [|done]. cbn [andb].
  by destruct (Z.testbit perm i), (i =? 6), (i =? 3), (i =? 0).
Qed.

Lemma actions_log_not_suffix_root : ¬ ACTIONS_LOG E `suffix_of` ROOT_DIR E.
Proof. apply suffix_cons_not_self. Qed.

(** After a record was appended to the actions log, the log is ready
    for the next one. *)
Lemma appended_actions_ready line m :
  clear_way m (ROOT_DIR E) = true →
  clear_way (appended E (ACTIONS_LOG E) line m) (ROOT_DIR E) = true
  ∧ is_dir (appended E (ACTIONS_LOG E) line m) (ACTIONS_LOG E) = false.
Proof.
  intros Hway. assert (ACTIONS_LOG E ≠ []) as Hnil by done. split.
  - apply clear_way_spec. intros q Hq. unfold appended, is_file at 1.
    rewrite node_at_insert_ne; [|intros <-; by apply actions_log_not_suffix_root|done].
    fold (is_file (mkdirs (new_dir_perm E) (parent (ACTIONS_LOG E)) m) q).
    rewrite is_file_mkdirs. by apply (proj1 (clear_way_spec _ _) Hway).
  - unfold appended, is_dir. by rewrite node_at_insert_eq.
Qed.

Lemma appended_node_other line m p x :
  p ≠ ACTIONS_LOG E → node_at m p = Some x →
  node_at (appended E (ACTIONS_LOG E) line m) p = Some x.
Proof.
  intros Hne Hp. unfold appended. rewrite node_at_insert_ne by done.
  destruct p as [|n p]; [done|]. cbn [node_at] in *. by apply mkdirs_keeps.
Qed.

End Modes.

(** X13. Writing over an existing file keeps its permission bits and
    replaces its content as a whole: after [safe_write] the target holds
    the normalized content under the mode it had, so a re-run does not
    take the execute bits of a script away. *)
Theorem safe_write_keeps_mode E p content w perm old :
  node_at (fs w) p = Some (File perm old) →
  (∀ q, fault E (SysMkdir q) = None) →
  fault E (SysOpenWrite p) = None →
  fault E (SysOpenAppend (ACTIONS_LOG E)) = None →
  clear_way (fs w) (parent p) = true →
  clear_way (fs w) (ROOT_DIR E) = true →
  is_dir (fs w) (ACTIONS_LOG E) = false →
  p ≠ ACTIONS_LOG E →
  ¬ p `suffix_of` ROOT_DIR E →
  ¬ ACTIONS_LOG E `suffix_of` parent p →
  ∃ w', safe_write E p content w = (Ok tt, w')
        ∧ node_at (fs w') p = Some (File perm (normalize content)).
Proof.
  intros Hp Hmk Hwr Hap Hway Hroot Hlog Hne Hns1 Hns2.
  assert (p ≠ []) as Hnil by (by destruct p).
  eexists. split.
  { apply safe_write_ok; try done.
    - unfold is_dir. by rewrite Hp.
    - by apply written_clear_way.
    - by rewrite written_is_dir_other. }
  cbn [fs]. apply appended_node_other; [done|].
  unfold written. rewrite node_at_insert_eq by done.
  unfold perm_for_write. by rewrite Hp.
Qed.

Lemma safe_write_keeps_mode_witness :
  ∃ w', safe_write sample_env script_path (lit "exit 0")
          (World (<[script_path := File 493 (lit "#!/bin/sh")]> (fs generator_world))
                 [] [] 0)
        = (Ok tt, w')
        ∧ node_at (fs w') script_path = Some (File 493 (lit "exit 0")).
Proof.
  apply (safe_write_keeps_mode sample_env script_path (lit "exit 0") _ 493
           (lit "#!/bin/sh")).
  - vm_compute. reflexivity.
  - intros q. reflexivity.
  - reflexivity.
  - reflexivity.
  - vm_compute. reflexivity.
  - vm_compute. reflexivity.
  - vm_compute. reflexivity.
  - discriminate.
  - apply not_suffix_check. vm_compute. reflexivity.
  - apply not_suffix_check. vm_compute. reflexivity.
Defined.

(** X14. [make_executable] is idempotent: a second call on the same file
    returns as the first did and leaves the mode and the content of the
    file as the first call left them. *)
Theorem make_executable_twice E p w perm d :
  node_at (fs w) p = Some (File perm d) →
  fault E (SysStat p) = None →
  fault E (SysChmod p) = None →
  (∀ q, fault E (SysMkdir q) = None) →
  fault E (SysOpenAppend (ACTIONS_LOG E)) = None →
  clear_way (fs w) (ROOT_DIR E) = true →
  is_dir (fs w) (ACTIONS_LOG E) = false →
  p ≠ ACTIONS_LOG E →
  ∃ w1 w2 perm1,
    make_executable E p w = (Ok tt, w1)
    ∧ make_executable E p w1 = (Ok tt, w2)
    ∧ node_at (fs w1) p = Some (File perm1 d)
    ∧ node_at (fs w2) p = Some (File perm1 d).
Proof.
  intros Hp Hst Hch Hmk Hap Hway Hnd Hne.
  assert (p ≠ []) as Hnil by (by destruct p).
  pose proof (make_executable_ok E p w perm d Hp Hst Hch Hmk Hap Hway Hnd) as H1.
  cbv zeta in H1.
  set (w1 := World _ _ _ _) in H1.
  assert (node_at (fs w1) p = Some (File (chmod_x perm) d)) as Hp1.
  { unfold w1. cbn [fs]. apply appended_node_other; [done|].
    by rewrite node_at_insert_eq. }
  assert (clear_way (<[p := File (chmod_x perm) d]> (fs w)) (ROOT_DIR E) = true)
    as Hway0.
  { rewrite (clear_way_ext (fs w)); [done|]. intros q.
    by eapply is_file_insert_file. }
  destruct (appended_actions_ready E
              (info_line (strftime (clock E (ticks w)))
                 (lit "Marked executable: " ++ path_str p)) _ Hway0)
    as [Hway1 Hnd1].
  pose proof (make_executable_ok E p w1 _ d Hp1 Hst Hch Hmk Hap Hway1 Hnd1) as H2.
  cbv zeta in H2.
  eexists w1, _, (chmod_x perm). split; [exact H1|]. split; [exact H2|].
  split; [exact Hp1|]. cbn [fs]. apply appended_node_other; [done|].
  by rewrite node_at_insert_eq, chmod_x_idemp.
Qed.

Lemma make_executable_twice_witness :
  ∃ w1 w2,
    make_executable sample_env script_path one_script_world = (Ok tt, w1)
    ∧ make_executable sample_env script_path w1 = (Ok tt, w2)
    ∧ node_at (fs w2) script_path = node_at (fs w1) script_path.
Proof.
  destruct (make_executable_twice sample_env script_path one_script_world 420
              (lit "#!/bin/sh"))
    as (w1 & w2 & perm1 & H1 & H2 & H3 & H4); try reflexivity.
  - discriminate.
  - exists w1, w2. split; [exact H1|]. split; [exact H2|]. by rewrite H3, H4.
Defined.

(** ** The modes of a fresh run *)

Section FreshModes.

Variable E : env.

Lemma testbit_438_high i : 12 ≤ i → Z.testbit 438 i = false.
Proof.
  intros Hi. apply Z.bits_above_log2; [lia|].
  assert (Z.log2 438 < 12); [|lia]. apply Z.log2_lt_pow2; lia.
Qed.

Lemma interp_file_bits t b i :
  0 ≤ i →
  ∃ perm, interp E (TFile t b) = File perm (normalize (template E t))
          ∧ Z.testbit perm i
            = (Z.testbit 438 i && negb (Z.testbit (umask E) i))
              || (b && ((i =? 6) || (i =? 3) || (i =? 0))).
Proof.
  intros Hi. destruct b; cbn [interp andb]; eexists; (split; [done|]).
  - rewrite chmod_x_bits by done. unfold new_file_perm. rewrite Z.ldiff_spec.
    destruct (Z.ltb_spec i 12) as [Hlt|Hge]; cbn [andb].
    + by rewrite !orb_assoc.
    + rewrite testbit_438_high by done. cbn [andb orb].
      destruct (Z.eqb_spec i 6), (Z.eqb_spec i 3), (Z.eqb_spec i 0); try lia; done.
  - unfold new_file_perm. by rewrite Z.ldiff_spec, orb_false_r.
Qed.

End FreshModes.

(** X15. After a fresh run in which nothing is refused, every one of the
    thirteen files holds its normalized template under the mode
    0o666 & ~umask, to which the execute bits of owner, group and other
    are added for the nine scripts and for them only; the stack root
    and its directories [scripts] and [logs] have the mode
    0o777 & ~umask. *)
Theorem fresh_run_modes E w :
  (∀ sc, fault E sc = None) →
  is_dir (fs w) (ROOT_DIR E) = true →
  is_dir (fs w) (ACTIONS_LOG E) = false →
  is_dir (fs w) (zip_path_of E) = false →
  (∀ r, fs w !! (r ++ stack_root_of E) = None) →
  ∃ w',
    main E w = (Ok tt, w')
    ∧ (∀ t, ∃ perm,
         fs w' !! (target t ++ stack_root_of E)
         = Some (File perm (normalize (template E t)))
         ∧ ∀ i, 0 ≤ i →
             Z.testbit perm i
             = (Z.testbit 438 i && negb (Z.testbit (umask E) i))
               || (bool_decide (target t ∈ top_level_scripts ++ subsystem_scripts)
                   && ((i =? 6) || (i =? 3) || (i =? 0))))
    ∧ (∀ r, r ∈ [[]; ["scripts"]; ["logs"]] →
         fs w' !! (r ++ stack_root_of E) = Some (Dir (Z.ldiff 511 (umask E)))).
Proof.
  intros Hfault H1 H2 H3 Hfresh.
  destruct (fresh_main E Hfault w (conj H1 (conj H2 H3)) Hfresh)
    as (w' & Hmain & HT & _).
  exists w'. split; [exact Hmain|]. split.
  - intros t. rewrite HT, final_tree_target. cbn [fmap option_fmap option_map].
    assert (bool_decide (target t ∈ top_level_scripts ++ subsystem_scripts)
            = exec_flag t) as ->.
    { destruct t; vm_compute; reflexivity. }
    destruct (exec_flag t).
    + eexists. split; [done|]. intros i Hi.
      by destruct (interp_file_bits E t true i Hi) as (perm & [= <-] & ->).
    + eexists. split; [done|]. intros i Hi.
      by destruct (interp_file_bits E t false i Hi) as (perm & [= <-] & ->).
  - intros r Hr. by rewrite HT, (final_tree_dirs r Hr).
Qed.

Lemma fresh_run_modes_witness :
  ∃ w', main sample_env generator_world = (Ok tt, w')
        ∧ fs w' !! (target InstallSh ++ stack_root_of sample_env)
          = Some (File 493 (normalize (template sample_env InstallSh)))
        ∧ fs w' !! (target ReadmeMd ++ stack_root_of sample_env)
          = Some (File 420 (normalize (template sample_env ReadmeMd))).
Proof.
  destruct (fresh_run_modes sample_env generator_world)
    as (w' & Hrun & Hfiles & _).
  - intros sc. reflexivity.
  - vm_compute. reflexivity.
  - vm_compute. reflexivity.
  - vm_compute. reflexivity.
  - intros r. cbn [generator_world fs].
    rewrite !lookup_insert_ne, lookup_empty; [reflexivity|..];
      intros H; apply (f_equal length) in H; rewrite length_app in H;
      cbn [length stack_root_of joinpath ROOT_DIR sample_env] in H; lia.
  - exists w'. split; [exact Hrun|].
    destruct (Hfiles InstallSh) as (p1 & -> & Hb1).
    destruct (Hfiles ReadmeMd) as (p2 & -> & Hb2).
    split; do 2 f_equal; apply Z.bits_inj'; intros i Hi.
    + rewrite Hb1 by done. change 493 with (Z.lor (Z.ldiff 438 18) 73).
      rewrite Z.lor_spec, Z.ldiff_spec.
      change 73 with (Z.lor (Z.lor (2 ^ 6) (2 ^ 3)) (2 ^ 0)).
      rewrite !Z.lor_spec, !Z.pow2_bits_eqb by lia.
      rewrite (Z.eqb_sym 6), (Z.eqb_sym 3), (Z.eqb_sym 0).
      reflexivity.
    + rewrite Hb2 by done. change 420 with (Z.ldiff 438 18).
      rewrite Z.ldiff_spec. cbn [andb]. by rewrite orb_false_r.
Defined.

(** ** The end of a successful run *)

Section Completion.

Variable E : env.

Lemma create_zip_ok_path root w zp w' :
  create_zip E root w = (Ok zp, w') → zp = ROOT_DIR E /# (name root +:+ ".zip").
Proof.
  unfold create_zip. intros H%try_ok_inv.
  apply bind_ok_inv in H as ([] & w1 & _ & H).
  apply bind_ok_inv in H as ([] & w2 & _ & H). by injection H as <- _.
Qed.

Lemma step_report_ok root zp w w' :
  step_report E root zp w = (Ok tt, w') →
  ∃ ts1 ts2 ts3,
    data_at (fs w') (ACTIONS_LOG E)
    = Some (default [] (data_at (fs w) (ACTIONS_LOG E))
            ++ info_line ts1 (lit "Stack files generation complete for " ++ VERSION
                              ++ lit ".")
            ++ info_line ts2 (lit "Root directory: " ++ path_str root)
            ++ info_line ts3 (lit "ZIP archive: " ++ path_str zp))
    ∧ ∃ out, stdout w'
             = out ++ [LF] ++ lit "Done." ++ [LF] ++ lit "Root: " ++ path_str root
               ++ [LF] ++ lit "ZIP:  " ++ path_str zp ++ [LF] ++ [LF].
Proof.
  unfold step_report.
  intros ([] & w1 & (ts1 & H1)%log_info_ok_inv & H)%bind_ok_inv.
  apply bind_ok_inv in H as ([] & w2 & (ts2 & H2)%log_info_ok_inv & H).
  apply bind_ok_inv in H as ([] & w3 & (ts3 & H3)%log_info_ok_inv & H).
  injection H as <-. cbn [fs stdout].
  exists ts1, ts2, ts3. split; [|by eexists].
  rewrite H3, H2, H1. cbn [default id]. by rewrite <- !(assoc_L (++)).
Qed.

End Completion.

(** X16. A run of [main] that returns has ended its actions log with the
    three records of completion (the version, the stack root and the
    archive) and standard output with the lines [Done.], [Root: ...] and
    [ZIP:  ...]. *)
Theorem successful_run_reports_completion E w w' :
  main E w = (Ok tt, w') →
  ∃ log out ts1 ts2 ts3,
    data_at (fs w') (ACTIONS_LOG E) = Some (log ++ completion_records E ts1 ts2 ts3)
    ∧ stdout w' = out ++ done_text E.
Proof.
  unfold main. fold (stack_root_of E).
  intros ([] & w0 & _ & Hbody)%bind_ok_inv.
  unfold main_handler in Hbody. apply try_ok_inv in Hbody.
  rewrite main_body_steps in Hbody. unfold main_steps in Hbody.
  apply bind_ok_inv in Hbody as ([] & w1 & _ & Hbody).
  apply bind_ok_inv in Hbody as ([] & w2 & _ & Hbody).
  apply bind_ok_inv in Hbody as ([] & w3 & _ & Hbody).
  apply bind_ok_inv in Hbody as (zp & w4 & Hzip & Hbody).
  apply create_zip_ok_path in Hzip. subst zp.
  apply step_report_ok in Hbody as (ts1 & ts2 & ts3 & Hlog & out & Hout).
  exists (default [] (data_at (fs w4) (ACTIONS_LOG E))), out, ts1, ts2, ts3.
  split; [exact Hlog | exact Hout].
Qed.

Lemma successful_run_reports_completion_witness :
  ∃ log out ts1 ts2 ts3,
    data_at (fs (main sample_env generator_world).2) (ACTIONS_LOG sample_env)
    = Some (log ++ completion_records sample_env ts1 ts2 ts3)
    ∧ stdout (main sample_env generator_world).2 = out ++ done_text sample_env.
Proof.
  assert ((main sample_env generator_world).1 = Ok tt) as Hmain
    by (vm_compute; reflexivity).
  apply run_ok in Hmain.
  exact (successful_run_reports_completion sample_env _ _ Hmain).
Defined.

(** ** Timestamps *)

Section Timestamps.

Lemma digit_inj a b : digit a = digit b → a mod 10 = b mod 10.
Proof.
  unfold digit. intros H.
  assert (0 ≤ a mod 10 < 10) as Ha by (apply Z.mod_pos_bound; lia).
  assert (0 ≤ b mod 10 < 10) as Hb by (apply Z.mod_pos_bound; lia).
  apply (f_equal nat_of_ascii) in H. rewrite !nat_ascii_embedding in H by lia. lia.
Qed.

Lemma pad2_inj a b : 0 ≤ a < 100 → 0 ≤ b < 100 → pad2 a = pad2 b → a = b.
Proof.
  intros Ha Hb [= H1%digit_inj H2%digit_inj].
  revert H1 H2. Z.div_mod_to_equations. lia.
Qed.

Lemma pad4_inj a b : 0 ≤ a < 10000 → 0 ≤ b < 10000 → pad4 a = pad4 b → a = b.
Proof.
  intros Ha Hb [= H1%digit_inj H2%digit_inj H3%digit_inj H4%digit_inj].
  revert H1 H2 H3 H4. Z.div_mod_to_equations. lia.
Qed.

End Timestamps.

(** X17. The timestamp of the log records tells the second it was taken
    at: two readings of the clock, with years on four digits and the
    other fields on two, are printed alike by [strftime] only if they
    are the same reading. *)
Theorem strftime_injective dt1 dt2 :
  four_digit_year dt1 → four_digit_year dt2 →
  strftime dt1 = strftime dt2 ↔ dt1 = dt2.
Proof.
  intros (Hy1 & Hm1 & Hd1 & Hh1 & Hn1 & Hs1) (Hy2 & Hm2 & Hd2 & Hh2 & Hn2 & Hs2).
  split; [|by intros ->].
  destruct dt1 as [y1 m1 d1 h1 n1 s1], dt2 as [y2 m2 d2 h2 n2 s2].
  cbn [year month day hour minute second] in *.
  unfold strftime. cbn [year month day hour minute second].
  intros H.
  assert (pad4 y1 = pad4 y2 ∧ pad2 m1 = pad2 m2 ∧ pad2 d1 = pad2 d2
          ∧ pad2 h1 = pad2 h2 ∧ pad2 n1 = pad2 n2 ∧ pad2 s1 = pad2 s2)
    as (Hy & Hm & Hd & Hh & Hn & Hs).
  { unfold pad4, pad2 in *. cbn [app lit list_ascii_of_string] in H.
    simplify_eq. repeat split; congruence. }
  apply pad4_inj in Hy; [|done..]. apply pad2_inj in Hm; [|done..].
  apply pad2_inj in Hd; [|done..]. apply pad2_inj in Hh; [|done..].
  apply pad2_inj in Hn; [|done..]. apply pad2_inj in Hs; [|done..].
  by subst.
Qed.

Lemma strftime_injective_witness :
  strftime (Datetime 2025 11 3 12 0 7) ≠ strftime (Datetime 2025 11 3 12 0 8).
Proof.
  intros H.
  apply (strftime_injective (Datetime 2025 11 3 12 0 7) (Datetime 2025 11 3 12 0 8))
    in H; [discriminate H|unfold four_digit_year; cbn; lia..].
Defined.
